(** * CS330 final project: scene composer and view controller

    A shallow embedding of [SceneManager.cpp] and [ViewManager.cpp].

    Numbers.  The C++ code computes in [float] and [double]; here every
    such quantity is a real number ([R]) and every arithmetic operation is
    exact.  Where an input is stored in a narrower type the conversion is
    modelled: a [double] cursor position stored in a [float] variable is
    rounded to the nearest [float] ([float_of_double]), and a [GLuint]
    texture name returned as an [int] wraps around ([int_of_GLuint]).
    Integers ([int], [GLuint]) are [Z].

    Effects.  Everything the scene composer sends to its collaborators
    (shader uniforms, OpenGL calls, mesh loads and draws, console lines)
    is an [event]; a member function returns its result, the state
    afterwards and the log of the events it sent.  Behaviour that C++
    leaves undefined (a null dereference, an access past the end of the
    texture table) is the result [None]. *)

From Stdlib Require Import Reals Lra List Ascii String ZArith Bool Lia.
Import ListNotations.

Open Scope R_scope.

(** ** The parts of GLM the two files use

    GLM is a third-party header library; the definitions follow its own
    (func_geometric, func_trigonometric, matrix_transform and
    gtx/transform), over the reals. *)

Module Glm.

Record vec2 := mkvec2 { x2 : R; y2 : R }.
Record vec3 := mkvec3 { x3 : R; y3 : R; z3 : R }.
Record vec4 := mkvec4 { x4 : R; y4 : R; z4 : R; w4 : R }.

(** A [mat4] is column major: [m[i]] is the i-th column. *)
Record mat4 := mkmat4 { col0 : vec4; col1 : vec4; col2 : vec4; col3 : vec4 }.

Definition add3 (a b : vec3) : vec3 :=
  mkvec3 (x3 a + x3 b) (y3 a + y3 b) (z3 a + z3 b).
Definition sub3 (a b : vec3) : vec3 :=
  mkvec3 (x3 a - x3 b) (y3 a - y3 b) (z3 a - z3 b).
Definition smul3 (k : R) (a : vec3) : vec3 :=
  mkvec3 (k * x3 a) (k * y3 a) (k * z3 a).
Definition muls3 (a : vec3) (k : R) : vec3 :=
  mkvec3 (x3 a * k) (y3 a * k) (z3 a * k).
Definition dot3 (a b : vec3) : R :=
  x3 a * x3 b + y3 a * y3 b + z3 a * z3 b.
Definition cross (a b : vec3) : vec3 :=
  mkvec3 (y3 a * z3 b - y3 b * z3 a)
         (z3 a * x3 b - z3 b * x3 a)
         (x3 a * y3 b - x3 b * y3 a).

(** [glm::inversesqrt] and [glm::normalize]: [v * inversesqrt(dot(v, v))]. *)
Definition inversesqrt (a : R) : R := 1 / sqrt a.
Definition normalize (v : vec3) : vec3 := muls3 v (inversesqrt (dot3 v v)).

(** [glm::radians]. *)
Definition radians (degrees : R) : R := degrees * (PI / 180).

Definition add4 (a b : vec4) : vec4 :=
  mkvec4 (x4 a + x4 b) (y4 a + y4 b) (z4 a + z4 b) (w4 a + w4 b).
Definition smul4 (a : vec4) (k : R) : vec4 :=
  mkvec4 (x4 a * k) (y4 a * k) (z4 a * k) (w4 a * k).

Definition identity : mat4 :=
  mkmat4 (mkvec4 1 0 0 0) (mkvec4 0 1 0 0) (mkvec4 0 0 1 0) (mkvec4 0 0 0 1).

(** [mat4 * vec4]. *)
Definition mulv (m : mat4) (v : vec4) : vec4 :=
  add4 (add4 (smul4 (col0 m) (x4 v)) (smul4 (col1 m) (y4 v)))
       (add4 (smul4 (col2 m) (z4 v)) (smul4 (col3 m) (w4 v))).

(** [mat4 * mat4]: column j of the product is [a] applied to column j
    of [b]. *)
Definition mulm (a b : mat4) : mat4 :=
  mkmat4 (mulv a (col0 b)) (mulv a (col1 b)) (mulv a (col2 b)) (mulv a (col3 b)).

(** [glm::translate(m, v)], [glm::scale(m, v)] and [glm::rotate(m, angle, v)]
    of matrix_transform. *)
Definition translate_m (m : mat4) (v : vec3) : mat4 :=
  mkmat4 (col0 m) (col1 m) (col2 m)
         (add4 (add4 (add4 (smul4 (col0 m) (x3 v)) (smul4 (col1 m) (y3 v)))
                     (smul4 (col2 m) (z3 v)))
               (col3 m)).

Definition scale_m (m : mat4) (v : vec3) : mat4 :=
  mkmat4 (smul4 (col0 m) (x3 v)) (smul4 (col1 m) (y3 v))
         (smul4 (col2 m) (z3 v)) (col3 m).

Definition rotate_m (m : mat4) (angle : R) (v : vec3) : mat4 :=
  let c := cos angle in
  let s := sin angle in
  let axis := normalize v in
  let temp := smul3 (1 - c) axis in
  let r00 := c + x3 temp * x3 axis in
  let r01 := x3 temp * y3 axis + s * z3 axis in
  let r02 := x3 temp * z3 axis - s * y3 axis in
  let r10 := y3 temp * x3 axis - s * z3 axis in
  let r11 := c + y3 temp * y3 axis in
  let r12 := y3 temp * z3 axis + s * x3 axis in
  let r20 := z3 temp * x3 axis + s * y3 axis in
  let r21 := z3 temp * y3 axis - s * x3 axis in
  let r22 := c + z3 temp * z3 axis in
  mkmat4
    (add4 (add4 (smul4 (col0 m) r00) (smul4 (col1 m) r01)) (smul4 (col2 m) r02))
    (add4 (add4 (smul4 (col0 m) r10) (smul4 (col1 m) r11)) (smul4 (col2 m) r12))
    (add4 (add4 (smul4 (col0 m) r20) (smul4 (col1 m) r21)) (smul4 (col2 m) r22))
    (col3 m).

(** The one-argument forms of gtx/transform start from the identity. *)
Definition translate (v : vec3) : mat4 := translate_m identity v.
Definition scale (v : vec3) : mat4 := scale_m identity v.
Definition rotate (angle : R) (v : vec3) : mat4 := rotate_m identity angle v.

End Glm.

Import Glm.

(** ** ViewManager.cpp *)

Module ViewManager.

(** Modelled from the spec: the class [Camera] is declared in camera.h,
    which is not among the sources.  The spec's Camera is (position,
    front-direction, up-direction, field-of-view/zoom, movement-speed, ...);
    these are the fields ViewManager.cpp reads or writes. *)
Record Camera := mkCamera {
  Position : vec3;
  Front : vec3;
  Up : vec3;
  Zoom : R;
  MovementSpeed : R
}.

Definition WINDOW_WIDTH : R := 1000.
Definition WINDOW_HEIGHT : R := 800.

(** The variables of the anonymous namespace, and what the callbacks
    change in the GLFW window: the cursor mode and the close request. *)
Record State := mkState {
  g_pCamera : option Camera;
  gLastX : R;
  gLastY : R;
  gFirstMouse : bool;
  yaw : R;
  pitch : R;
  fov : R;
  gDeltaTime : R;
  gLastFrame : R;
  bOrthographicProjection : bool;
  cursorDisabled : bool;
  windowShouldClose : bool
}.

(** The initialisers of the globals at program start. *)
Definition globals : State :=
  {| g_pCamera := None;
     gLastX := WINDOW_WIDTH / 2;
     gLastY := WINDOW_HEIGHT / 2;
     gFirstMouse := true;
     yaw := -89;
     pitch := 0;
     fov := 45;
     gDeltaTime := 0;
     gLastFrame := 0;
     bOrthographicProjection := false;
     cursorDisabled := false;
     windowShouldClose := false |}.

Definition set_camera (c : option Camera) (s : State) : State :=
  mkState c (gLastX s) (gLastY s) (gFirstMouse s) (yaw s) (pitch s) (fov s)
          (gDeltaTime s) (gLastFrame s) (bOrthographicProjection s)
          (cursorDisabled s) (windowShouldClose s).

Definition set_last (lx ly : R) (s : State) : State :=
  mkState (g_pCamera s) lx ly (gFirstMouse s) (yaw s) (pitch s) (fov s)
          (gDeltaTime s) (gLastFrame s) (bOrthographicProjection s)
          (cursorDisabled s) (windowShouldClose s).

Definition set_first_mouse (b : bool) (s : State) : State :=
  mkState (g_pCamera s) (gLastX s) (gLastY s) b (yaw s) (pitch s) (fov s)
          (gDeltaTime s) (gLastFrame s) (bOrthographicProjection s)
          (cursorDisabled s) (windowShouldClose s).

Definition set_yaw_pitch (yw p : R) (s : State) : State :=
  mkState (g_pCamera s) (gLastX s) (gLastY s) (gFirstMouse s) yw p (fov s)
          (gDeltaTime s) (gLastFrame s) (bOrthographicProjection s)
          (cursorDisabled s) (windowShouldClose s).

Definition set_orthographic (b : bool) (s : State) : State :=
  mkState (g_pCamera s) (gLastX s) (gLastY s) (gFirstMouse s) (yaw s) (pitch s)
          (fov s) (gDeltaTime s) (gLastFrame s) b
          (cursorDisabled s) (windowShouldClose s).

Definition set_cursor_disabled (b : bool) (s : State) : State :=
  mkState (g_pCamera s) (gLastX s) (gLastY s) (gFirstMouse s) (yaw s) (pitch s)
          (fov s) (gDeltaTime s) (gLastFrame s) (bOrthographicProjection s)
          b (windowShouldClose s).

Definition set_should_close (b : bool) (s : State) : State :=
  mkState (g_pCamera s) (gLastX s) (gLastY s) (gFirstMouse s) (yaw s) (pitch s)
          (fov s) (gDeltaTime s) (gLastFrame s) (bOrthographicProjection s)
          (cursorDisabled s) b.

Definition set_Position (p : vec3) (c : Camera) : Camera :=
  mkCamera p (Front c) (Up c) (Zoom c) (MovementSpeed c).
Definition set_Front (f : vec3) (c : Camera) : Camera :=
  mkCamera (Position c) f (Up c) (Zoom c) (MovementSpeed c).
Definition set_MovementSpeed (v : R) (c : Camera) : Camera :=
  mkCamera (Position c) (Front c) (Up c) (Zoom c) v.

(** The camera as [ViewManager::ViewManager] sets it up. *)
Definition default_camera : Camera :=
  {| Position := mkvec3 0 5 12;
     Front := mkvec3 0 (-0.5) (-2);
     Up := mkvec3 0 1 0;
     Zoom := 80;
     MovementSpeed := 0.1 |}.

(** [ViewManager::ViewManager]: allocates the camera and sets the default
    view parameters. *)
Definition ViewManager (s : State) : State := set_camera (Some default_camera) s.

(** [scrollCallback]; the camera pointer is dereferenced unchecked. *)
Definition scrollCallback (xOffset yOffset : R) (s : State) : option State :=
  match g_pCamera s with
  | None => None
  | Some cam =>
      let v := MovementSpeed cam + yOffset * 0.1 in
      let v := if Rlt_dec v 0.1 then 0.1 else v in
      let v := if Rlt_dec 1 v then 1 else v in
      Some (set_camera (Some (set_MovementSpeed v cam)) s)
  end.

(** The direction computed from yaw and pitch at the end of
    [Mouse_Position_Callback]. *)
Definition direction (yw p : R) : vec3 :=
  mkvec3 (cos (radians yw) * cos (radians p))
         (sin (radians p))
         (sin (radians yw) * cos (radians p)).

(** The integer nearest to [r], the even one of the two when [r] lies
    half way. *)
Definition nearest_even (r : R) : Z :=
  let f := Int_part r in
  let d := r - IZR f in
  if Rlt_dec d (1 / 2) then f
  else if Rlt_dec (1 / 2) d then (f + 1)%Z
  else if Z.even f then f else (f + 1)%Z.

(** The binary exponent of [x] as a [float]: the integer part of its
    base-2 logarithm, and -126 for the subnormal numbers and zero. *)
Definition float_exponent (x : R) : Z :=
  Z.max (-126) (Int_part (ln (Rabs x) / ln 2)).

(** The conversion of a [double] to [float], as in [gLastX = xMousePos]
    ([gLastX] and [gLastY] are [float], the cursor position is [double]):
    the nearest number with a 24-bit significand at the exponent of [x],
    ties to even, which is the rounding of IEEE 754.  The exponent is not
    limited above: cursor positions are far below the largest [float]. *)
Definition float_of_double (x : R) : R :=
  let ulp := powerRZ 2 (float_exponent x - 23) in
  IZR (nearest_even (x / ulp)) * ulp.

Arguments float_of_double x : simpl never.

(** [ViewManager::Mouse_Position_Callback].  The position is stored in
    the [float] variables [gLastX] and [gLastY]; the offsets are computed
    from the [double] position itself. *)
Definition Mouse_Position_Callback (xMousePos yMousePos : R) (s : State)
  : option State :=
  let s := if gFirstMouse s
           then set_first_mouse false
                  (set_last (float_of_double xMousePos)
                            (float_of_double yMousePos) s)
           else s in
  let s := set_cursor_disabled true s in
  let xOffset := xMousePos - gLastX s in
  let yOffset := gLastY s - yMousePos in
  let s := set_last (float_of_double xMousePos) (float_of_double yMousePos) s in
  let sensitivity := 0.1 in
  let xOffset := xOffset * sensitivity in
  let yOffset := yOffset * sensitivity in
  let yw := yaw s + xOffset in
  let p := pitch s + yOffset in
  let p := if Rlt_dec 89 p then 89 else p in
  let p := if Rlt_dec p (-89) then -89 else p in
  let s := set_yaw_pitch yw p s in
  match g_pCamera s with
  | None => None
  | Some cam =>
      Some (set_camera (Some (set_Front (normalize (direction yw p)) cam)) s)
  end.

(** The keys polled with [glfwGetKey]. *)
Inductive Key :=
| KEY_ESCAPE | KEY_W | KEY_S | KEY_A | KEY_D | KEY_Q | KEY_E | KEY_P | KEY_O.

Definition on_camera (f : Camera -> Camera) (s : State) : State :=
  match g_pCamera s with
  | None => s
  | Some cam => set_camera (Some (f cam)) s
  end.

(** [ViewManager::ProcessKeyboardEvents]; [pressed k] is
    [glfwGetKey(m_pWindow, k) == GLFW_PRESS]. *)
Definition ProcessKeyboardEvents (pressed : Key -> bool) (s : State) : State :=
  let s := if pressed KEY_ESCAPE then set_should_close true s else s in
  match g_pCamera s with
  | None => s
  | Some _ =>
      let s := if pressed KEY_W
               then on_camera (fun c =>
                      set_Position (add3 (Position c) (smul3 (MovementSpeed c) (Front c))) c) s
               else s in
      let s := if pressed KEY_S
               then on_camera (fun c =>
                      set_Position (sub3 (Position c) (smul3 (MovementSpeed c) (Front c))) c) s
               else s in
      let s := if pressed KEY_A
               then on_camera (fun c =>
                      set_Position
                        (sub3 (Position c)
                              (muls3 (normalize (cross (Front c) (Up c))) (MovementSpeed c))) c) s
               else s in
      let s := if pressed KEY_D
               then on_camera (fun c =>
                      set_Position
                        (add3 (Position c)
                              (muls3 (normalize (cross (Front c) (Up c))) (MovementSpeed c))) c) s
               else s in
      let s := if pressed KEY_Q
               then on_camera (fun c =>
                      set_Position (add3 (Position c) (muls3 (Up c) (MovementSpeed c))) c) s
               else s in
      let s := if pressed KEY_E
               then on_camera (fun c =>
                      set_Position (sub3 (Position c) (muls3 (Up c) (MovementSpeed c))) c) s
               else s in
      let s := if pressed KEY_P then set_orthographic false s else s in
      let s := if pressed KEY_O then set_orthographic true s else s in
      s
  end.

(** What the windowing system can deliver between and during frames. *)
Inductive input :=
| CursorPos (xMousePos yMousePos : R)
| Scroll (xOffset yOffset : R)
| Keyboard (pressed : Key -> bool).

Definition step (i : input) (s : State) : option State :=
  match i with
  | CursorPos x y => Mouse_Position_Callback x y s
  | Scroll xo yo => scrollCallback xo yo s
  | Keyboard pressed => Some (ProcessKeyboardEvents pressed s)
  end.

Fixpoint run (inputs : list input) (s : State) : option State :=
  match inputs with
  | [] => Some s
  | i :: rest =>
      match step i s with
      | None => None
      | Some s' => run rest s'
      end
  end.

(** Squared length of a vector; a unit vector has squared length 1. *)
Definition length2 (v : vec3) : R := dot3 v v.

Definition front_of (s : State) : option vec3 :=
  match g_pCamera s with
  | None => None
  | Some cam => Some (Front cam)
  end.

(** The invariant of the view controller: the camera is allocated, its
    movement speed is within [0.1, 1] and the pitch within [-89, 89]. *)
Definition view_invariant (s : State) : Prop :=
  exists cam, g_pCamera s = Some cam
              /\ 0.1 <= MovementSpeed cam <= 1
              /\ -89 <= pitch s <= 89.

(** [ViewManager::~ViewManager]: the camera is deleted and the pointer
    cleared. *)
Definition ViewManager_destructor (s : State) : State := set_camera None s.

(** The key state of a frame in which exactly the key [k] is down. *)
Definition only (k : Key) : Key -> bool :=
  fun k' =>
    match k, k' with
    | KEY_ESCAPE, KEY_ESCAPE | KEY_W, KEY_W | KEY_S, KEY_S | KEY_A, KEY_A
    | KEY_D, KEY_D | KEY_Q, KEY_Q | KEY_E, KEY_E | KEY_P, KEY_P
    | KEY_O, KEY_O => true
    | _, _ => false
    end.

(** The keys that move the camera. *)
Definition moves (k : Key) : bool :=
  match k with
  | KEY_W | KEY_S | KEY_A | KEY_D | KEY_Q | KEY_E => true
  | _ => false
  end.



(** [s'] differs from [s] at most in the camera position, the projection
    flag and the close request. *)
Definition keeps_orientation (s s' : State) : Prop :=
  yaw s' = yaw s /\ pitch s' = pitch s /\ fov s' = fov s
  /\ gLastX s' = gLastX s /\ gLastY s' = gLastY s
  /\ gFirstMouse s' = gFirstMouse s /\ cursorDisabled s' = cursorDisabled s
  /\ gDeltaTime s' = gDeltaTime s /\ gLastFrame s' = gLastFrame s
  /\ option_map Front (g_pCamera s') = option_map Front (g_pCamera s)
  /\ option_map Up (g_pCamera s') = option_map Up (g_pCamera s)
  /\ option_map Zoom (g_pCamera s') = option_map Zoom (g_pCamera s)
  /\ option_map MovementSpeed (g_pCamera s')
     = option_map MovementSpeed (g_pCamera s).

End ViewManager.

(** ** SceneManager.cpp *)

Module SceneManager.

Open Scope string_scope.
Open Scope Z_scope.

(** Modelled from the spec: [ShapeMeshes] is not among the sources.  A
    mesh kind is one of plane, box, cylinder, tapered cylinder, cone and
    torus; [Load...Mesh] and [Draw...Mesh] return nothing. *)
Inductive MeshKind := Plane | Box | Cylinder | TaperedCylinder | Cone | Torus.

Inductive GLformat := GL_RGB8 | GL_RGB | GL_RGBA8 | GL_RGBA.
Inductive GLparam :=
| GL_TEXTURE_WRAP_S | GL_TEXTURE_WRAP_T
| GL_TEXTURE_MIN_FILTER | GL_TEXTURE_MAG_FILTER.
Inductive GLvalue := GL_REPEAT | GL_LINEAR.

(** What the scene composer sends to its collaborators: the console,
    stb_image, OpenGL, the shader manager ([set...Value] publishes a named
    uniform) and the mesh provider. *)
Inductive event :=
| cout_loaded (filename : string) (width height channels : Z)
| cout_not_implemented (channels : Z)
| cout_could_not_load (filename : string)
| stbi_set_flip_vertically_on_load (flag : bool)
| stbi_image_free
| glGenTextures (name : Z)
| glBindTexture (name : Z)
| glTexParameteri (pname : GLparam) (param : GLvalue)
| glTexImage2D (internalformat : GLformat) (width height : Z) (format : GLformat)
| glGenerateMipmap
| glActiveTexture (unit : Z)
| setMat4Value (name : string) (value : mat4)
| setVec4Value (name : string) (value : vec4)
| setVec3Value (name : string) (value : vec3)
| setVec2Value (name : string) (value : vec2)
| setFloatValue (name : string) (value : R)
| setIntValue (name : string) (value : Z)
| setBoolValue (name : string) (value : bool)
| setSampler2DValue (name : string) (value : Z)
| LoadMesh (kind : MeshKind)
| DrawMesh (kind : MeshKind).

(** Modelled from the spec: [TEXTURE_INFO] and [OBJECT_MATERIAL] are
    declared in SceneManager.h, which is not among the sources.  A texture
    entry is (tag, handle); a material entry is (tag, ambient color,
    ambient strength, diffuse color, specular color, shininess).  The
    field names are those SceneManager.cpp uses; both structs call their
    tag [tag]. *)
Record TEXTURE_INFO := mkTEXTURE_INFO { tag : string; ID : Z }.

Record OBJECT_MATERIAL := mkOBJECT_MATERIAL {
  ambientColor : vec3;
  ambientStrength : R;
  diffuseColor : vec3;
  specularColor : vec3;
  shininess : R;
  material_tag : string
}.

(** The members of [SceneManager]; [m_pShaderManager] is [true] when the
    pointer is not null.  [glNextName] is the texture name the OpenGL
    driver hands out next. *)
Record State := mkState {
  m_pShaderManager : bool;
  m_textureIDs : list TEXTURE_INFO;
  m_loadedTextures : Z;
  m_objectMaterials : list OBJECT_MATERIAL;
  glNextName : Z
}.

(** *** State, log and undefined behaviour *)

Definition M (A : Type) : Type := State -> option (A * State * list event).

Definition ret {A} (a : A) : M A := fun s => Some (a, s, []).

Definition bind {A B} (m : M A) (k : A -> M B) : M B :=
  fun s =>
    match m s with
    | None => None
    | Some (a, s1, e1) =>
        match k a s1 with
        | None => None
        | Some (b, s2, e2) => Some (b, s2, (e1 ++ e2)%list)
        end
    end.

Definition emit (e : event) : M unit := fun s => Some (tt, s, [e]).
Definition undefined {A} : M A := fun _ => None.
Definition get : M State := fun s => Some (s, s, []).
Definition put (s : State) : M unit := fun _ => Some (tt, s, []).

Notation "x <- m ;; k" := (bind m (fun x => k))
  (at level 61, m at next level, right associativity).
Notation "m ;; k" := (bind m (fun _ => k))
  (at level 61, right associativity).

(** A call through [m_pShaderManager] that the source does not guard. *)
Definition shader (e : event) : M unit :=
  s <- get ;;
  if m_pShaderManager s then emit e else undefined.

(** [a[i] = v] on a fixed-size array. *)
Fixpoint store {A} (l : list A) (i : nat) (v : A) : option (list A) :=
  match l, i with
  | [], _ => None
  | _ :: rest, O => Some (v :: rest)
  | a :: rest, S j =>
      match store rest j v with
      | None => None
      | Some rest' => Some (a :: rest')
      end
  end.

Definition g_ModelName := "model".
Definition g_ColorValueName := "objectColor".
Definition g_TextureValueName := "objectTexture".
Definition g_UseTextureName := "bUseTexture".
Definition g_UseLightingName := "bUseLighting".

(** [SceneManager::SceneManager]. *)
Definition SceneManager (pShaderManager : bool) (glNext : Z) : State :=
  {| m_pShaderManager := pShaderManager;
     m_textureIDs := repeat (mkTEXTURE_INFO "/0" (-1)) 16;
     m_loadedTextures := 0;
     m_objectMaterials := [];
     glNextName := glNext |}.

(** [glGenTextures(1, &name)]: the driver hands out its next name. *)
Definition next_name (s : State) : State :=
  mkState (m_pShaderManager s) (m_textureIDs s) (m_loadedTextures s)
          (m_objectMaterials s) (glNextName s + 1).

Definition gen_texture_name : M Z :=
  s <- get ;;
  put (next_name s) ;;
  emit (glGenTextures (glNextName s)) ;;
  ret (glNextName s).

(** The last statements of the success path of [CreateGLTexture]. *)
Definition register_texture (textureID : Z) (tg : string) : M bool :=
  emit glGenerateMipmap ;;
  emit stbi_image_free ;;
  emit (glBindTexture 0) ;;
  s <- get ;;
  match store (m_textureIDs s) (Z.to_nat (m_loadedTextures s))
              (mkTEXTURE_INFO tg textureID) with
  | None => undefined
  | Some table =>
      put (mkState (m_pShaderManager s) table (m_loadedTextures s + 1)
                   (m_objectMaterials s) (glNextName s)) ;;
      ret true
  end.

Section Decoder.

(** [stbi_load]: width, height and channel count of the image in a
    file, or [None] when it cannot be read. *)
Variable stbi_load : string -> option (Z * Z * Z).

(** [SceneManager::CreateGLTexture]. *)
Definition CreateGLTexture (filename tg : string) : M bool :=
  emit (stbi_set_flip_vertically_on_load true) ;;
  match stbi_load filename with
  | Some (width, height, colorChannels) =>
      emit (cout_loaded filename width height colorChannels) ;;
      textureID <- gen_texture_name ;;
      emit (glBindTexture textureID) ;;
      emit (glTexParameteri GL_TEXTURE_WRAP_S GL_REPEAT) ;;
      emit (glTexParameteri GL_TEXTURE_WRAP_T GL_REPEAT) ;;
      emit (glTexParameteri GL_TEXTURE_MIN_FILTER GL_LINEAR) ;;
      emit (glTexParameteri GL_TEXTURE_MAG_FILTER GL_LINEAR) ;;
      if colorChannels =? 3 then
        emit (glTexImage2D GL_RGB8 width height GL_RGB) ;;
        register_texture textureID tg
      else if colorChannels =? 4 then
        emit (glTexImage2D GL_RGBA8 width height GL_RGBA) ;;
        register_texture textureID tg
      else
        emit (cout_not_implemented colorChannels) ;;
        ret false
  | None =>
      emit (cout_could_not_load filename) ;;
      ret false
  end.

End Decoder.

(** [SceneManager::BindGLTextures]: the loop from [i] with [fuel]
    iterations left. *)
Fixpoint BindGLTextures_loop (fuel : nat) (i : Z) : M unit :=
  match fuel with
  | O => ret tt
  | S fuel' =>
      s <- get ;;
      match nth_error (m_textureIDs s) (Z.to_nat i) with
      | None => undefined
      | Some t =>
          emit (glActiveTexture i) ;;
          emit (glBindTexture (ID t)) ;;
          BindGLTextures_loop fuel' (i + 1)
      end
  end.

Definition BindGLTextures : M unit :=
  s <- get ;;
  BindGLTextures_loop (Z.to_nat (m_loadedTextures s)) 0.

(** [SceneManager::DestroyGLTextures]: each loaded entry gets a newly
    generated name. *)
Fixpoint DestroyGLTextures_loop (fuel : nat) (i : Z) : M unit :=
  match fuel with
  | O => ret tt
  | S fuel' =>
      name <- gen_texture_name ;;
      s <- get ;;
      match nth_error (m_textureIDs s) (Z.to_nat i) with
      | None => undefined
      | Some t =>
          match store (m_textureIDs s) (Z.to_nat i) (mkTEXTURE_INFO (tag t) name) with
          | None => undefined
          | Some table =>
              put (mkState (m_pShaderManager s) table (m_loadedTextures s)
                           (m_objectMaterials s) (glNextName s)) ;;
              DestroyGLTextures_loop fuel' (i + 1)
          end
      end
  end.

Definition DestroyGLTextures : M unit :=
  s <- get ;;
  DestroyGLTextures_loop (Z.to_nat (m_loadedTextures s)) 0.

(** The loop shared by [FindTextureID] and [FindTextureSlot]: from
    [index], with [fuel] entries left below [m_loadedTextures]; [found]
    computes the result at a match.  [None] is a read past the array. *)
Fixpoint find_texture (table : list TEXTURE_INFO) (tg : string)
         (found : Z -> TEXTURE_INFO -> Z) (fuel : nat) (index : Z) : option Z :=
  match fuel with
  | O => Some (-1)
  | S fuel' =>
      match nth_error table (Z.to_nat index) with
      | None => None
      | Some t =>
          if String.eqb (tag t) tg then Some (found index t)
          else find_texture table tg found fuel' (index + 1)
      end
  end.

(** The conversion of a [GLuint] to [int], as in [textureID =
    m_textureIDs[index].ID]: the value modulo 2^32, read as a 32-bit
    two's complement number. *)
Definition int_of_GLuint (n : Z) : Z :=
  ((n + 2147483648) mod 4294967296 - 2147483648)%Z.

(** [SceneManager::FindTextureID]; the result is an [int], the stored name
    a [GLuint]. *)
Definition FindTextureID (s : State) (tg : string) : option Z :=
  find_texture (m_textureIDs s) tg (fun _ t => int_of_GLuint (ID t))
               (Z.to_nat (m_loadedTextures s)) 0.

(** [SceneManager::FindTextureSlot]. *)
Definition FindTextureSlot (s : State) (tg : string) : option Z :=
  find_texture (m_textureIDs s) tg (fun index _ => index)
               (Z.to_nat (m_loadedTextures s)) 0.

(** The loop of [FindMaterial] over the materials from [index] on: at
    the first match five fields are copied into [material]. *)
Fixpoint FindMaterial_loop (rest : list OBJECT_MATERIAL) (tg : string)
         (material : OBJECT_MATERIAL) : OBJECT_MATERIAL :=
  match rest with
  | [] => material
  | m :: rest' =>
      if String.eqb (material_tag m) tg
      then mkOBJECT_MATERIAL (ambientColor m) (ambientStrength m) (diffuseColor m)
                             (specularColor m) (shininess m) (material_tag material)
      else FindMaterial_loop rest' tg material
  end.

(** [SceneManager::FindMaterial]: the returned flag and the content of
    the reference parameter [material] afterwards. *)
Definition FindMaterial (s : State) (tg : string) (material : OBJECT_MATERIAL)
  : bool * OBJECT_MATERIAL :=
  if Nat.eqb (List.length (m_objectMaterials s)) 0 then (false, material)
  else (true, FindMaterial_loop (m_objectMaterials s) tg material).

Open Scope R_scope.

(** The matrix [SetTransformations] builds:
    [translation * rotationX * rotationY * rotationZ * scale]. *)
Definition modelView (scaleXYZ : vec3)
           (XrotationDegrees YrotationDegrees ZrotationDegrees : R)
           (positionXYZ : vec3) : mat4 :=
  let scale := Glm.scale scaleXYZ in
  let rotationX := rotate (radians XrotationDegrees) (mkvec3 1 0 0) in
  let rotationY := rotate (radians YrotationDegrees) (mkvec3 0 1 0) in
  let rotationZ := rotate (radians ZrotationDegrees) (mkvec3 0 0 1) in
  let translation := translate positionXYZ in
  mulm (mulm (mulm (mulm translation rotationX) rotationY) rotationZ) scale.

(** [SceneManager::SetTransformations]. *)
Definition SetTransformations (scaleXYZ : vec3)
           (XrotationDegrees YrotationDegrees ZrotationDegrees : R)
           (positionXYZ : vec3) : M unit :=
  s <- get ;;
  if m_pShaderManager s
  then emit (setMat4Value g_ModelName
               (modelView scaleXYZ XrotationDegrees YrotationDegrees
                          ZrotationDegrees positionXYZ))
  else ret tt.

(** [SceneManager::SetShaderColor]. *)
Definition SetShaderColor (redColorValue greenColorValue blueColorValue alphaValue : R)
  : M unit :=
  s <- get ;;
  if m_pShaderManager s
  then emit (setVec4Value g_ColorValueName
               (mkvec4 redColorValue greenColorValue blueColorValue alphaValue))
  else ret tt.

(** [SceneManager::SetShaderTexture]. *)
Definition SetShaderTexture (textureTag : string) : M unit :=
  s <- get ;;
  if m_pShaderManager s
  then
    emit (setIntValue g_UseTextureName 1%Z) ;;
    match FindTextureSlot s textureTag with
    | None => undefined
    | Some textureID => emit (setSampler2DValue g_TextureValueName textureID)
    end
  else ret tt.

(** [SceneManager::SetTextureUVScale]. *)
Definition SetTextureUVScale (u v : R) : M unit :=
  s <- get ;;
  if m_pShaderManager s
  then emit (setVec2Value "UVscale" (mkvec2 u v))
  else ret tt.

(** The five uniforms of a material. *)
Definition material_uniforms (material : OBJECT_MATERIAL) : list event :=
  [ setVec3Value "material.ambientColor" (ambientColor material);
    setFloatValue "material.ambientStrength" (ambientStrength material);
    setVec3Value "material.diffuseColor" (diffuseColor material);
    setVec3Value "material.specularColor" (specularColor material);
    setFloatValue "material.shininess" (shininess material) ].

(** [SceneManager::SetShaderMaterial].  The local [material] is declared
    without an initialiser; [indeterminate] is what it holds then. *)
Definition SetShaderMaterial (indeterminate : OBJECT_MATERIAL)
           (materialTag : string) : M unit :=
  s <- get ;;
  if Nat.ltb 0 (List.length (m_objectMaterials s))
  then
    let (bReturn, material) := FindMaterial s materialTag indeterminate in
    if bReturn
    then
      shader (setVec3Value "material.ambientColor" (ambientColor material)) ;;
      shader (setFloatValue "material.ambientStrength" (ambientStrength material)) ;;
      shader (setVec3Value "material.diffuseColor" (diffuseColor material)) ;;
      shader (setVec3Value "material.specularColor" (specularColor material)) ;;
      shader (setFloatValue "material.shininess" (shininess material))
    else ret tt
  else ret tt.

(** [SceneManager::LoadSceneTextures]. *)
Definition LoadSceneTextures (stbi_load : string -> option (Z * Z * Z)) : M unit :=
  CreateGLTexture stbi_load "ceramicTexture.jpg" "mug" ;;
  CreateGLTexture stbi_load "stoneTexture.jpg" "table" ;;
  CreateGLTexture stbi_load "blackPlasticTexture.jpg" "blackPlastic" ;;
  CreateGLTexture stbi_load "whitePlasticTexture.jpg" "whitePlastic" ;;
  CreateGLTexture stbi_load "bluePlasticTexture.jpg" "bluePlastic" ;;
  CreateGLTexture stbi_load "redPaperTexture.jpg" "redPaper" ;;
  CreateGLTexture stbi_load "blackBookTexture.jpg" "blackBook" ;;
  CreateGLTexture stbi_load "brownBookTexture.jpg" "brownBook" ;;
  BindGLTextures.

Definition push_back (m : OBJECT_MATERIAL) : M unit :=
  s <- get ;;
  put (mkState (m_pShaderManager s) (m_textureIDs s) (m_loadedTextures s)
               (m_objectMaterials s ++ [m]) (glNextName s)).

Definition ceramicMaterial : OBJECT_MATERIAL :=
  {| ambientColor := mkvec3 0.7 0.7 0.7; ambientStrength := 0.05;
     diffuseColor := mkvec3 0.7 0.7 0.7; specularColor := mkvec3 0.8 0.8 0.8;
     shininess := 4; material_tag := "ceramic" |}.
Definition marbleMaterial : OBJECT_MATERIAL :=
  {| ambientColor := mkvec3 0.05 0.05 0.05; ambientStrength := 0.1;
     diffuseColor := mkvec3 0.1 0.1 0.1; specularColor := mkvec3 0.7 0.7 0.7;
     shininess := 20; material_tag := "marble" |}.
Definition paperMaterial : OBJECT_MATERIAL :=
  {| ambientColor := mkvec3 0.7 0.7 0.65; ambientStrength := 0.1;
     diffuseColor := mkvec3 1 1 0.9; specularColor := mkvec3 0.2 0.2 0.2;
     shininess := 2; material_tag := "paper" |}.
Definition plasticMaterial : OBJECT_MATERIAL :=
  {| ambientColor := mkvec3 0.05 0.05 0.05; ambientStrength := 0.1;
     diffuseColor := mkvec3 0.4 0.4 0.4; specularColor := mkvec3 0.7 0.7 0.7;
     shininess := 60; material_tag := "plastic" |}.
Definition dullPlasticMaterial : OBJECT_MATERIAL :=
  {| ambientColor := mkvec3 0.05 0.05 0.05; ambientStrength := 0.1;
     diffuseColor := mkvec3 0.4 0.4 0.4; specularColor := mkvec3 0.7 0.7 0.7;
     shininess := 20; material_tag := "dullPlastic" |}.
Definition glassMaterial : OBJECT_MATERIAL :=
  {| ambientColor := mkvec3 0.1 0.1 0.1; ambientStrength := 0.1;
     diffuseColor := mkvec3 0.2 0.2 0.2; specularColor := mkvec3 0.9 0.9 0.9;
     shininess := 100; material_tag := "glass" |}.

(** [SceneManager::DefineObjectMaterials]. *)
Definition DefineObjectMaterials : M unit :=
  push_back ceramicMaterial ;;
  push_back marbleMaterial ;;
  push_back paperMaterial ;;
  push_back plasticMaterial ;;
  push_back dullPlasticMaterial ;;
  push_back glassMaterial.

(** [SceneManager::SetupSceneLights]. *)
Definition SetupSceneLights : M unit :=
  shader (setVec3Value "lightSources[0].position" (mkvec3 (-20) 15 (-16.5))) ;;
  shader (setVec3Value "lightSources[0].ambientColor" (mkvec3 0.2 0.2 0.2)) ;;
  shader (setVec3Value "lightSources[0].diffuseColor" (mkvec3 1 0.95 0.9)) ;;
  shader (setVec3Value "lightSources[0].specularColor" (mkvec3 1 0.95 0.9)) ;;
  shader (setFloatValue "lightSources[0].focalStrength" 10) ;;
  shader (setFloatValue "lightSources[0].specularIntensity" 0.2) ;;
  shader (setVec3Value "lightSources[1].position" (mkvec3 (-20) 6 (-16.5))) ;;
  shader (setVec3Value "lightSources[1].ambientColor" (mkvec3 0.2 0.2 0.2)) ;;
  shader (setVec3Value "lightSources[1].diffuseColor" (mkvec3 0.8 0.75 0.7)) ;;
  shader (setVec3Value "lightSources[1].specularColor" (mkvec3 0.5 0.5 0.5)) ;;
  shader (setFloatValue "lightSources[1].focalStrength" 0.01) ;;
  shader (setFloatValue "lightSources[1].specularIntensity" 0) ;;
  shader (setVec3Value "lightSources[2].position" (mkvec3 20 15 (-16.5))) ;;
  shader (setVec3Value "lightSources[2].ambientColor" (mkvec3 0.2 0.2 0.2)) ;;
  shader (setVec3Value "lightSources[2].diffuseColor" (mkvec3 1 0.95 0.9)) ;;
  shader (setVec3Value "lightSources[2].specularColor" (mkvec3 1 0.95 0.9)) ;;
  shader (setFloatValue "lightSources[2].focalStrength" 10) ;;
  shader (setFloatValue "lightSources[2].specularIntensity" 0.2) ;;
  shader (setVec3Value "lightSources[3].position" (mkvec3 20 6 (-16.5))) ;;
  shader (setVec3Value "lightSources[3].ambientColor" (mkvec3 0.2 0.2 0.2)) ;;
  shader (setVec3Value "lightSources[3].diffuseColor" (mkvec3 0.8 0.75 0.7)) ;;
  shader (setVec3Value "lightSources[3].specularColor" (mkvec3 0.5 0.5 0.5)) ;;
  shader (setFloatValue "lightSources[3].focalStrength" 0.01) ;;
  shader (setFloatValue "lightSources[3].specularIntensity" 0) ;;
  shader (setBoolValue "bUseLighting" true).

(** The calls into [ShapeMeshes]. *)
Definition LoadPlaneMesh : M unit := emit (LoadMesh Plane).
Definition LoadTaperedCylinderMesh : M unit := emit (LoadMesh TaperedCylinder).
Definition LoadTorusMesh : M unit := emit (LoadMesh Torus).
Definition LoadCylinderMesh : M unit := emit (LoadMesh Cylinder).
Definition LoadConeMesh : M unit := emit (LoadMesh Cone).
Definition LoadBoxMesh : M unit := emit (LoadMesh Box).
Definition DrawPlaneMesh : M unit := emit (DrawMesh Plane).
Definition DrawTaperedCylinderMesh : M unit := emit (DrawMesh TaperedCylinder).
Definition DrawTorusMesh : M unit := emit (DrawMesh Torus).
Definition DrawCylinderMesh : M unit := emit (DrawMesh Cylinder).
Definition DrawConeMesh : M unit := emit (DrawMesh Cone).
Definition DrawBoxMesh : M unit := emit (DrawMesh Box).

(** [SceneManager::PrepareScene]. *)
Definition PrepareScene (stbi_load : string -> option (Z * Z * Z)) : M unit :=
  LoadSceneTextures stbi_load ;;
  DefineObjectMaterials ;;
  SetupSceneLights ;;
  LoadPlaneMesh ;;
  LoadTaperedCylinderMesh ;;
  LoadTorusMesh ;;
  LoadCylinderMesh ;;
  LoadConeMesh ;;
  LoadBoxMesh.

(** [SceneManager::RenderScene]; [indeterminate] is the content of the
    uninitialised local of every [SetShaderMaterial] call. *)
Definition RenderScene (indeterminate : OBJECT_MATERIAL) : M unit :=
  (* Table Plane *)
  SetTransformations (mkvec3 10 1 9) 0 0 0 (mkvec3 0 1 0) ;;
  SetShaderTexture "table" ;;
  SetShaderMaterial indeterminate "marble" ;;
  DrawPlaneMesh ;;
  (* Mug Bottom Tapered Cylinder *)
  SetTransformations (mkvec3 1 0.8 1) 180 0 0 (mkvec3 4 1.8 (-1)) ;;
  SetShaderTexture "mug" ;;
  SetShaderMaterial indeterminate "ceramic" ;;
  DrawTaperedCylinderMesh ;;
  (* Mug Handle Torus *)
  SetTransformations (mkvec3 0.6 0.7 1) 180 0 0 (mkvec3 5 2.4 (-1)) ;;
  SetShaderTexture "mug" ;;
  SetShaderMaterial indeterminate "ceramic" ;;
  DrawTorusMesh ;;
  (* Mug Cylinder *)
  SetTransformations (mkvec3 1 1.8 1) 180 0 0 (mkvec3 4 3.6 (-1)) ;;
  SetShaderTexture "mug" ;;
  SetShaderMaterial indeterminate "ceramic" ;;
  DrawCylinderMesh ;;
  (* Blue Book Box *)
  SetTransformations (mkvec3 6 0.275 3.75) 0 90 0 (mkvec3 0 1.1 1) ;;
  SetShaderTexture "bluePlastic" ;;
  SetShaderMaterial indeterminate "dullPlastic" ;;
  DrawBoxMesh ;;
  (* Bottom Brown Book Box *)
  SetTransformations (mkvec3 6.4 0.6 3.75) 0 0 0 (mkvec3 (-2) 1.2 (-4.4)) ;;
  SetShaderTexture "brownBook" ;;
  SetShaderMaterial indeterminate "paper" ;;
  DrawBoxMesh ;;
  (* Middle Black Book Box *)
  SetTransformations (mkvec3 5.7 0.5 3.25) 0 (-10) 0 (mkvec3 (-2.2) 1.7 (-4.4)) ;;
  SetShaderTexture "blackBook" ;;
  SetShaderMaterial indeterminate "paper" ;;
  DrawBoxMesh ;;
  (* Bottom Black Book Box *)
  SetTransformations (mkvec3 5.7 0.5 3.25) 0 20 0 (mkvec3 (-2.2) 2.2 (-4.4)) ;;
  SetShaderTexture "blackBook" ;;
  SetShaderMaterial indeterminate "paper" ;;
  DrawBoxMesh ;;
  (* Trail Mix Container Box *)
  SetTransformations (mkvec3 2 2.7 2) 0 0 0 (mkvec3 (-4) 2 (-0.5)) ;;
  SetShaderTexture "redPaper" ;;
  SetShaderMaterial indeterminate "paper" ;;
  DrawBoxMesh ;;
  (* Trail Mix Lid Cylinder *)
  SetTransformations (mkvec3 1.09 0.4 1.09) 0 0 0 (mkvec3 (-4) 3.35 (-0.5)) ;;
  SetShaderTexture "blackPlastic" ;;
  SetShaderMaterial indeterminate "plastic" ;;
  DrawCylinderMesh ;;
  (* Main Pen Cylinder *)
  SetTransformations (mkvec3 0.05 2 0.05) 90 0 64 (mkvec3 0.9 1.33 1) ;;
  SetShaderTexture "blackPlastic" ;;
  SetShaderMaterial indeterminate "plastic" ;;
  DrawCylinderMesh ;;
  (* Pen Tip Cone *)
  SetTransformations (mkvec3 0.05 0.12 0.05) 90 0 64 (mkvec3 (-0.9) 1.33 1.877) ;;
  SetShaderTexture "blackPlastic" ;;
  SetShaderMaterial indeterminate "plastic" ;;
  DrawConeMesh ;;
  (* Pen Top Tapered Cylinder *)
  SetTransformations (mkvec3 0.05 0.09 0.05) 90 0 244 (mkvec3 0.90 1.33 1) ;;
  SetShaderTexture "blackPlastic" ;;
  SetShaderMaterial indeterminate "plastic" ;;
  DrawTaperedCylinderMesh ;;
  (* Back Left Window Plane *)
  SetTransformations (mkvec3 6 1 9) 90 0 0 (mkvec3 (-20) 6 (-17)) ;;
  SetShaderTexture "whitePlastic" ;;
  SetShaderMaterial indeterminate "plastic" ;;
  DrawPlaneMesh ;;
  (* Back Right Window Plane *)
  SetTransformations (mkvec3 6 1 9) 90 0 0 (mkvec3 20 6 (-17)) ;;
  DrawPlaneMesh.

(** *** The scene as a list of placements

    [RenderScene] is straight-line code; the placements it draws, in
    order, with the texture and material tag each one names (if any). *)
Record Placement := mkPlacement {
  p_scale : vec3;
  p_Xrotation : R;
  p_Yrotation : R;
  p_Zrotation : R;
  p_position : vec3;
  p_mesh : MeshKind;
  p_texture : option string;
  p_material : option string
}.

Definition scene_placements : list Placement :=
  [ mkPlacement (mkvec3 10 1 9) 0 0 0 (mkvec3 0 1 0) Plane (Some "table") (Some "marble");
    mkPlacement (mkvec3 1 0.8 1) 180 0 0 (mkvec3 4 1.8 (-1)) TaperedCylinder (Some "mug") (Some "ceramic");
    mkPlacement (mkvec3 0.6 0.7 1) 180 0 0 (mkvec3 5 2.4 (-1)) Torus (Some "mug") (Some "ceramic");
    mkPlacement (mkvec3 1 1.8 1) 180 0 0 (mkvec3 4 3.6 (-1)) Cylinder (Some "mug") (Some "ceramic");
    mkPlacement (mkvec3 6 0.275 3.75) 0 90 0 (mkvec3 0 1.1 1) Box (Some "bluePlastic") (Some "dullPlastic");
    mkPlacement (mkvec3 6.4 0.6 3.75) 0 0 0 (mkvec3 (-2) 1.2 (-4.4)) Box (Some "brownBook") (Some "paper");
    mkPlacement (mkvec3 5.7 0.5 3.25) 0 (-10) 0 (mkvec3 (-2.2) 1.7 (-4.4)) Box (Some "blackBook") (Some "paper");
    mkPlacement (mkvec3 5.7 0.5 3.25) 0 20 0 (mkvec3 (-2.2) 2.2 (-4.4)) Box (Some "blackBook") (Some "paper");
    mkPlacement (mkvec3 2 2.7 2) 0 0 0 (mkvec3 (-4) 2 (-0.5)) Box (Some "redPaper") (Some "paper");
    mkPlacement (mkvec3 1.09 0.4 1.09) 0 0 0 (mkvec3 (-4) 3.35 (-0.5)) Cylinder (Some "blackPlastic") (Some "plastic");
    mkPlacement (mkvec3 0.05 2 0.05) 90 0 64 (mkvec3 0.9 1.33 1) Cylinder (Some "blackPlastic") (Some "plastic");
    mkPlacement (mkvec3 0.05 0.12 0.05) 90 0 64 (mkvec3 (-0.9) 1.33 1.877) Cone (Some "blackPlastic") (Some "plastic");
    mkPlacement (mkvec3 0.05 0.09 0.05) 90 0 244 (mkvec3 0.90 1.33 1) TaperedCylinder (Some "blackPlastic") (Some "plastic");
    mkPlacement (mkvec3 6 1 9) 90 0 0 (mkvec3 (-20) 6 (-17)) Plane (Some "whitePlastic") (Some "plastic");
    mkPlacement (mkvec3 6 1 9) 90 0 0 (mkvec3 20 6 (-17)) Plane None None ].

(** *** Reading a log *)

Definition draws (evs : list event) : list MeshKind :=
  flat_map (fun e => match e with DrawMesh k => [k] | _ => [] end) evs.

Definition loads (evs : list event) : list MeshKind :=
  flat_map (fun e => match e with LoadMesh k => [k] | _ => [] end) evs.

Definition uniform_name (e : event) : option string :=
  match e with
  | setMat4Value n _ | setVec4Value n _ | setVec3Value n _ | setVec2Value n _
  | setFloatValue n _ | setIntValue n _ | setBoolValue n _
  | setSampler2DValue n _ => Some n
  | _ => None
  end.

(** The uniform names published, in order. *)
Definition published (evs : list event) : list string :=
  flat_map (fun e => match uniform_name e with Some n => [n] | None => [] end) evs.

(** The index character of a uniform [lightSources[i].field]. *)
Definition light_of (name : string) : option Ascii.ascii :=
  if String.prefix "lightSources[" name then String.get 13 name else None.

Definition lights (evs : list event) : list Ascii.ascii :=
  nodup Ascii.ascii_dec
    (flat_map (fun n => match light_of n with Some c => [c] | None => [] end)
              (published evs)).

(** The log of a frame cut after every draw call: one segment per
    drawn object. *)
Fixpoint objects (acc evs : list event) : list (list event) :=
  match evs with
  | [] => []
  | DrawMesh k :: rest => (acc ++ [DrawMesh k])%list :: objects [] rest
  | e :: rest => objects (acc ++ [e])%list rest
  end.

(** The per-object sequence with every step present: model matrix,
    use-texture flag, texture slot, five material uniforms, UV scale,
    draw. *)
Definition full_sequence (segment : list event) : bool :=
  match segment with
  | [ setMat4Value n0 _; setIntValue n1 1%Z; setSampler2DValue n2 _;
      setVec3Value n3 _; setFloatValue n4 _; setVec3Value n5 _;
      setVec3Value n6 _; setFloatValue n7 _; setVec2Value n8 _; DrawMesh _ ] =>
      String.eqb n0 g_ModelName && String.eqb n1 g_UseTextureName
      && String.eqb n2 g_TextureValueName
      && String.eqb n3 "material.ambientColor"
      && String.eqb n4 "material.ambientStrength"
      && String.eqb n5 "material.diffuseColor"
      && String.eqb n6 "material.specularColor"
      && String.eqb n7 "material.shininess"
      && String.eqb n8 "UVscale"
  | _ => false
  end.

(** A decoder under which every image is a 64 x 64 RGB image, and a
    material of zeros for the uninitialised local. *)
Definition all_rgb (filename : string) : option (Z * Z * Z) := Some (64, 64, 3)%Z.
Definition zero_material : OBJECT_MATERIAL :=
  mkOBJECT_MATERIAL (mkvec3 0 0 0) 0 (mkvec3 0 0 0) (mkvec3 0 0 0) 0 "".

(** *** Reading the state *)

(** The loaded-texture count does not exceed the size of the table. *)
Definition table_ok (s : State) : Prop :=
  (m_loadedTextures s <= Z.of_nat (List.length (m_textureIDs s)))%Z.

(** [tg] is the tag of one of the loaded entries. *)
Definition registered (s : State) (tg : string) : Prop :=
  exists i t,
    (Z.of_nat i < m_loadedTextures s)%Z
    /\ nth_error (m_textureIDs s) i = Some t
    /\ tag t = tg.

(** The slot [FindTextureSlot] resolves a tag to. *)
Definition slot_of (s : State) (tg : string) : Z :=
  match FindTextureSlot s tg with
  | Some slot => slot
  | None => (-1)%Z
  end.

(** The material a tag resolves to: the first one in the list that
    carries it. *)
Definition resolve_material (s : State) (tg : string) : option OBJECT_MATERIAL :=
  find (fun m => String.eqb (material_tag m) tg) (m_objectMaterials s).

(** What [RenderScene] sends for one placement, in a state whose shader
    manager is present. *)
Definition texture_log (s : State) (t : option string) : list event :=
  match t with
  | Some tg => [ setIntValue g_UseTextureName 1%Z;
                 setSampler2DValue g_TextureValueName (slot_of s tg) ]
  | None => []
  end.

Definition material_log (s : State) (indeterminate : OBJECT_MATERIAL)
           (m : option string) : list event :=
  match m with
  | Some tg =>
      if Nat.ltb 0 (List.length (m_objectMaterials s))
      then material_uniforms (snd (FindMaterial s tg indeterminate))
      else []
  | None => []
  end.

Definition placement_log (s : State) (indeterminate : OBJECT_MATERIAL)
           (p : Placement) : list event :=
  (setMat4Value g_ModelName
     (modelView (p_scale p) (p_Xrotation p) (p_Yrotation p) (p_Zrotation p)
                (p_position p))
   :: texture_log s (p_texture p)
   ++ material_log s indeterminate (p_material p)
   ++ [DrawMesh (p_mesh p)])%list.

(** Logs without mesh calls and without uniforms. *)
Definition quiet (evs : list event) : Prop :=
  loads evs = [] /\ draws evs = [] /\ published evs = [].

(** The image files [LoadSceneTextures] reads. *)
Definition texture_files : list string :=
  [ "ceramicTexture.jpg"; "stoneTexture.jpg"; "blackPlasticTexture.jpg";
    "whitePlasticTexture.jpg"; "bluePlasticTexture.jpg"; "redPaperTexture.jpg";
    "blackBookTexture.jpg"; "brownBookTexture.jpg" ].

(** The decoder reads the file as an RGB or RGBA image. *)
Definition decodable (stbi_load : string -> option (Z * Z * Z)) (filename : string)
  : Prop :=
  exists width height channels,
    stbi_load filename = Some (width, height, channels)
    /\ (channels = 3 \/ channels = 4)%Z.

(** The materials after [DefineObjectMaterials] on an empty list. *)
Definition defined_materials : list OBJECT_MATERIAL :=
  [ ceramicMaterial; marbleMaterial; paperMaterial; plasticMaterial;
    dullPlasticMaterial; glassMaterial ].

(** *** The loaded part of the texture table *)

(** The entries below [m_loadedTextures], and their tags. *)
Definition loaded_entries (s : State) : list TEXTURE_INFO :=
  firstn (Z.to_nat (m_loadedTextures s)) (m_textureIDs s).

Definition loaded_tags (s : State) : list string := map tag (loaded_entries s).

(** The position of the first occurrence of [tg], counted from [index];
    -1 when there is none. *)
Fixpoint index_of (tags : list string) (tg : string) (index : Z) : Z :=
  match tags with
  | [] => (-1)%Z
  | t :: rest => if String.eqb t tg then index else index_of rest tg (index + 1)%Z
  end.

(** Texture unit [index] onwards bound to the names of [entries]. *)
Fixpoint bind_log (index : Z) (entries : list TEXTURE_INFO) : list event :=
  match entries with
  | [] => []
  | t :: rest =>
      glActiveTexture index :: glBindTexture (ID t) :: bind_log (index + 1)%Z rest
  end.

(** [n] texture names generated from [name] on. *)
Fixpoint names_from (name : Z) (n : nat) : list event :=
  match n with
  | O => []
  | S n' => glGenTextures name :: names_from (name + 1)%Z n'
  end.

(** The decoder reads the file as an RGB or RGBA image, as a test. *)
Definition decodes (stbi_load : string -> option (Z * Z * Z)) (filename : string)
  : bool :=
  match stbi_load filename with
  | Some (_, _, channels) => (Z.eqb channels 3 || Z.eqb channels 4)%bool
  | None => false
  end.

(** The files [LoadSceneTextures] reads with the tags it gives them. *)
Definition scene_textures : list (string * string) :=
  [ ("ceramicTexture.jpg", "mug"); ("stoneTexture.jpg", "table");
    ("blackPlasticTexture.jpg", "blackPlastic");
    ("whitePlasticTexture.jpg", "whitePlastic");
    ("bluePlasticTexture.jpg", "bluePlastic");
    ("redPaperTexture.jpg", "redPaper");
    ("blackBookTexture.jpg", "blackBook");
    ("brownBookTexture.jpg", "brownBook") ].

(** The texture-slot uniforms of a log. *)
Definition samplers (evs : list event) : list Z :=
  flat_map (fun e => match e with setSampler2DValue _ v => [v] | _ => [] end) evs.


End SceneManager.

(** ** ViewManager.cpp: the per-frame update *)

Module ViewFrame.

Import ViewManager.

(** [glm::ortho] and [glm::perspective] (right-handed, depth -1 to 1). *)
Definition ortho (left right bottom top zNear zFar : R) : mat4 :=
  mkmat4 (mkvec4 (2 / (right - left)) 0 0 0)
         (mkvec4 0 (2 / (top - bottom)) 0 0)
         (mkvec4 0 0 (- (2 / (zFar - zNear))) 0)
         (mkvec4 (- ((right + left) / (right - left)))
                 (- ((top + bottom) / (top - bottom)))
                 (- ((zFar + zNear) / (zFar - zNear)))
                 1).

Definition perspective (fovy aspect zNear zFar : R) : mat4 :=
  let tanHalfFovy := tan (fovy / 2) in
  mkmat4 (mkvec4 (1 / (aspect * tanHalfFovy)) 0 0 0)
         (mkvec4 0 (1 / tanHalfFovy) 0 0)
         (mkvec4 0 0 (- ((zFar + zNear) / (zFar - zNear))) (-1))
         (mkvec4 0 0 (- ((2 * zFar * zNear) / (zFar - zNear))) 0).

Definition g_ViewName : string := "view".
Definition g_ProjectionName : string := "projection".

Definition set_frame_time (delta last : R) (s : State) : State :=
  mkState (g_pCamera s) (gLastX s) (gLastY s) (gFirstMouse s) (yaw s) (pitch s)
          (fov s) delta last (bOrthographicProjection s)
          (cursorDisabled s) (windowShouldClose s).

(** The projection matrix [PrepareSceneView] selects. *)
Definition projection_of (orthographic : bool) (cam : Camera) : mat4 :=
  if orthographic
  then let orthoSize := 10 in
       ortho (- orthoSize) orthoSize (- orthoSize) orthoSize 0.1 100
  else perspective (radians (Zoom cam)) (WINDOW_WIDTH / WINDOW_HEIGHT) 0.1 100.

(** [ViewManager::PrepareSceneView].  [GetViewMatrix] is the camera's
    method of that name, declared in camera.h, which is not among the
    sources; [pShaderManager] tells whether [m_pShaderManager] is set,
    [currentFrame] is the local [float] of that name (the reading of
    [glfwGetTime], converted once) and [pressed] the key state polled in
    this frame.  The result is the state afterwards and the uniforms
    published. *)
Definition PrepareSceneView (GetViewMatrix : Camera -> mat4)
           (pShaderManager : bool) (currentFrame : R) (pressed : Key -> bool)
           (s : State) : option (State * list SceneManager.event) :=
  let s := set_frame_time (currentFrame - gLastFrame s) currentFrame s in
  let s := ProcessKeyboardEvents pressed s in
  match g_pCamera s with
  | None => None
  | Some cam =>
      let view := GetViewMatrix cam in
      let projection := projection_of (bOrthographicProjection s) cam in
      Some (s,
            if pShaderManager
            then [ SceneManager.setMat4Value g_ViewName view;
                   SceneManager.setMat4Value g_ProjectionName projection;
                   SceneManager.setVec3Value "viewPosition" (Position cam) ]
            else [])
  end.

End ViewFrame.

(** * Properties *)

(** ** GLM facts *)

Section GlmFacts.

Lemma vec3_eq (a b c a' b' c' : R) :
  a = a' -> b = b' -> c = c' -> mkvec3 a b c = mkvec3 a' b' c'.
Proof. intros; subst; reflexivity. Qed.

Lemma vec4_eq (a b c d a' b' c' d' : R) :
  a = a' -> b = b' -> c = c' -> d = d' -> mkvec4 a b c d = mkvec4 a' b' c' d'.
Proof. intros; subst; reflexivity. Qed.

Lemma mat4_eq (a b c d a' b' c' d' : vec4) :
  a = a' -> b = b' -> c = c' -> d = d' -> mkmat4 a b c d = mkmat4 a' b' c' d'.
Proof. intros; subst; reflexivity. Qed.

(** Applying a product is applying the factors right to left. *)
Lemma mulv_mulm (a b : mat4) (v : vec4) :
  mulv (mulm a b) v = mulv a (mulv b v).
Proof.
  destruct a as [[] [] [] []], b as [[] [] [] []], v.
  unfold mulm, mulv, add4, smul4.
  cbn [x4 y4 z4 w4 col0 col1 col2 col3].
  apply vec4_eq; ring.
Qed.

Lemma inversesqrt_1 : inversesqrt 1 = 1.
Proof. unfold inversesqrt. rewrite sqrt_1. field. Qed.

Lemma normalize_unit (v : vec3) : dot3 v v = 1 -> normalize v = v.
Proof.
  intros H. unfold normalize. rewrite H, inversesqrt_1.
  destruct v; unfold muls3; cbn [x3 y3 z3]. apply vec3_eq; ring.
Qed.

Lemma rotate_X (a : R) :
  rotate a (mkvec3 1 0 0) =
  mkmat4 (mkvec4 1 0 0 0) (mkvec4 0 (cos a) (sin a) 0)
         (mkvec4 0 (- sin a) (cos a) 0) (mkvec4 0 0 0 1).
Proof.
  unfold rotate, rotate_m. rewrite normalize_unit by (unfold dot3; cbn [x3 y3 z3]; ring).
  unfold identity, add4, smul4, smul3.
  cbn [x4 y4 z4 w4 x3 y3 z3 col0 col1 col2 col3].
  apply mat4_eq; try reflexivity; apply vec4_eq; ring.
Qed.

Lemma rotate_Y (a : R) :
  rotate a (mkvec3 0 1 0) =
  mkmat4 (mkvec4 (cos a) 0 (- sin a) 0) (mkvec4 0 1 0 0)
         (mkvec4 (sin a) 0 (cos a) 0) (mkvec4 0 0 0 1).
Proof.
  unfold rotate, rotate_m. rewrite normalize_unit by (unfold dot3; cbn [x3 y3 z3]; ring).
  unfold identity, add4, smul4, smul3.
  cbn [x4 y4 z4 w4 x3 y3 z3 col0 col1 col2 col3].
  apply mat4_eq; try reflexivity; apply vec4_eq; ring.
Qed.

Lemma rotate_Z (a : R) :
  rotate a (mkvec3 0 0 1) =
  mkmat4 (mkvec4 (cos a) (sin a) 0 0) (mkvec4 (- sin a) (cos a) 0 0)
         (mkvec4 0 0 1 0) (mkvec4 0 0 0 1).
Proof.
  unfold rotate, rotate_m. rewrite normalize_unit by (unfold dot3; cbn [x3 y3 z3]; ring).
  unfold identity, add4, smul4, smul3.
  cbn [x4 y4 z4 w4 x3 y3 z3 col0 col1 col2 col3].
  apply mat4_eq; try reflexivity; apply vec4_eq; ring.
Qed.

Lemma scale_point (v : vec3) (p : vec4) :
  mulv (scale v) p = mkvec4 (x3 v * x4 p) (y3 v * y4 p) (z3 v * z4 p) (w4 p).
Proof.
  destruct v, p. unfold scale, scale_m, identity, mulv, add4, smul4.
  cbn [x4 y4 z4 w4 x3 y3 z3 col0 col1 col2 col3].
  apply vec4_eq; ring.
Qed.

Lemma translate_point (t : vec3) (p : vec4) :
  mulv (translate t) p =
  mkvec4 (x4 p + x3 t * w4 p) (y4 p + y3 t * w4 p) (z4 p + z3 t * w4 p) (w4 p).
Proof.
  destruct t, p. unfold translate, translate_m, identity, mulv, add4, smul4.
  cbn [x4 y4 z4 w4 x3 y3 z3 col0 col1 col2 col3].
  apply vec4_eq; ring.
Qed.

Lemma rotate_X_point (a : R) (p : vec4) :
  mulv (rotate a (mkvec3 1 0 0)) p =
  mkvec4 (x4 p) (cos a * y4 p - sin a * z4 p) (sin a * y4 p + cos a * z4 p) (w4 p).
Proof.
  rewrite rotate_X. destruct p. unfold mulv, add4, smul4.
  cbn [x4 y4 z4 w4 col0 col1 col2 col3]. apply vec4_eq; ring.
Qed.

Lemma rotate_Y_point (a : R) (p : vec4) :
  mulv (rotate a (mkvec3 0 1 0)) p =
  mkvec4 (cos a * x4 p + sin a * z4 p) (y4 p) (cos a * z4 p - sin a * x4 p) (w4 p).
Proof.
  rewrite rotate_Y. destruct p. unfold mulv, add4, smul4.
  cbn [x4 y4 z4 w4 col0 col1 col2 col3]. apply vec4_eq; ring.
Qed.

Lemma rotate_Z_point (a : R) (p : vec4) :
  mulv (rotate a (mkvec3 0 0 1)) p =
  mkvec4 (cos a * x4 p - sin a * y4 p) (sin a * x4 p + cos a * y4 p) (z4 p) (w4 p).
Proof.
  rewrite rotate_Z. destruct p. unfold mulv, add4, smul4.
  cbn [x4 y4 z4 w4 col0 col1 col2 col3]. apply vec4_eq; ring.
Qed.

Lemma radians_0 : radians 0 = 0.
Proof. unfold radians. ring. Qed.

Lemma radians_90 : radians 90 = PI / 2.
Proof. unfold radians. field. Qed.

(** The direction built from yaw and pitch has length 1. *)
Lemma direction_unit (yw p : R) :
  dot3 (ViewManager.direction yw p) (ViewManager.direction yw p) = 1.
Proof.
  unfold ViewManager.direction, dot3; cbn [x3 y3 z3].
  pose proof (sin2_cos2 (radians yw)) as Hy.
  pose proof (sin2_cos2 (radians p)) as Hp.
  unfold Rsqr in Hy, Hp.
  replace (cos (radians yw) * cos (radians p) * (cos (radians yw) * cos (radians p)) +
           sin (radians p) * sin (radians p) +
           sin (radians yw) * cos (radians p) * (sin (radians yw) * cos (radians p)))
    with ((sin (radians yw) * sin (radians yw) + cos (radians yw) * cos (radians yw))
          * (cos (radians p) * cos (radians p)) + sin (radians p) * sin (radians p))
    by ring.
  rewrite Hy. lra.
Qed.

End GlmFacts.

(** ** View controller *)

Section ViewManagerFacts.

Import ViewManager.

(** *** The conversion of a cursor position to [float] *)

Lemma Int_part_floor (r : R) (z : Z) :
  IZR z <= r < IZR z + 1 -> Int_part r = z.
Proof. intros H. symmetry. apply Int_part_spec. lra. Qed.

Lemma nearest_even_near (r : R) (z : Z) :
  IZR z - 1 / 2 < r < IZR z + 1 / 2 -> nearest_even r = z.
Proof.
  intros H. unfold nearest_even.
  destruct (Rle_dec (IZR z) r) as [Hle | Hgt].
  - rewrite (Int_part_floor r z) by lra.
    destruct (Rlt_dec (r - IZR z) (1 / 2)); [reflexivity | lra].
  - rewrite (Int_part_floor r (z - 1)) by (rewrite minus_IZR; lra).
    rewrite minus_IZR.
    destruct (Rlt_dec (r - (IZR z - 1)) (1 / 2)); [lra|].
    destruct (Rlt_dec (1 / 2) (r - (IZR z - 1))); [f_equal; lia | lra].
Qed.

Lemma nearest_even_IZR (z : Z) : nearest_even (IZR z) = z.
Proof. apply nearest_even_near. lra. Qed.


Lemma ln_2_pos : 0 < ln 2.
Proof. pose proof ln_lt_2. lra. Qed.

Lemma ln_powerRZ_2 (e : Z) : ln (powerRZ 2 e) = IZR e * ln 2.
Proof. rewrite powerRZ_Rpower by lra. apply ln_Rpower. Qed.

Lemma log2_floor (x : R) (e : Z) :
  powerRZ 2 e <= Rabs x < powerRZ 2 (e + 1) ->
  Int_part (ln (Rabs x) / ln 2) = e.
Proof.
  intros (Hlo & Hhi).
  pose proof ln_2_pos as H2.
  pose proof (powerRZ_lt 2 e ltac:(lra)) as Hpos.
  assert (Hx : 0 < Rabs x) by lra.
  assert (Hl : IZR e * ln 2 <= ln (Rabs x)).
  { rewrite <- ln_powerRZ_2. destruct Hlo as [Hlt | ->]; [| lra].
    left. apply ln_increasing; assumption. }
  assert (Hh : ln (Rabs x) < (IZR e + 1) * ln 2).
  { rewrite <- plus_IZR, <- ln_powerRZ_2. apply ln_increasing; assumption. }
  apply Int_part_floor. split.
  - apply Rmult_le_reg_r with (ln 2); [exact H2|].
    unfold Rdiv. rewrite Rmult_assoc, Rinv_l by lra. lra.
  - apply Rmult_lt_reg_r with (ln 2); [exact H2|].
    unfold Rdiv. rewrite Rmult_assoc, Rinv_l by lra. lra.
Qed.

Lemma float_exponent_normal (x : R) (e : Z) :
  powerRZ 2 e <= Rabs x < powerRZ 2 (e + 1) ->
  (-126 <= e)%Z ->
  float_exponent x = e.
Proof.
  intros Hx He. unfold float_exponent. rewrite (log2_floor x e Hx). lia.
Qed.

Lemma float_of_double_near (x : R) (e m : Z) :
  float_exponent x = e ->
  IZR m - 1 / 2 < x / powerRZ 2 (e - 23) < IZR m + 1 / 2 ->
  float_of_double x = IZR m * powerRZ 2 (e - 23).
Proof.
  intros He Hm. unfold float_of_double. rewrite He.
  rewrite (nearest_even_near _ m Hm). reflexivity.
Qed.








(** One tenth is not a [float]: its conversion is 13421773 / 2^27. *)
Lemma float_of_double_tenth :
  float_of_double 0.1 = 13421773 / 134217728.
Proof.
  assert (He : float_exponent 0.1 = (-4)%Z).
  { apply float_exponent_normal; [| lia].
    rewrite Rabs_pos_eq by lra. simpl. lra. }
  rewrite (float_of_double_near 0.1 (-4) 13421773 He).
  - simpl. lra.
  - simpl. lra.
Qed.

Lemma clamp_in_range (p : R) :
  -89 <= (if Rlt_dec (if Rlt_dec 89 p then 89 else p) (-89) then -89
          else (if Rlt_dec 89 p then 89 else p)) <= 89.
Proof. repeat destruct Rlt_dec; lra. Qed.


Lemma speed_in_range (v : R) :
  0.1 <= (if Rlt_dec 1 (if Rlt_dec v 0.1 then 0.1 else v) then 1
          else (if Rlt_dec v 0.1 then 0.1 else v)) <= 1.
Proof. repeat destruct Rlt_dec; lra. Qed.

(** What a cursor callback leaves behind, whatever the first-mouse flag. *)
Lemma Mouse_Position_Callback_result (x y : R) (s : State) (cam : Camera) :
  g_pCamera s = Some cam ->
  exists s' yw p,
    Mouse_Position_Callback x y s = Some s'
    /\ yaw s' = yw /\ pitch s' = p /\ -89 <= p <= 89
    /\ gLastX s' = float_of_double x /\ gLastY s' = float_of_double y
    /\ gFirstMouse s' = false
    /\ bOrthographicProjection s' = bOrthographicProjection s
    /\ g_pCamera s' = Some (set_Front (normalize (direction yw p)) cam).
Proof.
  intros Hcam. unfold Mouse_Position_Callback.
  destruct (gFirstMouse s) eqn:Hfirst; simpl; rewrite Hcam;
    eexists; eexists; eexists;
    (split; [reflexivity|]); simpl; rewrite ?Hfirst;
    (repeat split; try reflexivity; apply clamp_in_range).
Qed.

(** The keyboard step touches neither pitch nor the movement speed, and
    keeps the camera allocated. *)
Lemma ProcessKeyboardEvents_keeps (pressed : Key -> bool) (s : State) (cam : Camera) :
  g_pCamera s = Some cam ->
  exists cam',
    g_pCamera (ProcessKeyboardEvents pressed s) = Some cam'
    /\ MovementSpeed cam' = MovementSpeed cam
    /\ Front cam' = Front cam
    /\ pitch (ProcessKeyboardEvents pressed s) = pitch s.
Proof.
  intros Hcam. unfold ProcessKeyboardEvents.
  destruct (pressed KEY_ESCAPE); simpl; rewrite Hcam;
    destruct (pressed KEY_W), (pressed KEY_S), (pressed KEY_A), (pressed KEY_D),
             (pressed KEY_Q), (pressed KEY_E), (pressed KEY_P), (pressed KEY_O);
    unfold on_camera; simpl; rewrite ?Hcam; simpl;
    eexists; repeat split; reflexivity.
Qed.

Lemma view_invariant_constructed : view_invariant (ViewManager globals).
Proof.
  unfold view_invariant, ViewManager; simpl.
  eexists; split; [reflexivity|]; simpl. lra.
Qed.

Lemma step_invariant (i : input) (s : State) :
  view_invariant s -> exists s', step i s = Some s' /\ view_invariant s'.
Proof.
  intros (cam & Hcam & Hv & Hp). destruct i as [x y | xo yo | pressed]; simpl.
  - destruct (Mouse_Position_Callback_result x y s cam Hcam)
      as (s' & yw & p & Hrun & _ & Hp' & Hr & _ & _ & _ & _ & Hc').
    exists s'. split; [exact Hrun|]. eexists; split; [exact Hc'|].
    simpl. rewrite Hp'. split; assumption.
  - unfold scrollCallback. rewrite Hcam. eexists; split; [reflexivity|].
    eexists; split; [reflexivity|]. simpl. split; [apply speed_in_range | exact Hp].
  - destruct (ProcessKeyboardEvents_keeps pressed s cam Hcam)
      as (cam' & Hc' & Hv' & _ & Hp').
    eexists; split; [reflexivity|]. exists cam'. rewrite Hv', Hp'. auto.
Qed.

Lemma run_invariant (inputs : list input) :
  forall s, view_invariant s ->
            exists s', run inputs s = Some s' /\ view_invariant s'.
Proof.
  induction inputs as [| i rest IH]; intros s Hs; simpl.
  - exists s; auto.
  - destruct (step_invariant i s Hs) as (s1 & -> & H1). apply IH, H1.
Qed.

(** C7. Starting from the constructed view controller, after every finite
    sequence of cursor, scroll and keyboard inputs (in particular after
    every sequence of cursor inputs alone, or of scroll inputs alone) the
    run is defined, the pitch lies in [-89, 89] and the camera's movement
    speed lies in [0.1, 1.0]. *)
Theorem pitch_and_speed_clamped (inputs : list input) :
  exists s cam,
    run inputs (ViewManager globals) = Some s
    /\ g_pCamera s = Some cam
    /\ -89 <= pitch s <= 89
    /\ 0.1 <= MovementSpeed cam <= 1.
Proof.
  destruct (run_invariant inputs _ view_invariant_constructed)
    as (s & Hrun & cam & Hcam & Hv & Hp).
  exists s, cam. auto.
Qed.


(** The first cursor callback: what it stores, and the offsets it
    computes from the position and its conversion to [float]. *)
Lemma Mouse_Position_Callback_first (x y : R) (s : State) (cam : Camera) :
  gFirstMouse s = true ->
  g_pCamera s = Some cam ->
  exists s',
    Mouse_Position_Callback x y s = Some s'
    /\ gLastX s' = float_of_double x /\ gLastY s' = float_of_double y
    /\ gFirstMouse s' = false
    /\ yaw s' = yaw s + (x - float_of_double x) * 0.1
    /\ pitch s'
       = (let p := pitch s + (float_of_double y - y) * 0.1 in
          let p := if Rlt_dec 89 p then 89 else p in
          if Rlt_dec p (-89) then -89 else p)
    /\ g_pCamera s'
       = Some (set_Front (normalize (direction (yaw s') (pitch s'))) cam).
Proof.
  intros Hfirst Hcam. unfold Mouse_Position_Callback.
  rewrite Hfirst; simpl. rewrite Hcam.
  eexists; split; [reflexivity|]; simpl.
  repeat (split; [reflexivity|]). reflexivity.
Qed.



(** On the constructed view controller a first cursor position of
    (500, 0.1) does move the pitch: 0.1 is not a [float], and the pitch
    becomes a tenth of the error of converting it. *)
Lemma first_callback_inexact_position :
  exists s',
    Mouse_Position_Callback 500 0.1 (ViewManager globals) = Some s'
    /\ gLastY s' = 13421773 / 134217728
    /\ pitch s' = (13421773 / 134217728 - 0.1) * 0.1
    /\ pitch s' <> pitch (ViewManager globals).
Proof.
  destruct (Mouse_Position_Callback_first 500 0.1 (ViewManager globals)
              default_camera eq_refl eq_refl)
    as (s' & Hrun & _ & Hy & _ & _ & Hpitch & _).
  rewrite float_of_double_tenth in Hy, Hpitch.
  exists s'. split; [exact Hrun|]. split; [exact Hy|].
  cbn [pitch ViewManager set_camera globals] in *. cbv zeta in Hpitch.
  assert (E : pitch s' = (13421773 / 134217728 - 0.1) * 0.1).
  { rewrite Hpitch. repeat destruct Rlt_dec; lra. }
  split; [exact E|]. rewrite E. lra.
Qed.

(** C5, as stated, fails: the constructor stores the front direction
    (0, -0.5, -2), whose squared length is 4.25, and not 1. *)
Lemma constructed_front_not_unit :
  exists front,
    front_of (ViewManager globals) = Some front /\ length2 front <> 1.
Proof.
  eexists; split; [reflexivity|]. unfold length2, dot3; simpl. lra.
Qed.

(** C5, amended.  After every cursor callback on an allocated camera the
    front direction is a unit vector (squared length 1). *)
Theorem front_unit_after_callback (x y : R) (s : State) (cam : Camera) :
  g_pCamera s = Some cam ->
  exists s' front,
    Mouse_Position_Callback x y s = Some s'
    /\ front_of s' = Some front
    /\ length2 front = 1.
Proof.
  intros Hcam.
  destruct (Mouse_Position_Callback_result x y s cam Hcam)
    as (s' & yw & p & Hrun & _ & _ & _ & _ & _ & _ & _ & Hc').
  exists s', (normalize (direction yw p)). split; [exact Hrun|].
  unfold front_of. rewrite Hc'. split; [reflexivity|].
  rewrite (normalize_unit _ (direction_unit yw p)).
  apply direction_unit.
Qed.

Lemma front_unit_after_callback_witness :
  exists s' front,
    Mouse_Position_Callback 500 400 (ViewManager globals) = Some s'
    /\ front_of s' = Some front
    /\ length2 front = 1.
Proof.
  apply (front_unit_after_callback 500 400 (ViewManager globals) default_camera).
  reflexivity.
Defined.

(** C10. With an allocated camera, when both P and O are pressed during
    one [ProcessKeyboardEvents] call the projection mode afterwards is
    orthographic, whatever it was before and whatever else is pressed. *)
Theorem orthographic_wins (pressed : Key -> bool) (s : State) (cam : Camera) :
  g_pCamera s = Some cam ->
  pressed KEY_P = true ->
  pressed KEY_O = true ->
  bOrthographicProjection (ProcessKeyboardEvents pressed s) = true.
Proof.
  intros Hcam HP HO. unfold ProcessKeyboardEvents. rewrite HP, HO.
  destruct (pressed KEY_ESCAPE); simpl; rewrite Hcam; reflexivity.
Qed.

Lemma orthographic_wins_witness :
  bOrthographicProjection
    (ProcessKeyboardEvents (fun _ => true) (ViewManager globals)) = true.
Proof.
  apply (orthographic_wins (fun _ => true) (ViewManager globals) default_camera);
    reflexivity.
Defined.

(** P alone selects the perspective projection, O alone the orthographic
    one, and with no camera the keys are ignored but for Escape. *)
Example projection_keys :
  bOrthographicProjection
    (ProcessKeyboardEvents (fun k => match k with KEY_P => true | _ => false end)
                           (set_orthographic true (ViewManager globals))) = false
  /\ bOrthographicProjection
       (ProcessKeyboardEvents (fun k => match k with KEY_O => true | _ => false end)
                              (ViewManager globals)) = true
  /\ bOrthographicProjection (ProcessKeyboardEvents (fun _ => true) globals) = false
  /\ windowShouldClose (ProcessKeyboardEvents (fun _ => true) globals) = true.
Proof. repeat split; reflexivity. Qed.

End ViewManagerFacts.

(** ** Scene composer *)

Section SceneManagerFacts.

Import SceneManager.
Local Open Scope Z_scope.
Local Open Scope string_scope.

(** *** Sequencing *)

Lemma bind_Some {A B} (m : M A) (k : A -> M B) (s s1 s2 : State)
      (a : A) (b : B) (e1 e2 : list event) :
  m s = Some (a, s1, e1) ->
  k a s1 = Some (b, s2, e2) ->
  bind m k s = Some (b, s2, (e1 ++ e2)%list).
Proof. intros H1 H2. unfold bind. rewrite H1, H2. reflexivity. Qed.

Lemma draws_app (a b : list event) : draws (a ++ b) = (draws a ++ draws b)%list.
Proof. apply flat_map_app. Qed.

Lemma loads_app (a b : list event) : loads (a ++ b) = (loads a ++ loads b)%list.
Proof. apply flat_map_app. Qed.

Lemma published_app (a b : list event) :
  published (a ++ b) = (published a ++ published b)%list.
Proof. apply flat_map_app. Qed.

Lemma quiet_app (a b : list event) : quiet a -> quiet b -> quiet (a ++ b).
Proof.
  intros (La & Da & Pa) (Lb & Db & Pb). unfold quiet.
  rewrite loads_app, draws_app, published_app, La, Lb, Da, Db, Pa, Pb. auto.
Qed.

(** *** The texture table *)

Lemma store_Some {A} (l : list A) (i : nat) (v : A) :
  (i < List.length l)%nat ->
  exists l', store l i v = Some l' /\ List.length l' = List.length l.
Proof.
  revert i. induction l as [| a l IH]; intros i Hi; simpl in Hi; [lia|].
  destruct i as [| j]; simpl.
  - eexists; split; [reflexivity|]. reflexivity.
  - destruct (IH j ltac:(lia)) as (l' & -> & Hlen).
    eexists; split; [reflexivity|]. simpl. congruence.
Qed.

(** The scan from [index] with [fuel] entries to go, when they all lie
    inside the table: the first match, or -1. *)
Lemma find_texture_spec (table : list TEXTURE_INFO) (tg : string)
      (found : Z -> TEXTURE_INFO -> Z) (fuel : nat) :
  forall index : nat,
    (index + fuel <= List.length table)%nat ->
    (find_texture table tg found fuel (Z.of_nat index) = Some (-1)
     /\ forall i t, (index <= i < index + fuel)%nat ->
                    nth_error table i = Some t -> tag t <> tg)
    \/ (exists i t,
           (index <= i < index + fuel)%nat
           /\ nth_error table i = Some t
           /\ tag t = tg
           /\ (forall j t', (index <= j < i)%nat ->
                            nth_error table j = Some t' -> tag t' <> tg)
           /\ find_texture table tg found fuel (Z.of_nat index)
              = Some (found (Z.of_nat i) t)).
Proof.
  induction fuel as [| fuel IH]; intros index Hlen; simpl.
  - left. split; [reflexivity|]. intros; lia.
  - rewrite Nat2Z.id.
    destruct (nth_error table index) as [t |] eqn:Hnth.
    2:{ apply nth_error_None in Hnth. lia. }
    destruct (String.eqb (tag t) tg) eqn:Heq.
    + right. exists index, t. apply String.eqb_eq in Heq.
      split; [lia|]. split; [exact Hnth|]. split; [exact Heq|].
      split; [intros; lia | reflexivity].
    + apply String.eqb_neq in Heq.
      replace (Z.of_nat index + 1) with (Z.of_nat (S index)) by lia.
      destruct (IH (S index) ltac:(lia)) as [(Hr & Hno) | (i & t' & Hi & Hn & Ht & Hbefore & Hr)].
      * left. split; [exact Hr|]. intros i t' Hi Hn.
        destruct (Nat.eq_dec i index) as [-> |].
        -- congruence.
        -- apply (Hno i t'); [lia | exact Hn].
      * right. exists i, t'.
        split; [lia|]. split; [exact Hn|]. split; [exact Ht|].
        split; [| exact Hr].
        intros j t'' Hj Hn'. destruct (Nat.eq_dec j index) as [-> |].
        -- congruence.
        -- apply (Hbefore j t''); [lia | exact Hn'].
Qed.

Lemma table_ok_fuel (s : State) :
  table_ok s ->
  (0 + Z.to_nat (m_loadedTextures s) <= List.length (m_textureIDs s))%nat.
Proof. unfold table_ok. lia. Qed.

Lemma FindTextureSlot_total (s : State) (tg : string) :
  table_ok s -> FindTextureSlot s tg = Some (slot_of s tg).
Proof.
  intros Hok. unfold slot_of.
  destruct (find_texture_spec (m_textureIDs s) tg (fun index _ => index)
              (Z.to_nat (m_loadedTextures s)) 0%nat (table_ok_fuel s Hok))
    as [(Hr & _) | (i & t & _ & _ & _ & _ & Hr)];
    unfold FindTextureSlot; simpl in Hr; rewrite Hr; reflexivity.
Qed.

Lemma not_registered_iff (s : State) (tg : string) :
  ~ registered s tg <->
  (forall i t, (0 <= i < 0 + Z.to_nat (m_loadedTextures s))%nat ->
               nth_error (m_textureIDs s) i = Some t -> tag t <> tg).
Proof.
  unfold registered. split.
  - intros Hno i t Hi Hn Ht. apply Hno. exists i, t. repeat split; auto. lia.
  - intros Hall (i & t & Hi & Hn & Ht). apply (Hall i t); auto. lia.
Qed.

(** *** The calls of the per-object sequence *)

Lemma bind_get {B} (k : State -> M B) (s : State) : bind get k s = k s s.
Proof. unfold bind, get. destruct (k s s) as [[[b s2] e2] |]; reflexivity. Qed.

Lemma shader_log (e : event) (s : State) :
  m_pShaderManager s = true -> shader e s = Some (tt, s, [e]).
Proof. intros Hsh. unfold shader. rewrite bind_get, Hsh. reflexivity. Qed.

Lemma SetTransformations_log (scaleXYZ : vec3) (rx ry rz : R) (positionXYZ : vec3)
      (s : State) :
  m_pShaderManager s = true ->
  SetTransformations scaleXYZ rx ry rz positionXYZ s =
  Some (tt, s, [setMat4Value g_ModelName (modelView scaleXYZ rx ry rz positionXYZ)]).
Proof.
  intros Hsh. unfold SetTransformations. rewrite bind_get, Hsh. reflexivity.
Qed.

Lemma SetShaderTexture_log (tg : string) (s : State) :
  m_pShaderManager s = true ->
  table_ok s ->
  SetShaderTexture tg s = Some (tt, s, texture_log s (Some tg)).
Proof.
  intros Hsh Hok. unfold SetShaderTexture. rewrite bind_get, Hsh.
  rewrite (FindTextureSlot_total s tg Hok). reflexivity.
Qed.

Lemma publish_material (material : OBJECT_MATERIAL) (s : State) :
  m_pShaderManager s = true ->
  (shader (setVec3Value "material.ambientColor" (ambientColor material)) ;;
   shader (setFloatValue "material.ambientStrength" (ambientStrength material)) ;;
   shader (setVec3Value "material.diffuseColor" (diffuseColor material)) ;;
   shader (setVec3Value "material.specularColor" (specularColor material)) ;;
   shader (setFloatValue "material.shininess" (shininess material))) s
  = Some (tt, s, material_uniforms material).
Proof.
  intros Hsh.
  repeat (eapply (bind_Some _ _ s s s tt tt [_]); [apply shader_log, Hsh |]).
  apply shader_log, Hsh.
Qed.

Lemma SetShaderMaterial_log (indeterminate : OBJECT_MATERIAL) (tg : string)
      (s : State) :
  m_pShaderManager s = true ->
  SetShaderMaterial indeterminate tg s =
  Some (tt, s, material_log s indeterminate (Some tg)).
Proof.
  intros Hsh. unfold SetShaderMaterial, material_log. rewrite bind_get.
  unfold FindMaterial.
  destruct (m_objectMaterials s) as [| m rest]; [reflexivity|].
  cbn [List.length Nat.ltb Nat.leb Nat.eqb snd].
  apply publish_material, Hsh.
Qed.

Lemma draw_log (k : MeshKind) (s : State) :
  emit (DrawMesh k) s = Some (tt, s, [DrawMesh k]).
Proof. reflexivity. Qed.

(** One frame: the log of [RenderScene] is the logs of its placements,
    in order, and the state is left as it was. *)
Lemma RenderScene_log (indeterminate : OBJECT_MATERIAL) (s : State) :
  m_pShaderManager s = true ->
  table_ok s ->
  RenderScene indeterminate s =
  Some (tt, s, flat_map (placement_log s indeterminate) scene_placements).
Proof.
  intros Hsh Hok.
  assert (exists evs,
             RenderScene indeterminate s = Some (tt, s, evs)
             /\ evs = flat_map (placement_log s indeterminate) scene_placements)
    as (evs & Hrun & ->); [| exact Hrun].
  eexists. split.
  - unfold RenderScene.
    repeat (eapply bind_Some;
            [ first [ apply SetTransformations_log; exact Hsh
                    | apply SetShaderTexture_log; [exact Hsh | exact Hok]
                    | apply SetShaderMaterial_log; exact Hsh
                    | apply draw_log ] |]).
    apply draw_log.
  - unfold scene_placements, placement_log.
    cbn [flat_map p_scale p_Xrotation p_Yrotation p_Zrotation p_position
         p_mesh p_texture p_material].
    cbn [app]. rewrite <- !app_assoc. cbn [app]. reflexivity.
Qed.

(** *** Lookups *)

(** C9. In a state whose loaded count fits the table, [FindTextureSlot]
    returns a slot: either -1, and then no loaded entry carries the tag, or
    the index of the first loaded entry, in table order, whose tag equals
    the given one.  [SetShaderTexture] publishes the use-texture flag and
    then that slot as the texture uniform, hence -1 for a tag that is not
    registered. *)
Theorem FindTextureSlot_first_match (s : State) (tg : string) :
  table_ok s ->
  exists slot,
    FindTextureSlot s tg = Some slot
    /\ ((slot = -1 /\ ~ registered s tg)
        \/ (0 <= slot < m_loadedTextures s
            /\ (exists t, nth_error (m_textureIDs s) (Z.to_nat slot) = Some t
                          /\ tag t = tg)
            /\ (forall j t', (j < Z.to_nat slot)%nat ->
                             nth_error (m_textureIDs s) j = Some t' ->
                             tag t' <> tg)))
    /\ (~ registered s tg -> slot = -1)
    /\ (m_pShaderManager s = true ->
        SetShaderTexture tg s =
        Some (tt, s, [ setIntValue "bUseTexture" 1;
                       setSampler2DValue "objectTexture" slot ])).
Proof.
  intros Hok. exists (slot_of s tg).
  split; [apply FindTextureSlot_total, Hok|].
  assert (Hcases :
            (slot_of s tg = -1 /\ ~ registered s tg)
            \/ (0 <= slot_of s tg < m_loadedTextures s
                /\ (exists t, nth_error (m_textureIDs s) (Z.to_nat (slot_of s tg)) = Some t
                              /\ tag t = tg)
                /\ (forall j t', (j < Z.to_nat (slot_of s tg))%nat ->
                                 nth_error (m_textureIDs s) j = Some t' ->
                                 tag t' <> tg))).
  { unfold slot_of, FindTextureSlot.
    destruct (find_texture_spec (m_textureIDs s) tg (fun index _ => index)
                (Z.to_nat (m_loadedTextures s)) 0%nat (table_ok_fuel s Hok))
      as [(Hr & Hno) | (i & t & Hi & Hn & Ht & Hbefore & Hr)];
      simpl in Hr; rewrite Hr.
    - left. split; [reflexivity|]. apply not_registered_iff. exact Hno.
    - right. rewrite Nat2Z.id. split; [lia|]. split.
      + exists t; auto.
      + intros j t' Hj. apply Hbefore. lia. }
  split; [exact Hcases|]. split.
  - intros Hno. destruct Hcases as [(H & _) | (Hr & (t & Hn & Ht) & _)]; [exact H|].
    exfalso. apply Hno. exists (Z.to_nat (slot_of s tg)), t.
    repeat split; auto. lia.
  - intros Hsh. rewrite (SetShaderTexture_log tg s Hsh Hok). reflexivity.
Qed.

Lemma FindTextureSlot_first_match_witness :
  table_ok (SceneManager.SceneManager true 1)
  /\ exists slot,
    FindTextureSlot (SceneManager.SceneManager true 1) "mug" = Some slot
    /\ ((slot = -1 /\ ~ registered (SceneManager.SceneManager true 1) "mug")
        \/ (0 <= slot < m_loadedTextures (SceneManager.SceneManager true 1)
            /\ (exists t, nth_error (m_textureIDs (SceneManager.SceneManager true 1))
                                    (Z.to_nat slot) = Some t
                          /\ tag t = "mug")
            /\ (forall j t', (j < Z.to_nat slot)%nat ->
                             nth_error (m_textureIDs (SceneManager.SceneManager true 1)) j
                             = Some t' ->
                             tag t' <> "mug")))
    /\ (~ registered (SceneManager.SceneManager true 1) "mug" -> slot = -1)
    /\ (m_pShaderManager (SceneManager.SceneManager true 1) = true ->
        SetShaderTexture "mug" (SceneManager.SceneManager true 1) =
        Some (tt, SceneManager.SceneManager true 1,
              [ setIntValue "bUseTexture" 1;
                setSampler2DValue "objectTexture" slot ])).
Proof.
  split; [unfold table_ok; simpl; lia|].
  apply (FindTextureSlot_first_match (SceneManager.SceneManager true 1) "mug").
  unfold table_ok; simpl; lia.
Defined.

(** The lookups read only the table and the loaded count. *)
Lemma lookups_same_table (s s' : State) :
  m_textureIDs s' = m_textureIDs s ->
  m_loadedTextures s' = m_loadedTextures s ->
  (forall t, FindTextureSlot s' t = FindTextureSlot s t)
  /\ (forall t, FindTextureID s' t = FindTextureID s t)
  /\ (forall t, registered s' t <-> registered s t)
  /\ (table_ok s' <-> table_ok s).
Proof.
  intros Ht Hn. unfold FindTextureSlot, FindTextureID, registered, table_ok.
  rewrite Ht, Hn. repeat split; auto.
Qed.

(** C8. When the image decodes but has a channel count other than 3 or 4,
    [CreateGLTexture] returns false after the console diagnostic, and
    leaves the texture table and the loaded count as they were: every
    lookup answers as before.  A tag that was not registered before the
    call is not registered after it, and looking it up gives -1. *)
Theorem CreateGLTexture_unsupported_channels
        (stbi_load : string -> option (Z * Z * Z)) (filename tg : string)
        (s : State) (width height channels : Z) :
  stbi_load filename = Some (width, height, channels) ->
  channels <> 3 ->
  channels <> 4 ->
  exists s' evs,
    CreateGLTexture stbi_load filename tg s = Some (false, s', evs)
    /\ In (cout_not_implemented channels) evs
    /\ m_textureIDs s' = m_textureIDs s
    /\ m_loadedTextures s' = m_loadedTextures s
    /\ (forall t, FindTextureSlot s' t = FindTextureSlot s t)
    /\ (forall t, FindTextureID s' t = FindTextureID s t)
    /\ (forall t, registered s' t <-> registered s t)
    /\ (table_ok s -> ~ registered s tg ->
        ~ registered s' tg
        /\ FindTextureSlot s' tg = Some (-1)
        /\ FindTextureID s' tg = Some (-1)).
Proof.
  intros Hload H3 H4. unfold CreateGLTexture. rewrite Hload.
  apply Z.eqb_neq in H3. apply Z.eqb_neq in H4. rewrite H3, H4.
  eexists; eexists. split; [reflexivity|].
  split; [simpl; auto 12|].
  cbn [m_textureIDs m_loadedTextures].
  split; [reflexivity|]. split; [reflexivity|].
  match goal with
  | |- context [FindTextureSlot ?s' _] =>
      destruct (lookups_same_table s s' eq_refl eq_refl) as (Hslot & Hid & Hreg & Hok')
  end.
  split; [exact Hslot|]. split; [exact Hid|]. split; [exact Hreg|].
  intros Hok Hno. split; [rewrite Hreg; exact Hno|].
  rewrite Hslot, Hid.
  pose proof (proj1 (not_registered_iff s tg) Hno) as Hnone. clear Hno.
  unfold FindTextureSlot, FindTextureID.
  split.
  - destruct (find_texture_spec (m_textureIDs s) tg (fun index _ => index)
                (Z.to_nat (m_loadedTextures s)) 0%nat (table_ok_fuel s Hok))
      as [(Hr & _) | (i & t & Hi & Hn & Ht & _)]; [exact Hr|].
    exfalso. exact (Hnone i t Hi Hn Ht).
  - destruct (find_texture_spec (m_textureIDs s) tg
                (fun _ t => int_of_GLuint (ID t))
                (Z.to_nat (m_loadedTextures s)) 0%nat (table_ok_fuel s Hok))
      as [(Hr & _) | (i & t & Hi & Hn & Ht & _)]; [exact Hr|].
    exfalso. exact (Hnone i t Hi Hn Ht).
Qed.

(** *** Material lookup *)

Lemma FindMaterial_loop_missing (l : list OBJECT_MATERIAL) (tg : string)
      (material : OBJECT_MATERIAL) :
  find (fun m => String.eqb (material_tag m) tg) l = None ->
  FindMaterial_loop l tg material = material.
Proof.
  induction l as [| m rest IH]; simpl; [reflexivity|].
  destruct (String.eqb (material_tag m) tg); [discriminate | exact IH].
Qed.

Lemma FindMaterial_loop_found (l : list OBJECT_MATERIAL) (tg : string)
      (material m : OBJECT_MATERIAL) :
  find (fun m => String.eqb (material_tag m) tg) l = Some m ->
  material_uniforms (FindMaterial_loop l tg material) = material_uniforms m.
Proof.
  induction l as [| m' rest IH]; simpl; [discriminate|].
  destruct (String.eqb (material_tag m') tg).
  - intros H; injection H as ->. reflexivity.
  - exact IH.
Qed.

(** With an empty material list [FindMaterial] reports failure and
    [SetShaderMaterial] publishes nothing. *)
Lemma FindMaterial_empty (s : State) (tg : string) (material : OBJECT_MATERIAL) :
  m_objectMaterials s = [] ->
  FindMaterial s tg material = (false, material)
  /\ SetShaderMaterial material tg s = Some (tt, s, []).
Proof.
  intros Hnil. unfold SetShaderMaterial, FindMaterial.
  rewrite bind_get, Hnil. split; reflexivity.
Qed.

(** With a non-empty material list [FindMaterial] returns true for every
    tag; for a tag that no material carries, [material] comes back as it
    went in, and [SetShaderMaterial] publishes its five fields. *)
Lemma FindMaterial_missing_tag (s : State) (tg : string) (material : OBJECT_MATERIAL) :
  m_objectMaterials s <> [] ->
  resolve_material s tg = None ->
  FindMaterial s tg material = (true, material)
  /\ (m_pShaderManager s = true ->
      SetShaderMaterial material tg s = Some (tt, s, material_uniforms material)).
Proof.
  intros Hne Hmiss. unfold resolve_material in Hmiss.
  assert (Hfind : FindMaterial s tg material = (true, material)).
  { unfold FindMaterial. destruct (m_objectMaterials s) as [| m rest] eqn:E;
      [congruence|].
    cbn [List.length Nat.eqb].
    rewrite (FindMaterial_loop_missing _ tg material Hmiss). reflexivity. }
  split; [exact Hfind|].
  intros Hsh. rewrite (SetShaderMaterial_log material tg s Hsh).
  unfold material_log. rewrite Hfind.
  destruct (m_objectMaterials s); [congruence | reflexivity].
Qed.

(** *** Scene setup *)

Lemma emit_log (e : event) (s : State) : emit e s = Some (tt, s, [e]).
Proof. reflexivity. Qed.

Lemma gen_texture_name_log (s : State) :
  gen_texture_name s = Some (glNextName s, next_name s, [glGenTextures (glNextName s)]).
Proof. reflexivity. Qed.

Lemma register_texture_ok (textureID : Z) (tg : string) (s : State) :
  0 <= m_loadedTextures s ->
  m_loadedTextures s < Z.of_nat (List.length (m_textureIDs s)) ->
  exists table,
    List.length table = List.length (m_textureIDs s)
    /\ register_texture textureID tg s =
       Some (true,
             mkState (m_pShaderManager s) table (m_loadedTextures s + 1)
                     (m_objectMaterials s) (glNextName s),
             [glGenerateMipmap; stbi_image_free; glBindTexture 0]).
Proof.
  intros H0 Hlt.
  destruct (store_Some (m_textureIDs s) (Z.to_nat (m_loadedTextures s))
                       (mkTEXTURE_INFO tg textureID) ltac:(lia))
    as (table & Hstore & Hlen).
  exists table. split; [exact Hlen|].
  unfold register_texture.
  eapply (bind_Some _ _ s s _ tt true [_]); [apply emit_log|].
  eapply (bind_Some _ _ s s _ tt true [_]); [apply emit_log|].
  eapply (bind_Some _ _ s s _ tt true [_]); [apply emit_log|].
  rewrite bind_get, Hstore. reflexivity.
Qed.

(** One [CreateGLTexture] call on a table with a free slot: it returns,
    touches only the table, the count and the name supply, and adds at
    most one entry -- exactly one when the file decodes as RGB or RGBA. *)
Lemma CreateGLTexture_step (stbi_load : string -> option (Z * Z * Z))
      (filename tg : string) (s : State) :
  0 <= m_loadedTextures s ->
  m_loadedTextures s < Z.of_nat (List.length (m_textureIDs s)) ->
  exists b s' evs,
    CreateGLTexture stbi_load filename tg s = Some (b, s', evs)
    /\ m_pShaderManager s' = m_pShaderManager s
    /\ m_objectMaterials s' = m_objectMaterials s
    /\ List.length (m_textureIDs s') = List.length (m_textureIDs s)
    /\ m_loadedTextures s <= m_loadedTextures s' <= m_loadedTextures s + 1
    /\ (decodable stbi_load filename ->
        b = true /\ m_loadedTextures s' = m_loadedTextures s + 1)
    /\ quiet evs.
Proof.
  intros H0 Hlt. unfold CreateGLTexture.
  destruct (stbi_load filename) as [[[width height] channels] |] eqn:Hload.
  - destruct (register_texture_ok (glNextName s) tg (next_name s) H0 Hlt)
      as (table & Hlen & Hreg).
    destruct (Z.eqb channels 3) eqn:E3; [| destruct (Z.eqb channels 4) eqn:E4].
    + eexists; eexists; eexists. split.
      { eapply bind_Some; [apply emit_log|].
        eapply bind_Some; [apply emit_log|].
        eapply bind_Some; [apply gen_texture_name_log|].
        do 6 (eapply bind_Some; [apply emit_log|]).
        exact Hreg. }
      cbn [m_pShaderManager m_objectMaterials m_textureIDs m_loadedTextures next_name].
      split; [reflexivity|]. split; [reflexivity|]. split; [exact Hlen|].
      split; [lia|]. split; [intros _; split; reflexivity | repeat split].
    + eexists; eexists; eexists. split.
      { eapply bind_Some; [apply emit_log|].
        eapply bind_Some; [apply emit_log|].
        eapply bind_Some; [apply gen_texture_name_log|].
        do 6 (eapply bind_Some; [apply emit_log|]).
        exact Hreg. }
      cbn [m_pShaderManager m_objectMaterials m_textureIDs m_loadedTextures next_name].
      split; [reflexivity|]. split; [reflexivity|]. split; [exact Hlen|].
      split; [lia|]. split; [intros _; split; reflexivity | repeat split].
    + eexists; eexists; eexists. split.
      { eapply bind_Some; [apply emit_log|].
        eapply bind_Some; [apply emit_log|].
        eapply bind_Some; [apply gen_texture_name_log|].
        do 6 (eapply bind_Some; [apply emit_log|]).
        reflexivity. }
      cbn [m_pShaderManager m_objectMaterials m_textureIDs m_loadedTextures next_name].
      split; [reflexivity|]. split; [reflexivity|]. split; [reflexivity|].
      split; [lia|]. split; [| repeat split].
      intros (w & h & c & Hc & Hch). rewrite Hload in Hc.
      injection Hc as _ _ <-. apply Z.eqb_neq in E3, E4. lia.
  - eexists; eexists; eexists. split.
    { eapply bind_Some; [apply emit_log|].
      eapply bind_Some; [apply emit_log|]. reflexivity. }
    split; [reflexivity|]. split; [reflexivity|]. split; [reflexivity|].
    split; [lia|]. split; [| repeat split].
    intros (w & h & c & Hc & _). rewrite Hload in Hc. discriminate.
Qed.

Lemma BindGLTextures_loop_log (s : State) (fuel : nat) :
  forall i : nat,
    (i + fuel <= List.length (m_textureIDs s))%nat ->
    exists evs,
      BindGLTextures_loop fuel (Z.of_nat i) s = Some (tt, s, evs) /\ quiet evs.
Proof.
  induction fuel as [| fuel IH]; intros i Hlen; cbn [BindGLTextures_loop].
  - exists []. split; [reflexivity | repeat split].
  - rewrite bind_get, Nat2Z.id.
    destruct (nth_error (m_textureIDs s) i) as [t |] eqn:Hnth.
    2:{ apply nth_error_None in Hnth. lia. }
    replace (Z.of_nat i + 1) with (Z.of_nat (S i)) by lia.
    destruct (IH (S i) ltac:(lia)) as (evs & Hrun & Hq).
    eexists. split.
    + eapply bind_Some; [apply emit_log|].
      eapply bind_Some; [apply emit_log|]. exact Hrun.
    + apply quiet_app; [repeat split|]. apply quiet_app; [repeat split | exact Hq].
Qed.

Lemma BindGLTextures_log (s : State) :
  table_ok s -> exists evs, BindGLTextures s = Some (tt, s, evs) /\ quiet evs.
Proof.
  intros Hok. unfold BindGLTextures. rewrite bind_get.
  apply (BindGLTextures_loop_log s _ 0%nat). apply table_ok_fuel, Hok.
Qed.

(** A run of [CreateGLTexture] calls followed by [k], on a table with
    room for all of them. *)
Lemma load_chain (stbi_load : string -> option (Z * Z * Z))
      (files : list (string * string)) (k : M unit) :
  forall s,
    0 <= m_loadedTextures s ->
    m_loadedTextures s + Z.of_nat (List.length files)
    <= Z.of_nat (List.length (m_textureIDs s)) ->
    (forall s1, table_ok s1 -> exists evs, k s1 = Some (tt, s1, evs) /\ quiet evs) ->
    exists s' evs,
      fold_right (fun ft rest => CreateGLTexture stbi_load (fst ft) (snd ft) ;; rest)
                 k files s = Some (tt, s', evs)
      /\ m_pShaderManager s' = m_pShaderManager s
      /\ m_objectMaterials s' = m_objectMaterials s
      /\ List.length (m_textureIDs s') = List.length (m_textureIDs s)
      /\ m_loadedTextures s <= m_loadedTextures s'
         <= m_loadedTextures s + Z.of_nat (List.length files)
      /\ ((forall ft, In ft files -> decodable stbi_load (fst ft)) ->
          m_loadedTextures s' = m_loadedTextures s + Z.of_nat (List.length files))
      /\ quiet evs.
Proof.
  induction files as [| [filename tg] rest IH]; intros s H0 Hroom Hk.
  - cbn [fold_right List.length] in *.
    destruct (Hk s ltac:(unfold table_ok; lia)) as (evs & Hrun & Hq).
    exists s, evs. split; [exact Hrun|].
    split; [reflexivity|]. split; [reflexivity|]. split; [reflexivity|].
    split; [lia|]. split; [intros _; lia | exact Hq].
  - cbn [fold_right List.length fst snd] in *.
    destruct (CreateGLTexture_step stbi_load filename tg s H0 ltac:(lia))
      as (b & s1 & evs1 & Hrun1 & Hsh1 & Hmat1 & Hlen1 & Hcount1 & Hdec1 & Hq1).
    destruct (IH s1 ltac:(lia) ltac:(rewrite Hlen1; lia) Hk)
      as (s' & evs & Hrun & Hsh & Hmat & Hlen & Hcount & Hdec & Hq).
    exists s', (evs1 ++ evs)%list. split; [exact (bind_Some _ _ _ _ _ _ _ _ _ Hrun1 Hrun)|].
    split; [congruence|]. split; [congruence|]. split; [congruence|].
    split; [lia|]. split; [| apply quiet_app; assumption].
    intros Hall.
    destruct (Hdec1 (Hall (filename, tg) (or_introl eq_refl))) as (_ & Hn1).
    rewrite (Hdec (fun ft Hin => Hall ft (or_intror Hin))). lia.
Qed.

Lemma LoadSceneTextures_log (stbi_load : string -> option (Z * Z * Z)) (s : State) :
  m_loadedTextures s = 0 ->
  List.length (m_textureIDs s) = 16%nat ->
  exists s' evs,
    LoadSceneTextures stbi_load s = Some (tt, s', evs)
    /\ m_pShaderManager s' = m_pShaderManager s
    /\ m_objectMaterials s' = m_objectMaterials s
    /\ List.length (m_textureIDs s') = 16%nat
    /\ 0 <= m_loadedTextures s' <= 8
    /\ ((forall f, In f texture_files -> decodable stbi_load f) ->
        m_loadedTextures s' = 8)
    /\ quiet evs.
Proof.
  intros Hn Hlen.
  destruct (load_chain stbi_load
              [ ("ceramicTexture.jpg", "mug"); ("stoneTexture.jpg", "table");
                ("blackPlasticTexture.jpg", "blackPlastic");
                ("whitePlasticTexture.jpg", "whitePlastic");
                ("bluePlasticTexture.jpg", "bluePlastic");
                ("redPaperTexture.jpg", "redPaper");
                ("blackBookTexture.jpg", "blackBook");
                ("brownBookTexture.jpg", "brownBook") ]
              BindGLTextures s ltac:(lia) ltac:(rewrite Hn, Hlen; simpl; lia)
              BindGLTextures_log)
    as (s' & evs & Hrun & Hsh & Hmat & Hlen' & Hcount & Hdec & Hq).
  exists s', evs. split; [exact Hrun|].
  split; [exact Hsh|]. split; [exact Hmat|]. split; [congruence|].
  cbn [List.length] in Hcount, Hdec. split; [lia|]. split; [| exact Hq].
  intros Hall. rewrite Hdec; [lia|].
  intros ft Hin. apply Hall. unfold texture_files.
  cbn [In] in Hin |- *.
  repeat (destruct Hin as [<- | Hin]; [cbn [fst]; tauto|]). contradiction.
Qed.

Lemma DefineObjectMaterials_log (s : State) :
  m_objectMaterials s = [] ->
  DefineObjectMaterials s =
  Some (tt,
        mkState (m_pShaderManager s) (m_textureIDs s) (m_loadedTextures s)
                defined_materials (glNextName s),
        []).
Proof.
  intros Hnil. unfold DefineObjectMaterials, push_back, bind, get, put.
  cbn [m_pShaderManager m_textureIDs m_loadedTextures m_objectMaterials glNextName app].
  rewrite Hnil. reflexivity.
Qed.

Lemma SetupSceneLights_log (s : State) :
  m_pShaderManager s = true ->
  exists evs,
    SetupSceneLights s = Some (tt, s, evs)
    /\ loads evs = [] /\ draws evs = []
    /\ lights evs = ["0"; "1"; "2"; "3"]%char.
Proof.
  intros Hsh. eexists. split.
  - unfold SetupSceneLights.
    repeat (eapply bind_Some; [apply shader_log, Hsh |]).
    apply shader_log, Hsh.
  - repeat split; reflexivity.
Qed.

(** The one-time setup on a freshly constructed scene manager with a
    shader manager, whatever the decoder answers. *)
Lemma PrepareScene_log (stbi_load : string -> option (Z * Z * Z)) (glNext : Z) :
  exists s evs,
    PrepareScene stbi_load (SceneManager.SceneManager true glNext) = Some (tt, s, evs)
    /\ m_pShaderManager s = true
    /\ m_objectMaterials s = defined_materials
    /\ table_ok s
    /\ 0 <= m_loadedTextures s <= 8
    /\ ((forall f, In f texture_files -> decodable stbi_load f) ->
        m_loadedTextures s = 8)
    /\ loads evs = [Plane; TaperedCylinder; Torus; Cylinder; Cone; Box]
    /\ lights evs = ["0"; "1"; "2"; "3"]%char
    /\ draws evs = [].
Proof.
  destruct (LoadSceneTextures_log stbi_load (SceneManager.SceneManager true glNext)
              eq_refl eq_refl)
    as (s1 & evs1 & Hrun1 & Hsh1 & Hmat1 & Hlen1 & Hcount1 & Hdec1 & (Hl1 & Hd1 & Hp1)).
  cbn [m_pShaderManager m_objectMaterials SceneManager.SceneManager] in Hsh1, Hmat1.
  pose proof (DefineObjectMaterials_log s1 Hmat1) as Hrun2.
  set (s2 := mkState (m_pShaderManager s1) (m_textureIDs s1) (m_loadedTextures s1)
                     defined_materials (glNextName s1)) in *.
  assert (Hsh2 : m_pShaderManager s2 = true) by exact Hsh1.
  destruct (SetupSceneLights_log s2 Hsh2) as (evs3 & Hrun3 & Hl3 & Hd3 & Hlights).
  exists s2, (evs1 ++ [] ++ evs3 ++
              [LoadMesh Plane] ++ [LoadMesh TaperedCylinder] ++ [LoadMesh Torus] ++
              [LoadMesh Cylinder] ++ [LoadMesh Cone] ++ [LoadMesh Box])%list.
  split.
  { unfold PrepareScene.
    eapply bind_Some; [exact Hrun1|].
    eapply bind_Some; [exact Hrun2|].
    eapply bind_Some; [exact Hrun3|].
    repeat (eapply bind_Some; [apply emit_log|]). apply emit_log. }
  split; [exact Hsh2|]. split; [reflexivity|].
  split; [unfold table_ok, s2; cbn [m_loadedTextures m_textureIDs]; lia|].
  split; [exact Hcount1|]. split; [exact Hdec1|].
  unfold lights.
  rewrite !loads_app, !draws_app, !published_app, Hl1, Hd1, Hp1, Hl3, Hd3.
  split; [reflexivity|]. split; [| reflexivity].
  cbn [app published flat_map uniform_name]. rewrite app_nil_r. exact Hlights.
Qed.

(** *** Reading the log of a frame *)

Lemma draws_texture_log (s : State) (t : option string) : draws (texture_log s t) = [].
Proof. destruct t; reflexivity. Qed.

Lemma draws_material_log (s : State) (ind : OBJECT_MATERIAL) (m : option string) :
  draws (material_log s ind m) = [].
Proof.
  destruct m as [tg |]; [| reflexivity]. unfold material_log.
  destruct (Nat.ltb 0 (List.length (m_objectMaterials s))); reflexivity.
Qed.

Lemma draws_placement_log (s : State) (ind : OBJECT_MATERIAL) (p : Placement) :
  draws (placement_log s ind p) = [p_mesh p].
Proof.
  unfold placement_log.
  change (draws (?e :: ?l)) with (draws ([e] ++ l)).
  rewrite !draws_app, draws_texture_log, draws_material_log. reflexivity.
Qed.

(** The draw calls of a frame are the meshes of the placements, in order. *)
Lemma draws_frame (s : State) (ind : OBJECT_MATERIAL) (ps : list Placement) :
  draws (flat_map (placement_log s ind) ps) = map p_mesh ps.
Proof.
  induction ps as [| p rest IH]; [reflexivity|].
  cbn [flat_map map]. rewrite draws_app, draws_placement_log, IH. reflexivity.
Qed.

Lemma objects_no_draw (pre : list event) :
  draws pre = [] ->
  forall acc k rest,
    objects acc (pre ++ DrawMesh k :: rest) =
    (acc ++ pre ++ [DrawMesh k])%list :: objects [] rest.
Proof.
  induction pre as [| e pre IH]; intros Hd acc k rest.
  - reflexivity.
  - destruct e; try discriminate Hd;
      cbn [app objects]; rewrite (IH Hd); rewrite <- !app_assoc; reflexivity.
Qed.

(** Cutting the log of a frame after every draw gives back the logs of
    the placements. *)
Lemma objects_frame (s : State) (ind : OBJECT_MATERIAL) (ps : list Placement) :
  objects [] (flat_map (placement_log s ind) ps) = map (placement_log s ind) ps.
Proof.
  induction ps as [| p rest IH]; [reflexivity|].
  cbn [flat_map map]. unfold placement_log at 1.
  set (pre := (setMat4Value g_ModelName
                 (modelView (p_scale p) (p_Xrotation p) (p_Yrotation p)
                            (p_Zrotation p) (p_position p))
               :: texture_log s (p_texture p)
               ++ material_log s ind (p_material p))%list).
  replace ((setMat4Value g_ModelName
              (modelView (p_scale p) (p_Xrotation p) (p_Yrotation p)
                         (p_Zrotation p) (p_position p))
            :: texture_log s (p_texture p)
            ++ material_log s ind (p_material p) ++ [DrawMesh (p_mesh p)])
           ++ flat_map (placement_log s ind) rest)%list
    with (pre ++ DrawMesh (p_mesh p) :: flat_map (placement_log s ind) rest)%list.
  2:{ unfold pre. cbn [app]. rewrite <- !app_assoc. reflexivity. }
  rewrite objects_no_draw.
  - rewrite IH. f_equal. unfold placement_log, pre. cbn [app].
    rewrite <- !app_assoc. reflexivity.
  - unfold pre. change (draws (?e :: ?l)) with (draws ([e] ++ l)).
    rewrite !draws_app, draws_texture_log, draws_material_log. reflexivity.
Qed.

(** The uniforms a placement can publish. *)
Lemma published_placement_log (s : State) (ind : OBJECT_MATERIAL) (p : Placement)
      (n : string) :
  In n (published (placement_log s ind p)) ->
  In n [ "model"; "bUseTexture"; "objectTexture"; "material.ambientColor";
         "material.ambientStrength"; "material.diffuseColor";
         "material.specularColor"; "material.shininess" ].
Proof.
  unfold placement_log.
  change (published (?e :: ?l)) with (published ([e] ++ l)).
  rewrite !published_app, !in_app_iff.
  intros [H | [H | [H | H]]].
  - cbn in H. cbn. tauto.
  - destruct (p_texture p); cbn in H; cbn; tauto.
  - destruct (p_material p) as [tg |]; [| contradiction].
    unfold material_log in H.
    destruct (Nat.ltb 0 (List.length (m_objectMaterials s))); cbn in H; cbn; tauto.
  - contradiction.
Qed.

Lemma published_frame (s : State) (ind : OBJECT_MATERIAL) (ps : list Placement)
      (n : string) :
  In n (published (flat_map (placement_log s ind) ps)) ->
  exists p, In p ps /\ In n (published (placement_log s ind p)).
Proof.
  induction ps as [| p rest IH]; [contradiction|].
  cbn [flat_map]. rewrite published_app, in_app_iff. intros [H | H].
  - exists p. split; [left; reflexivity | exact H].
  - destruct (IH H) as (q & Hq & Hn). exists q. split; [right; exact Hq | exact Hn].
Qed.

(** Every material tag [RenderScene] names is one of the defined ones. *)
Lemma scene_materials_defined :
  Forall (fun p => match p_material p with
                   | Some tg =>
                       exists m, find (fun m => String.eqb (material_tag m) tg)
                                      defined_materials = Some m
                   | None => True
                   end) scene_placements.
Proof. unfold scene_placements. repeat constructor; eexists; reflexivity. Qed.

Lemma material_log_resolved (s : State) (ind material : OBJECT_MATERIAL) (tg : string) :
  resolve_material s tg = Some material ->
  material_log s ind (Some tg) = material_uniforms material.
Proof.
  unfold resolve_material, material_log, FindMaterial. intros Hres.
  destruct (m_objectMaterials s) as [| m rest] eqn:E; [discriminate|].
  cbn [List.length Nat.ltb Nat.leb Nat.eqb snd].
  apply FindMaterial_loop_found, Hres.
Qed.

(** *** The claims on the scene *)

(** C1 fails on the code.  After the scene setup (six materials, none
    tagged "wood"), whatever the decoder and the content of the
    uninitialised local: [FindMaterial] returns true for the tag "wood"
    and leaves [material] as it found it, and [SetShaderMaterial] with
    that tag publishes five material uniforms from the uninitialised
    local. *)
Theorem missing_material_reported_found
        (stbi_load : string -> option (Z * Z * Z)) (glNext : Z)
        (indeterminate : OBJECT_MATERIAL) :
  exists s evs,
    PrepareScene stbi_load (SceneManager.SceneManager true glNext) = Some (tt, s, evs)
    /\ resolve_material s "wood" = None
    /\ FindMaterial s "wood" indeterminate = (true, indeterminate)
    /\ SetShaderMaterial indeterminate "wood" s =
       Some (tt, s, material_uniforms indeterminate)
    /\ material_uniforms indeterminate <> [].
Proof.
  destruct (PrepareScene_log stbi_load glNext)
    as (s & evs & Hrun & Hsh & Hmat & _).
  exists s, evs. split; [exact Hrun|].
  assert (Hres : resolve_material s "wood" = None)
    by (unfold resolve_material; rewrite Hmat; reflexivity).
  split; [exact Hres|].
  destruct (FindMaterial_missing_tag s "wood" indeterminate) as (Hfind & Hset);
    [rewrite Hmat; discriminate | exact Hres |].
  split; [exact Hfind|]. split; [exact (Hset Hsh) | discriminate].
Qed.

(** C3, as stated, fails: after the setup of the reference scene one
    [RenderScene] pass makes 15 draw calls, not 17. *)
Lemma reference_frame_not_17_draws :
  exists s evs frame,
    PrepareScene all_rgb (SceneManager.SceneManager true 1) = Some (tt, s, evs)
    /\ RenderScene zero_material s = Some (tt, s, frame)
    /\ List.length (draws frame) <> 17%nat.
Proof.
  destruct (PrepareScene_log all_rgb 1)
    as (s & evs & Hrun & Hsh & Hmat & Hok & _).
  exists s, evs, (flat_map (placement_log s zero_material) scene_placements).
  split; [exact Hrun|]. split; [apply RenderScene_log; assumption|].
  rewrite draws_frame. cbn. lia.
Qed.

(** C3, amended.  When the eight image files decode as RGB or RGBA, the
    setup on a fresh scene manager registers 8 textures, defines 6
    materials, configures the 4 lights 0..3 and loads the 6 mesh kinds once
    each, without drawing; one [RenderScene] pass then makes exactly one
    draw call per placement, in order: 15 draw calls for 15 placements. *)
Theorem setup_then_one_draw_per_placement
        (stbi_load : string -> option (Z * Z * Z)) (glNext : Z)
        (indeterminate : OBJECT_MATERIAL) :
  (forall f, In f texture_files -> decodable stbi_load f) ->
  exists s evs frame,
    PrepareScene stbi_load (SceneManager.SceneManager true glNext) = Some (tt, s, evs)
    /\ m_loadedTextures s = 8
    /\ List.length (m_objectMaterials s) = 6%nat
    /\ lights evs = ["0"; "1"; "2"; "3"]%char
    /\ loads evs = [Plane; TaperedCylinder; Torus; Cylinder; Cone; Box]
    /\ draws evs = []
    /\ RenderScene indeterminate s = Some (tt, s, frame)
    /\ draws frame = map p_mesh scene_placements
    /\ List.length (draws frame) = 15%nat
    /\ List.length scene_placements = 15%nat.
Proof.
  intros Hdec.
  destruct (PrepareScene_log stbi_load glNext)
    as (s & evs & Hrun & Hsh & Hmat & Hok & _ & Hcount & Hloads & Hlights & Hdraws).
  exists s, evs, (flat_map (placement_log s indeterminate) scene_placements).
  split; [exact Hrun|]. split; [exact (Hcount Hdec)|].
  split; [rewrite Hmat; reflexivity|].
  split; [exact Hlights|]. split; [exact Hloads|]. split; [exact Hdraws|].
  split; [apply RenderScene_log; assumption|].
  rewrite draws_frame. repeat split; reflexivity.
Qed.

Lemma all_rgb_decodable : forall f, In f texture_files -> decodable all_rgb f.
Proof. intros f _. exists 64, 64, 3. split; [reflexivity | left; reflexivity]. Qed.

Lemma setup_then_one_draw_per_placement_witness :
  exists s evs frame,
    PrepareScene all_rgb (SceneManager.SceneManager true 1) = Some (tt, s, evs)
    /\ m_loadedTextures s = 8
    /\ List.length (m_objectMaterials s) = 6%nat
    /\ lights evs = ["0"; "1"; "2"; "3"]%char
    /\ loads evs = [Plane; TaperedCylinder; Torus; Cylinder; Cone; Box]
    /\ draws evs = []
    /\ RenderScene zero_material s = Some (tt, s, frame)
    /\ draws frame = map p_mesh scene_placements
    /\ List.length (draws frame) = 15%nat
    /\ List.length scene_placements = 15%nat.
Proof.
  apply (setup_then_one_draw_per_placement all_rgb 1 zero_material).
  intros f _. exists 64, 64, 3. split; [reflexivity | left; reflexivity].
Defined.

(** C4, as stated, fails: in the frame of the reference scene not every
    object has the full sequence -- no UV scale is published at all. *)
Lemma reference_frame_lacks_full_sequence :
  exists s evs frame,
    PrepareScene all_rgb (SceneManager.SceneManager true 1) = Some (tt, s, evs)
    /\ RenderScene zero_material s = Some (tt, s, frame)
    /\ forallb full_sequence (objects [] frame) = false.
Proof.
  destruct (PrepareScene_log all_rgb 1)
    as (s & evs & Hrun & Hsh & Hmat & Hok & _).
  exists s, evs, (flat_map (placement_log s zero_material) scene_placements).
  split; [exact Hrun|]. split; [apply RenderScene_log; assumption|].
  rewrite objects_frame. unfold scene_placements. cbn [map forallb].
  unfold placement_log at 1. cbn [p_texture p_material texture_log].
  rewrite (material_log_resolved s zero_material marbleMaterial "marble")
    by (unfold resolve_material; rewrite Hmat; reflexivity).
  reflexivity.
Qed.

(** C4, amended.  After the setup, one [RenderScene] pass sends one
    segment per placement, in order; each segment starts with the model
    matrix of the placement and ends with the draw of its mesh.  For every
    placement that names a texture and a material, the segment is exactly:
    model matrix, use-texture flag, the resolved texture slot, the five
    uniforms of the resolved material, draw.  No UV scale is published. *)
Theorem per_object_sequence
        (stbi_load : string -> option (Z * Z * Z)) (glNext : Z)
        (indeterminate : OBJECT_MATERIAL) :
  exists s evs frame,
    PrepareScene stbi_load (SceneManager.SceneManager true glNext) = Some (tt, s, evs)
    /\ RenderScene indeterminate s = Some (tt, s, frame)
    /\ List.length (objects [] frame) = List.length scene_placements
    /\ (forall i p,
           nth_error scene_placements i = Some p ->
           exists middle,
             nth_error (objects [] frame) i =
             Some (setMat4Value "model"
                     (modelView (p_scale p) (p_Xrotation p) (p_Yrotation p)
                                (p_Zrotation p) (p_position p))
                   :: middle ++ [DrawMesh (p_mesh p)])%list)
    /\ (forall i p tg mt,
           nth_error scene_placements i = Some p ->
           p_texture p = Some tg ->
           p_material p = Some mt ->
           exists slot material,
             FindTextureSlot s tg = Some slot
             /\ resolve_material s mt = Some material
             /\ nth_error (objects [] frame) i =
                Some ([ setMat4Value "model"
                          (modelView (p_scale p) (p_Xrotation p) (p_Yrotation p)
                                     (p_Zrotation p) (p_position p));
                        setIntValue "bUseTexture" 1;
                        setSampler2DValue "objectTexture" slot ]
                      ++ material_uniforms material
                      ++ [DrawMesh (p_mesh p)])%list)
    /\ ~ In "UVscale" (published frame).
Proof.
  destruct (PrepareScene_log stbi_load glNext)
    as (s & evs & Hrun & Hsh & Hmat & Hok & _).
  exists s, evs, (flat_map (placement_log s indeterminate) scene_placements).
  split; [exact Hrun|]. split; [apply RenderScene_log; assumption|].
  rewrite objects_frame.
  split; [apply length_map|]. split; [| split].
  - intros i p Hp. rewrite nth_error_map, Hp. cbn [option_map].
    exists (texture_log s (p_texture p) ++ material_log s indeterminate (p_material p))%list.
    unfold placement_log. rewrite <- app_assoc. reflexivity.
  - intros i p tg mt Hp Htex Hmt.
    pose proof (proj1 (Forall_forall _ _) scene_materials_defined p
                      (nth_error_In _ _ Hp)) as Hdef.
    cbv beta in Hdef. rewrite Hmt in Hdef. destruct Hdef as (material & Hfind).
    assert (Hres : resolve_material s mt = Some material)
      by (unfold resolve_material; rewrite Hmat; exact Hfind).
    exists (slot_of s tg), material.
    split; [apply FindTextureSlot_total, Hok|]. split; [exact Hres|].
    rewrite nth_error_map, Hp. cbn [option_map].
    unfold placement_log. rewrite Htex, Hmt.
    rewrite (material_log_resolved s indeterminate material mt Hres). reflexivity.
  - intros Hin. destruct (published_frame _ _ _ _ Hin) as (p & _ & Hp).
    apply published_placement_log in Hp. cbn in Hp.
    repeat (destruct Hp as [Hp | Hp]; [discriminate Hp|]). contradiction.
Qed.

(** C6. With a shader manager present, [SetTransformations] publishes
    under "model" the product translation * rotationX * rotationY *
    rotationZ * scale, which acts on a point by scaling first, then
    rotating about Z, Y and X, then translating.  With scale (2,1,1),
    rotation (0,90,0) and position (1,0,0) it maps the point (3,0,0) to
    (1,0,-6). *)
Theorem SetTransformations_composition
        (scaleXYZ : vec3) (rx ry rz : R) (positionXYZ : vec3) (s : State) :
  m_pShaderManager s = true ->
  SetTransformations scaleXYZ rx ry rz positionXYZ s =
  Some (tt, s,
        [ setMat4Value "model"
            (mulm (mulm (mulm (mulm (translate positionXYZ)
                                    (rotate (radians rx) (mkvec3 1 0 0)))
                              (rotate (radians ry) (mkvec3 0 1 0)))
                        (rotate (radians rz) (mkvec3 0 0 1)))
                  (scale scaleXYZ)) ])
  /\ (forall v,
         mulv (modelView scaleXYZ rx ry rz positionXYZ) v =
         mulv (translate positionXYZ)
              (mulv (rotate (radians rx) (mkvec3 1 0 0))
                    (mulv (rotate (radians ry) (mkvec3 0 1 0))
                          (mulv (rotate (radians rz) (mkvec3 0 0 1))
                                (mulv (scale scaleXYZ) v)))))
  /\ mulv (modelView (mkvec3 2 1 1) 0 90 0 (mkvec3 1 0 0)) (mkvec4 3 0 0 1)
     = mkvec4 1 0 (-6) 1.
Proof.
  intros Hsh. split; [apply SetTransformations_log, Hsh|].
  assert (Hact : forall sc a b c pos v,
             mulv (modelView sc a b c pos) v =
             mulv (translate pos)
                  (mulv (rotate (radians a) (mkvec3 1 0 0))
                        (mulv (rotate (radians b) (mkvec3 0 1 0))
                              (mulv (rotate (radians c) (mkvec3 0 0 1))
                                    (mulv (scale sc) v))))).
  { intros. unfold modelView. rewrite !mulv_mulm. reflexivity. }
  split; [apply Hact|].
  rewrite Hact.
  rewrite scale_point. cbn [x4 y4 z4 w4 x3 y3 z3].
  rewrite rotate_Z_point. cbn [x4 y4 z4 w4 x3 y3 z3].
  rewrite rotate_Y_point. cbn [x4 y4 z4 w4 x3 y3 z3].
  rewrite rotate_X_point. cbn [x4 y4 z4 w4 x3 y3 z3].
  rewrite translate_point. cbn [x4 y4 z4 w4 x3 y3 z3].
  set (a0 := radians 0). set (a90 := radians 90).
  assert (Hc0 : cos a0 = 1%R) by (unfold a0; rewrite radians_0; exact cos_0).
  assert (Hs0 : sin a0 = 0%R) by (unfold a0; rewrite radians_0; exact sin_0).
  assert (Hc90 : cos a90 = 0%R) by (unfold a90; rewrite radians_90; exact cos_PI2).
  assert (Hs90 : sin a90 = 1%R) by (unfold a90; rewrite radians_90; exact sin_PI2).
  clearbody a0 a90. rewrite Hc0, Hs0, Hc90, Hs90.
  apply vec4_eq; ring.
Qed.

Lemma SetTransformations_composition_witness :
  SetTransformations (mkvec3 2 1 1) 0 90 0 (mkvec3 1 0 0)
                     (SceneManager.SceneManager true 1) =
  Some (tt, SceneManager.SceneManager true 1,
        [ setMat4Value "model"
            (mulm (mulm (mulm (mulm (translate (mkvec3 1 0 0))
                                    (rotate (radians 0) (mkvec3 1 0 0)))
                              (rotate (radians 90) (mkvec3 0 1 0)))
                        (rotate (radians 0) (mkvec3 0 0 1)))
                  (scale (mkvec3 2 1 1))) ])
  /\ (forall v,
         mulv (modelView (mkvec3 2 1 1) 0 90 0 (mkvec3 1 0 0)) v =
         mulv (translate (mkvec3 1 0 0))
              (mulv (rotate (radians 0) (mkvec3 1 0 0))
                    (mulv (rotate (radians 90) (mkvec3 0 1 0))
                          (mulv (rotate (radians 0) (mkvec3 0 0 1))
                                (mulv (scale (mkvec3 2 1 1)) v)))))
  /\ mulv (modelView (mkvec3 2 1 1) 0 90 0 (mkvec3 1 0 0)) (mkvec4 3 0 0 1)
     = mkvec4 1 0 (-6) 1.
Proof.
  apply (SetTransformations_composition (mkvec3 2 1 1) 0 90 0 (mkvec3 1 0 0)
           (SceneManager.SceneManager true 1)).
  reflexivity.
Defined.

Lemma CreateGLTexture_unsupported_channels_witness :
  table_ok (SceneManager.SceneManager true 1)
  /\ ~ registered (SceneManager.SceneManager true 1) "grey"
  /\ exists s' evs,
    CreateGLTexture (fun _ => Some (64, 64, 1)) "grey.png" "grey"
                    (SceneManager.SceneManager true 1) = Some (false, s', evs)
    /\ In (cout_not_implemented 1) evs
    /\ m_textureIDs s' = m_textureIDs (SceneManager.SceneManager true 1)
    /\ m_loadedTextures s' = m_loadedTextures (SceneManager.SceneManager true 1)
    /\ (forall t, FindTextureSlot s' t = FindTextureSlot (SceneManager.SceneManager true 1) t)
    /\ (forall t, FindTextureID s' t = FindTextureID (SceneManager.SceneManager true 1) t)
    /\ (forall t, registered s' t <-> registered (SceneManager.SceneManager true 1) t)
    /\ (table_ok (SceneManager.SceneManager true 1) ->
        ~ registered (SceneManager.SceneManager true 1) "grey" ->
        ~ registered s' "grey"
        /\ FindTextureSlot s' "grey" = Some (-1)
        /\ FindTextureID s' "grey" = Some (-1)).
Proof.
  split; [unfold table_ok; simpl; lia|].
  split; [intros (i & t & Hi & _); simpl in Hi; lia|].
  apply (CreateGLTexture_unsupported_channels
           (fun _ => Some (64, 64, 1)) "grey.png" "grey"
           (SceneManager.SceneManager true 1) 64 64 1);
    [reflexivity | lia | lia].
Defined.

(** *** The model at work *)

(** After the setup with a decoder that reads every file as RGB, the tags
    sit in the slots in registration order, a tag that was never
    registered resolves to -1, and the handle lookup gives the OpenGL
    name. *)
Example slots_after_setup :
  option_map (fun r => let s := snd (fst r) in
                       (FindTextureSlot s "mug", FindTextureSlot s "brownBook",
                        FindTextureSlot s "wood", FindTextureID s "table",
                        m_loadedTextures s))
             (PrepareScene all_rgb (SceneManager.SceneManager true 1))
  = Some (Some 0, Some 7, Some (-1), Some 2, 8).
Proof. reflexivity. Qed.

(** A one-channel image is rejected and leaves no entry. *)
Example grey_image_rejected :
  option_map (fun r => (fst (fst r), m_loadedTextures (snd (fst r)),
                        FindTextureSlot (snd (fst r)) "grey"))
             (CreateGLTexture (fun _ => Some (8, 8, 1)) "grey.png" "grey"
                              (SceneManager.SceneManager true 1))
  = Some (false, 0, Some (-1)).
Proof. reflexivity. Qed.

(** A seventeenth successful load stores past the end of the table. *)
Example seventeenth_texture_undefined :
  CreateGLTexture all_rgb "x.jpg" "x"
                  (mkState true (repeat (mkTEXTURE_INFO "t" 5) 16) 16 [] 1) = None.
Proof. reflexivity. Qed.

(** [SetShaderMaterial] goes through the shader manager unguarded. *)
Example null_shader_material_undefined :
  SetShaderMaterial zero_material "glass" (mkState false [] 0 defined_materials 1)
  = None.
Proof. reflexivity. Qed.

End SceneManagerFacts.


(** ** View controller: input handling beyond the claims *)

Section ViewManagerInputs.

Import ViewManager.








(** A pitch within the clamp keeps the cosine positive. *)
Lemma cos_pitch_positive (p : R) : -89 <= p <= 89 -> 0 < cos (radians p).
Proof.
  intros Hp. pose proof PI_RGT_0 as Hpi. unfold radians.
  apply cos_gt_0; nra.
Qed.

Lemma normalize_length (v : vec3) :
  0 < dot3 v v -> dot3 (normalize v) (normalize v) = 1.
Proof.
  intros Hpos. unfold normalize, inversesqrt.
  pose proof (sqrt_lt_R0 _ Hpos) as Hr.
  pose proof (sqrt_sqrt (dot3 v v) (Rlt_le _ _ Hpos)) as Hsq.
  set (r := sqrt (dot3 v v)) in *. clearbody r.
  destruct v as [a b c]. unfold dot3, muls3 in *. cbn [x3 y3 z3] in *.
  replace (a * (1 / r) * (a * (1 / r)) + b * (1 / r) * (b * (1 / r))
           + c * (1 / r) * (c * (1 / r)))
    with ((a * a + b * b + c * c) * (1 / r * (1 / r))) by ring.
  rewrite <- Hsq. field. lra.
Qed.

(** With the pitch within the clamp, the direction of yaw and pitch is
    not parallel to the vertical. *)
Lemma cross_direction_up (yw p : R) :
  -89 <= p <= 89 -> 0 < length2 (cross (direction yw p) (mkvec3 0 1 0)).
Proof.
  intros Hp.
  pose proof (cos_pitch_positive p Hp) as Hcos.
  pose proof (sin2_cos2 (radians yw)) as Hy1. unfold Rsqr in Hy1.
  unfold length2, dot3, cross, direction. cbn [x3 y3 z3].
  set (cy := cos (radians yw)) in *. set (sy := sin (radians yw)) in *.
  set (cp := cos (radians p)) in *. set (sp := sin (radians p)) in *.
  clearbody cy sy cp sp.
  replace ((sp * 0 - 1 * (sy * cp)) * (sp * 0 - 1 * (sy * cp))
           + (sy * cp * 0 - 0 * (cy * cp)) * (sy * cp * 0 - 0 * (cy * cp))
           + (cy * cp * 1 - 0 * sp) * (cy * cp * 1 - 0 * sp))
    with ((sy * sy + cy * cy) * (cp * cp)) by ring.
  rewrite Hy1. nra.
Qed.

(** What the callback stores as front direction, spelled out. *)
Lemma Mouse_Position_Callback_front (x y : R) (s : State) (cam : Camera) :
  g_pCamera s = Some cam ->
  exists s' yw p,
    Mouse_Position_Callback x y s = Some s'
    /\ -89 <= p <= 89
    /\ g_pCamera s' = Some (set_Front (direction yw p) cam).
Proof.
  intros Hcam.
  destruct (Mouse_Position_Callback_result x y s cam Hcam)
    as (s' & yw & p & Hrun & _ & _ & Hp & _ & _ & _ & _ & Hc').
  exists s', yw, p. split; [exact Hrun|]. split; [exact Hp|].
  rewrite Hc', (normalize_unit _ (direction_unit yw p)). reflexivity.
Qed.

(** X2. After a cursor callback the camera never looks straight up or
    down: the vertical component of the front direction is strictly
    between -1 and 1, and with the up direction (0, 1, 0) the strafe axis
    cross(Front, Up) is not the zero vector, so normalizing it gives a unit
    vector. *)
Theorem strafe_axis_defined_after_callback (x y : R) (s : State) (cam : Camera) :
  g_pCamera s = Some cam ->
  Up cam = mkvec3 0 1 0 ->
  exists s' cam',
    Mouse_Position_Callback x y s = Some s'
    /\ g_pCamera s' = Some cam'
    /\ -1 < y3 (Front cam') < 1
    /\ 0 < length2 (cross (Front cam') (Up cam'))
    /\ length2 (normalize (cross (Front cam') (Up cam'))) = 1.
Proof.
  intros Hcam Hup.
  destruct (Mouse_Position_Callback_front x y s cam Hcam)
    as (s' & yw & p & Hrun & Hp & Hc').
  exists s', (set_Front (direction yw p) cam).
  split; [exact Hrun|]. split; [exact Hc'|].
  pose proof (cos_pitch_positive p Hp) as Hcos.
  pose proof (sin2_cos2 (radians p)) as Hp1.
  unfold Rsqr in Hp1.
  assert (Hcross : 0 < length2 (cross (Front (set_Front (direction yw p) cam))
                                      (Up (set_Front (direction yw p) cam)))).
  { cbn [set_Front Front Up]. rewrite Hup. apply cross_direction_up, Hp. }
  split; [| split; [exact Hcross | apply normalize_length, Hcross]].
  cbn [set_Front Front]. unfold direction. cbn [y3].
  set (cp := cos (radians p)) in *. set (sp := sin (radians p)) in *.
  clearbody cp sp. split; nra.
Qed.

Lemma strafe_axis_defined_after_callback_witness :
  exists s' cam',
    Mouse_Position_Callback 500 400 (ViewManager globals) = Some s'
    /\ g_pCamera s' = Some cam'
    /\ -1 < y3 (Front cam') < 1
    /\ 0 < length2 (cross (Front cam') (Up cam'))
    /\ length2 (normalize (cross (Front cam') (Up cam'))) = 1.
Proof.
  apply (strafe_axis_defined_after_callback 500 400 (ViewManager globals)
           default_camera); reflexivity.
Defined.

(** One movement key alone, on a camera with unit front, unit up and a
    non-zero strafe axis, moves the position by the movement speed. *)
Lemma single_key_step (k : Key) (s : State) (cam : Camera) :
  g_pCamera s = Some cam ->
  length2 (Front cam) = 1 ->
  length2 (Up cam) = 1 ->
  0 < length2 (cross (Front cam) (Up cam)) ->
  moves k = true ->
  exists cam',
    g_pCamera (ProcessKeyboardEvents (only k) s) = Some cam'
    /\ length2 (sub3 (Position cam') (Position cam))
       = MovementSpeed cam * MovementSpeed cam.
Proof.
  intros Hcam Hf Hu Hc Hk.
  destruct cam as [[px py pz] [fx fy fz] [ux uy uz] zoom v].
  destruct s as [c lx ly fm yw p fv dt lf ob cd wc].
  cbn [g_pCamera] in Hcam. subst c.
  cbn [Front Up MovementSpeed Position] in *.
  pose proof (normalize_length _ Hc) as Hn.
  unfold length2, dot3 in Hf, Hu, Hn. cbn [x3 y3 z3] in Hf, Hu.
  destruct k; try discriminate Hk;
    (eexists; split; [reflexivity|]);
    unfold length2, dot3, sub3, add3, smul3, muls3;
    cbn [set_Position Position Front Up MovementSpeed x3 y3 z3];
    set (n := normalize (cross (mkvec3 fx fy fz) (mkvec3 ux uy uz))) in *;
    clearbody n; destruct n as [nx ny nz]; cbn [x3 y3 z3] in *.
  - replace ((px + v * fx - px) * (px + v * fx - px)
             + (py + v * fy - py) * (py + v * fy - py)
             + (pz + v * fz - pz) * (pz + v * fz - pz))
      with (v * v * (fx * fx + fy * fy + fz * fz)) by ring.
    rewrite Hf. ring.
  - replace ((px - v * fx - px) * (px - v * fx - px)
             + (py - v * fy - py) * (py - v * fy - py)
             + (pz - v * fz - pz) * (pz - v * fz - pz))
      with (v * v * (fx * fx + fy * fy + fz * fz)) by ring.
    rewrite Hf. ring.
  - replace ((px - nx * v - px) * (px - nx * v - px)
             + (py - ny * v - py) * (py - ny * v - py)
             + (pz - nz * v - pz) * (pz - nz * v - pz))
      with (v * v * (nx * nx + ny * ny + nz * nz)) by ring.
    rewrite Hn. ring.
  - replace ((px + nx * v - px) * (px + nx * v - px)
             + (py + ny * v - py) * (py + ny * v - py)
             + (pz + nz * v - pz) * (pz + nz * v - pz))
      with (v * v * (nx * nx + ny * ny + nz * nz)) by ring.
    rewrite Hn. ring.
  - replace ((px + ux * v - px) * (px + ux * v - px)
             + (py + uy * v - py) * (py + uy * v - py)
             + (pz + uz * v - pz) * (pz + uz * v - pz))
      with (v * v * (ux * ux + uy * uy + uz * uz)) by ring.
    rewrite Hu. ring.
  - replace ((px - ux * v - px) * (px - ux * v - px)
             + (py - uy * v - py) * (py - uy * v - py)
             + (pz - uz * v - pz) * (pz - uz * v - pz))
      with (v * v * (ux * ux + uy * uy + uz * uz)) by ring.
    rewrite Hu. ring.
Qed.

(** X3. After a cursor callback, on a camera whose up direction is
    (0, 1, 0), each movement key pressed alone (W, S, A, D, Q or E) moves
    the camera position by exactly the movement speed: the squared
    distance is the square of the speed. *)
Theorem movement_key_moves_by_speed (k : Key) (x y : R) (s : State) (cam : Camera) :
  g_pCamera s = Some cam ->
  Up cam = mkvec3 0 1 0 ->
  moves k = true ->
  exists s1 cam1 cam2,
    Mouse_Position_Callback x y s = Some s1
    /\ g_pCamera s1 = Some cam1
    /\ g_pCamera (ProcessKeyboardEvents (only k) s1) = Some cam2
    /\ length2 (sub3 (Position cam2) (Position cam1))
       = MovementSpeed cam1 * MovementSpeed cam1.
Proof.
  intros Hcam Hup Hk.
  destruct (Mouse_Position_Callback_front x y s cam Hcam)
    as (s1 & yw & p & Hrun & Hp & Hc1).
  destruct (single_key_step k s1 (set_Front (direction yw p) cam) Hc1)
    as (cam2 & Hc2 & Hstep).
  - apply direction_unit.
  - cbn [set_Front Up]. rewrite Hup. unfold length2, dot3. cbn [x3 y3 z3]. ring.
  - cbn [set_Front Front Up]. rewrite Hup. apply cross_direction_up, Hp.
  - exact Hk.
  - exists s1, (set_Front (direction yw p) cam), cam2. auto.
Qed.

Lemma movement_key_moves_by_speed_witness :
  exists s1 cam1 cam2,
    Mouse_Position_Callback 500 400 (ViewManager globals) = Some s1
    /\ g_pCamera s1 = Some cam1
    /\ g_pCamera (ProcessKeyboardEvents (only KEY_A) s1) = Some cam2
    /\ length2 (sub3 (Position cam2) (Position cam1))
       = MovementSpeed cam1 * MovementSpeed cam1.
Proof.
  apply (movement_key_moves_by_speed KEY_A 500 400 (ViewManager globals)
           default_camera); reflexivity.
Defined.

Lemma keeps_refl (s : State) : keeps_orientation s s.
Proof. unfold keeps_orientation. repeat split; reflexivity. Qed.

Lemma keeps_trans (s1 s2 s3 : State) :
  keeps_orientation s1 s2 -> keeps_orientation s2 s3 -> keeps_orientation s1 s3.
Proof.
  unfold keeps_orientation.
  intros (A1 & A2 & A3 & A4 & A5 & A6 & A7 & A8 & A9 & A10 & A11 & A12 & A13)
         (B1 & B2 & B3 & B4 & B5 & B6 & B7 & B8 & B9 & B10 & B11 & B12 & B13).
  repeat split; congruence.
Qed.

Lemma keeps_move (g : Camera -> vec3) (b : bool) (s : State) :
  keeps_orientation s
    (if b then on_camera (fun c => set_Position (g c) c) s else s).
Proof.
  destruct b; [| apply keeps_refl].
  unfold keeps_orientation, on_camera.
  destruct s as [[cam |] lx ly fm yw p fv dt lf ob cd wc];
    cbn; repeat split; reflexivity.
Qed.

Lemma keeps_flag (b : bool) (v : bool) (s : State) :
  keeps_orientation s (if b then set_orthographic v s else s)
  /\ keeps_orientation s (if b then set_should_close v s else s).
Proof.
  destruct b; split; try apply keeps_refl;
    unfold keeps_orientation; cbn; repeat split; reflexivity.
Qed.

Lemma keeps_let (s e : State) (body : State -> State) :
  keeps_orientation s e ->
  (forall s2, keeps_orientation s s2 -> keeps_orientation s (body s2)) ->
  keeps_orientation s (let s2 := e in body s2).
Proof. intros He Hbody. exact (Hbody e He). Qed.

Lemma ProcessKeyboardEvents_keeps_orientation (pressed : Key -> bool) (s : State) :
  keeps_orientation s (ProcessKeyboardEvents pressed s).
Proof.
  cbv beta delta [ProcessKeyboardEvents].
  lazymatch goal with
  | |- keeps_orientation ?s0 (let x := ?e in @?body x) =>
      apply (keeps_let s0 e body); [apply keeps_flag | intros s1 H1; cbv beta]
  end.
  destruct (g_pCamera s1); [| exact H1].
  do 6 (lazymatch goal with
        | |- keeps_orientation ?s0 (let x := ?e in @?body x) =>
            apply (keeps_let s0 e body);
            [ eapply keeps_trans; [exact H1 | apply keeps_move]
            | clear s1 H1; intros s1 H1; cbv beta ]
        end).
  do 2 (lazymatch goal with
        | |- keeps_orientation ?s0 (let x := ?e in @?body x) =>
            apply (keeps_let s0 e body);
            [ eapply keeps_trans; [exact H1 | apply keeps_flag]
            | clear s1 H1; intros s1 H1; cbv beta ]
        end).
  exact H1.
Qed.

(** X5. [ProcessKeyboardEvents] changes nothing but the camera position,
    the projection flag and the close request: yaw, pitch, the cursor
    bookkeeping, the frame clock, and the camera's front, up, zoom and
    movement speed are as before, and it neither allocates nor frees the
    camera. *)
Theorem keyboard_leaves_orientation (pressed : Key -> bool) (s : State) :
  let s' := ProcessKeyboardEvents pressed s in
  yaw s' = yaw s /\ pitch s' = pitch s /\ fov s' = fov s
  /\ gLastX s' = gLastX s /\ gLastY s' = gLastY s
  /\ gFirstMouse s' = gFirstMouse s /\ cursorDisabled s' = cursorDisabled s
  /\ gDeltaTime s' = gDeltaTime s /\ gLastFrame s' = gLastFrame s
  /\ option_map Front (g_pCamera s') = option_map Front (g_pCamera s)
  /\ option_map Up (g_pCamera s') = option_map Up (g_pCamera s)
  /\ option_map Zoom (g_pCamera s') = option_map Zoom (g_pCamera s)
  /\ option_map MovementSpeed (g_pCamera s')
     = option_map MovementSpeed (g_pCamera s).
Proof. exact (ProcessKeyboardEvents_keeps_orientation pressed s). Qed.

Lemma projection_flag (pressed : Key -> bool) (s : State) :
  bOrthographicProjection (ProcessKeyboardEvents pressed s)
  = match g_pCamera s with
    | None => bOrthographicProjection s
    | Some _ =>
        if pressed KEY_O then true
        else if pressed KEY_P then false
        else bOrthographicProjection s
    end
  /\ windowShouldClose (ProcessKeyboardEvents pressed s)
     = (pressed KEY_ESCAPE || windowShouldClose s)%bool.
Proof.
  destruct s as [[cam |] lx ly fm yw p fv dt lf ob cd wc];
    unfold ProcessKeyboardEvents;
    destruct (pressed KEY_ESCAPE), (pressed KEY_W), (pressed KEY_S),
             (pressed KEY_A), (pressed KEY_D), (pressed KEY_Q), (pressed KEY_E),
             (pressed KEY_P), (pressed KEY_O);
    cbn; split; reflexivity.
Qed.

(** X6. The projection mode and the close request as a transition: with a
    camera, O selects orthographic, else P selects perspective, else the
    mode stays; without a camera the mode stays.  Escape sets the close
    request, which is never cleared. *)
Theorem projection_mode_transition (pressed : Key -> bool) (s : State) :
  bOrthographicProjection (ProcessKeyboardEvents pressed s)
  = match g_pCamera s with
    | None => bOrthographicProjection s
    | Some _ =>
        if pressed KEY_O then true
        else if pressed KEY_P then false
        else bOrthographicProjection s
    end
  /\ windowShouldClose (ProcessKeyboardEvents pressed s)
     = (pressed KEY_ESCAPE || windowShouldClose s)%bool.
Proof. exact (projection_flag pressed s). Qed.

(** X7. The two callbacks dereference the camera pointer unguarded: with
    no camera -- before the view manager is constructed, and after its
    destructor ran -- a cursor or scroll event is undefined behaviour,
    while [ProcessKeyboardEvents] then handles Escape and nothing else. *)
Theorem callbacks_need_camera (s : State) (x y : R) (pressed : Key -> bool) :
  g_pCamera (ViewManager_destructor s) = None
  /\ Mouse_Position_Callback x y (ViewManager_destructor s) = None
  /\ scrollCallback x y (ViewManager_destructor s) = None
  /\ Mouse_Position_Callback x y globals = None
  /\ scrollCallback x y globals = None
  /\ ProcessKeyboardEvents pressed (ViewManager_destructor s)
     = (if pressed KEY_ESCAPE
        then set_should_close true (ViewManager_destructor s)
        else ViewManager_destructor s).
Proof.
  repeat split; try reflexivity.
  - unfold Mouse_Position_Callback. destruct (gFirstMouse _); reflexivity.
  - unfold ProcessKeyboardEvents. destruct (pressed KEY_ESCAPE); reflexivity.
Qed.

Lemma scroll_clamp_cases (v : R) :
  let v' := if Rlt_dec 1 (if Rlt_dec v 0.1 then 0.1 else v) then 1
            else (if Rlt_dec v 0.1 then 0.1 else v) in
  (v < 0.1 -> v' = 0.1) /\ (0.1 <= v <= 1 -> v' = v) /\ (1 < v -> v' = 1).
Proof. cbv zeta. repeat destruct Rlt_dec; repeat split; intros; lra. Qed.

(** X8. A scroll event changes nothing but the movement speed.  For a
    speed within [0.1, 1], the new speed is the old one plus a tenth of the
    vertical offset when that lies within [0.1, 1], 1 when it is above and
    0.1 when it is below; so scrolling up never slows the camera and
    scrolling down never speeds it up. *)
Theorem scroll_adjusts_speed (xOffset yOffset : R) (s : State) (cam : Camera) :
  g_pCamera s = Some cam ->
  0.1 <= MovementSpeed cam <= 1 ->
  exists v,
    scrollCallback xOffset yOffset s
    = Some (set_camera (Some (set_MovementSpeed v cam)) s)
    /\ (0.1 <= MovementSpeed cam + yOffset * 0.1 <= 1 ->
        v = MovementSpeed cam + yOffset * 0.1)
    /\ (1 < MovementSpeed cam + yOffset * 0.1 -> v = 1)
    /\ (MovementSpeed cam + yOffset * 0.1 < 0.1 -> v = 0.1)
    /\ (0 <= yOffset -> MovementSpeed cam <= v)
    /\ (yOffset <= 0 -> v <= MovementSpeed cam).
Proof.
  intros Hcam Hv. unfold scrollCallback. rewrite Hcam.
  eexists. split; [reflexivity|].
  destruct (scroll_clamp_cases (MovementSpeed cam + yOffset * 0.1))
    as (Hlow & Hmid & Hhigh).
  cbv zeta in Hlow, Hmid, Hhigh.
  set (u := MovementSpeed cam + yOffset * 0.1) in *.
  set (v := if Rlt_dec 1 (if Rlt_dec u 0.1 then 0.1 else u) then 1
            else (if Rlt_dec u 0.1 then 0.1 else u)) in *.
  clearbody v.
  split; [exact Hmid|]. split; [exact Hhigh|]. split; [exact Hlow|].
  split; intros Hy;
    destruct (Rlt_dec u 0.1) as [L |];
    try (rewrite (Hlow L); unfold u in *; lra);
    destruct (Rlt_dec 1 u) as [H |];
    try (rewrite (Hhigh H); unfold u in *; lra);
    rewrite Hmid by lra; unfold u; lra.
Qed.

Lemma scroll_adjusts_speed_witness :
  exists v,
    scrollCallback 0 3 (ViewManager globals)
    = Some (set_camera (Some (set_MovementSpeed v default_camera))
                       (ViewManager globals))
    /\ (0.1 <= MovementSpeed default_camera + 3 * 0.1 <= 1 ->
        v = MovementSpeed default_camera + 3 * 0.1)
    /\ (1 < MovementSpeed default_camera + 3 * 0.1 -> v = 1)
    /\ (MovementSpeed default_camera + 3 * 0.1 < 0.1 -> v = 0.1)
    /\ (0 <= 3 -> MovementSpeed default_camera <= v)
    /\ (3 <= 0 -> v <= MovementSpeed default_camera).
Proof.
  apply (scroll_adjusts_speed 0 3 (ViewManager globals) default_camera);
    [reflexivity | cbn [default_camera MovementSpeed]; lra].
Defined.

End ViewManagerInputs.

(** ** View controller: the per-frame update *)

Section ViewFrameFacts.

Import ViewManager ViewFrame.

(** Key processing does not read the frame clock. *)
Lemma ProcessKeyboardEvents_set_frame_time
      (pressed : Key -> bool) (delta last : R) (s : State) :
  ProcessKeyboardEvents pressed (set_frame_time delta last s)
  = set_frame_time delta last (ProcessKeyboardEvents pressed s).
Proof.
  destruct s as [[cam |] lx ly fm yw p fv dt lf ob cd wc];
    unfold ProcessKeyboardEvents;
    destruct (pressed KEY_ESCAPE), (pressed KEY_W), (pressed KEY_S),
             (pressed KEY_A), (pressed KEY_D), (pressed KEY_Q), (pressed KEY_E),
             (pressed KEY_P), (pressed KEY_O);
    reflexivity.
Qed.

(** X9. One frame with a camera: [PrepareSceneView] returns; the camera
    and the projection flag afterwards are those key processing alone
    leaves, whatever the clock reads (movement is not scaled by the frame
    time); the clock fields hold the current time and the time since the
    previous frame; and with a shader manager exactly the uniforms view,
    projection and viewPosition are published, in this order, from the
    camera as moved in this frame -- nothing without one. *)
Theorem frame_update (GetViewMatrix : Camera -> mat4)
        (pShaderManager : bool) (currentFrame : R)
        (pressed : Key -> bool) (s : State) (cam : Camera) :
  g_pCamera s = Some cam ->
  exists s' cam' log,
    PrepareSceneView GetViewMatrix pShaderManager currentFrame pressed s
    = Some (s', log)
    /\ g_pCamera (ProcessKeyboardEvents pressed s) = Some cam'
    /\ g_pCamera s' = Some cam'
    /\ bOrthographicProjection s'
       = bOrthographicProjection (ProcessKeyboardEvents pressed s)
    /\ gLastFrame s' = currentFrame
    /\ gDeltaTime s' = currentFrame - gLastFrame s
    /\ log = (if pShaderManager
              then [ SceneManager.setMat4Value "view" (GetViewMatrix cam');
                     SceneManager.setMat4Value "projection"
                       (projection_of (bOrthographicProjection s') cam');
                     SceneManager.setVec3Value "viewPosition" (Position cam') ]
              else []).
Proof.
  intros Hcam.
  destruct (ProcessKeyboardEvents_keeps pressed s cam Hcam) as (cam' & Hc' & _).
  unfold PrepareSceneView. rewrite ProcessKeyboardEvents_set_frame_time.
  cbn [set_frame_time g_pCamera bOrthographicProjection]. rewrite Hc'.
  eexists; exists cam'; eexists. split; [reflexivity|].
  cbn [set_frame_time g_pCamera bOrthographicProjection gLastFrame gDeltaTime].
  repeat split; try reflexivity; exact Hc'.
Qed.

Lemma frame_update_witness :
  exists s' cam' log,
    PrepareSceneView (fun _ : Camera => identity) true 2 (only KEY_W) (ViewManager globals)
    = Some (s', log)
    /\ g_pCamera (ProcessKeyboardEvents (only KEY_W) (ViewManager globals))
       = Some cam'
    /\ g_pCamera s' = Some cam'
    /\ bOrthographicProjection s'
       = bOrthographicProjection
           (ProcessKeyboardEvents (only KEY_W) (ViewManager globals))
    /\ gLastFrame s' = 2
    /\ gDeltaTime s' = 2 - gLastFrame (ViewManager globals)
    /\ log = (if true
              then [ SceneManager.setMat4Value "view" ((fun _ : Camera => identity) cam');
                     SceneManager.setMat4Value "projection"
                       (projection_of (bOrthographicProjection s') cam');
                     SceneManager.setVec3Value "viewPosition" (Position cam') ]
              else []).
Proof.
  apply (frame_update (fun _ => identity) true 2 (only KEY_W) (ViewManager globals) default_camera).
  reflexivity.
Defined.

(** The camera and the mode key processing leaves, as far as the
    projection needs them. *)
Lemma frame_ingredients (pressed : Key -> bool) (s : State) (cam : Camera) :
  g_pCamera s = Some cam ->
  exists cam',
    g_pCamera (ProcessKeyboardEvents pressed s) = Some cam'
    /\ Zoom cam' = Zoom cam
    /\ bOrthographicProjection (ProcessKeyboardEvents pressed s)
       = (if pressed KEY_O then true
          else if pressed KEY_P then false
          else bOrthographicProjection s).
Proof.
  intros Hcam.
  destruct (ProcessKeyboardEvents_keeps pressed s cam Hcam) as (cam' & Hc' & _).
  exists cam'. split; [exact Hc'|].
  pose proof (ProcessKeyboardEvents_keeps_orientation pressed s) as K.
  destruct K as (_ & _ & _ & _ & _ & _ & _ & _ & _ & _ & _ & Hz & _).
  rewrite Hc', Hcam in Hz. cbn in Hz. split; [congruence|].
  destruct (projection_flag pressed s) as (Hm & _).
  rewrite Hm, Hcam. reflexivity.
Qed.

Lemma ortho_point (x y z : R) :
  mulv (ortho (-10) 10 (-10) 10 0.1 100) (mkvec4 x y z 1)
  = mkvec4 (x / 10) (y / 10) (- (2 * z + 100.1) / 99.9) 1.
Proof.
  unfold ortho, mulv, add4, smul4. cbn [x4 y4 z4 w4 col0 col1 col2 col3].
  apply vec4_eq; lra.
Qed.

(** X10. The projection published in a frame follows the keys of that
    same frame: with O down it is the orthographic matrix, which maps the
    box of half-extent 10 between the depths 0.1 and 100 onto the cube
    from -1 to 1; with P down and O up it is the perspective matrix of the
    camera's zoom at aspect 1000/800; with neither it follows the mode the
    previous frames left. *)
Theorem frame_projection (GetViewMatrix : Camera -> mat4)
        (currentFrame : R) (pressed : Key -> bool) (s : State) (cam : Camera) :
  g_pCamera s = Some cam ->
  exists s' view position projection,
    PrepareSceneView GetViewMatrix true currentFrame pressed s
    = Some (s', [ SceneManager.setMat4Value "view" view;
                  SceneManager.setMat4Value "projection" projection;
                  SceneManager.setVec3Value "viewPosition" position ])
    /\ (pressed KEY_O = true ->
        projection = ortho (-10) 10 (-10) 10 0.1 100
        /\ forall x y z,
            mulv projection (mkvec4 x y z 1)
            = mkvec4 (x / 10) (y / 10) (- (2 * z + 100.1) / 99.9) 1)
    /\ (pressed KEY_O = false -> pressed KEY_P = true ->
        projection = perspective (radians (Zoom cam)) (1000 / 800) 0.1 100)
    /\ (pressed KEY_O = false -> pressed KEY_P = false ->
        projection = projection_of (bOrthographicProjection s) cam).
Proof.
  intros Hcam.
  destruct (frame_ingredients pressed s cam Hcam) as (cam' & Hc' & Hzoom & Hmode).
  unfold PrepareSceneView. rewrite ProcessKeyboardEvents_set_frame_time.
  cbn [set_frame_time g_pCamera bOrthographicProjection]. rewrite Hc'.
  eexists; eexists; eexists; eexists. split; [reflexivity|].
  rewrite Hmode. unfold projection_of. rewrite Hzoom.
  split; [| split].
  - intros HO. rewrite HO. split; [reflexivity|]. intros. apply ortho_point.
  - intros HO HP. rewrite HO, HP. reflexivity.
  - intros HO HP. rewrite HO, HP. reflexivity.
Qed.

Lemma frame_projection_witness :
  exists s' view position projection,
    PrepareSceneView (fun _ => identity) true 2 (only KEY_O) (ViewManager globals)
    = Some (s', [ SceneManager.setMat4Value "view" view;
                  SceneManager.setMat4Value "projection" projection;
                  SceneManager.setVec3Value "viewPosition" position ])
    /\ (only KEY_O KEY_O = true ->
        projection = ortho (-10) 10 (-10) 10 0.1 100
        /\ forall x y z,
            mulv projection (mkvec4 x y z 1)
            = mkvec4 (x / 10) (y / 10) (- (2 * z + 100.1) / 99.9) 1)
    /\ (only KEY_O KEY_O = false -> only KEY_O KEY_P = true ->
        projection = perspective (radians (Zoom default_camera)) (1000 / 800) 0.1 100)
    /\ (only KEY_O KEY_O = false -> only KEY_O KEY_P = false ->
        projection
        = projection_of (bOrthographicProjection (ViewManager globals))
                        default_camera).
Proof.
  apply (frame_projection (fun _ => identity) 2 (only KEY_O) (ViewManager globals)
           default_camera).
  reflexivity.
Defined.

(** X11. Without a camera [PrepareSceneView] is undefined behaviour (it
    asks the camera for the view matrix unguarded), although the key
    processing it runs first tolerates the missing camera. *)
Theorem frame_needs_camera (GetViewMatrix : Camera -> mat4)
        (pShaderManager : bool) (currentFrame : R) (pressed : Key -> bool)
        (s : State) :
  g_pCamera s = None ->
  PrepareSceneView GetViewMatrix pShaderManager currentFrame pressed s = None
  /\ g_pCamera (ProcessKeyboardEvents pressed s) = None.
Proof.
  intros Hnone.
  assert (Hk : g_pCamera (ProcessKeyboardEvents pressed s) = None).
  { unfold ProcessKeyboardEvents.
    destruct (pressed KEY_ESCAPE); cbn [set_should_close g_pCamera];
      rewrite Hnone; cbn [set_should_close g_pCamera]; exact Hnone. }
  split; [| exact Hk].
  unfold PrepareSceneView. rewrite ProcessKeyboardEvents_set_frame_time.
  cbn [set_frame_time g_pCamera]. rewrite Hk. reflexivity.
Qed.

Lemma frame_needs_camera_witness :
  PrepareSceneView (fun _ => identity) true 2 (fun _ => true) globals = None
  /\ g_pCamera (ProcessKeyboardEvents (fun _ => true) globals) = None.
Proof.
  apply (frame_needs_camera (fun _ => identity) true 2 (fun _ => true) globals).
  reflexivity.
Defined.

End ViewFrameFacts.

(** ** Scene composer: the texture table beyond the claims *)

Section SceneManagerTextures.

Import SceneManager.
Local Open Scope Z_scope.
Local Open Scope string_scope.

(** *** Lists *)

Lemma skipn_nth_error {A} (l : list A) :
  forall (i : nat) (a : A),
    nth_error l i = Some a -> skipn i l = a :: skipn (S i) l.
Proof.
  induction l as [| b l IH]; intros [| i] a H; try discriminate.
  - injection H as ->. reflexivity.
  - exact (IH i a H).
Qed.

Lemma store_spec {A} (l : list A) :
  forall (i : nat) (v : A) (l' : list A),
    store l i v = Some l' ->
    List.length l' = List.length l
    /\ nth_error l' i = Some v
    /\ (forall j, j <> i -> nth_error l' j = nth_error l j)
    /\ firstn (S i) l' = (firstn i l ++ [v])%list.
Proof.
  induction l as [| a l IH]; intros i v l' H; [destruct i; discriminate|].
  destruct i as [| i]; cbn [store] in H.
  - injection H as <-. repeat split; try reflexivity.
    intros [| j] Hj; [congruence | reflexivity].
  - destruct (store l i v) as [rest |] eqn:E; [| discriminate].
    injection H as <-. destruct (IH i v rest E) as (Hlen & Hi & Hother & Hfirst).
    repeat split.
    + cbn [List.length]. congruence.
    + exact Hi.
    + intros [| j] Hj; [reflexivity|]. apply Hother. congruence.
    + change (firstn (S (S i)) (a :: rest)) with (a :: firstn (S i) rest).
      rewrite Hfirst. reflexivity.
Qed.

Lemma store_None {A} (l : list A) :
  forall (i : nat) (v : A), (List.length l <= i)%nat -> store l i v = None.
Proof.
  induction l as [| a l IH]; intros i v Hi; [reflexivity|].
  destruct i as [| i]; cbn [List.length] in Hi; [lia|].
  cbn [store]. rewrite IH by lia. reflexivity.
Qed.

Lemma index_of_bounds (tags : list string) (tg : string) :
  forall index,
    (index_of tags tg index = -1 /\ ~ In tg tags)
    \/ (index <= index_of tags tg index < index + Z.of_nat (List.length tags)
        /\ nth_error tags (Z.to_nat (index_of tags tg index - index)) = Some tg).
Proof.
  induction tags as [| t tags IH]; intros index; cbn [index_of].
  - left. split; [reflexivity | intros []].
  - destruct (String.eqb t tg) eqn:E.
    + right. apply String.eqb_eq in E. subst t. cbn [List.length].
      split; [lia|]. replace (index - index) with 0 by lia. reflexivity.
    + apply String.eqb_neq in E.
      destruct (IH (index + 1)) as [(Hm & Hno) | (Hr & Hn)].
      * left. split; [exact Hm|]. intros [H | H]; [congruence | exact (Hno H)].
      * right. cbn [List.length]. split; [lia|].
        replace (Z.to_nat (index_of tags tg (index + 1) - index))
          with (S (Z.to_nat (index_of tags tg (index + 1) - (index + 1)))) by lia.
        exact Hn.
Qed.

Lemma index_of_app (l l' : list string) (tg : string) :
  forall index,
    index_of (l ++ l') tg index
    = if in_dec string_dec tg l then index_of l tg index
      else index_of l' tg (index + Z.of_nat (List.length l)).
Proof.
  induction l as [| t l IH]; intros index.
  - cbn [app List.length]. destruct (in_dec string_dec tg []) as [[] |].
    f_equal. cbn. lia.
  - cbn [app index_of]. destruct (String.eqb t tg) eqn:E.
    + apply String.eqb_eq in E.
      destruct (in_dec string_dec tg (t :: l)) as [_ | Hno]; [reflexivity|].
      exfalso. apply Hno. left. exact E.
    + apply String.eqb_neq in E. rewrite IH.
      destruct (in_dec string_dec tg l) as [Hin | Hno],
               (in_dec string_dec tg (t :: l)) as [Hin' | Hno'].
      * reflexivity.
      * exfalso. apply Hno'. right. exact Hin.
      * exfalso. destruct Hin' as [H | H]; [congruence | exact (Hno H)].
      * f_equal. cbn [List.length]. lia.
Qed.

(** *** Lookups as list functions *)

Lemma find_texture_slot_index (table : list TEXTURE_INFO) (tg : string) (fuel : nat) :
  forall i : nat,
    (i + fuel <= List.length table)%nat ->
    find_texture table tg (fun index _ => index) fuel (Z.of_nat i)
    = Some (index_of (map tag (firstn fuel (skipn i table))) tg (Z.of_nat i)).
Proof.
  induction fuel as [| fuel IH]; intros i Hlen; cbn [find_texture].
  - reflexivity.
  - rewrite Nat2Z.id.
    destruct (nth_error table i) as [t |] eqn:Hnth.
    2:{ apply nth_error_None in Hnth. lia. }
    rewrite (skipn_nth_error table i t Hnth). cbn [firstn map index_of].
    destruct (String.eqb (tag t) tg); [reflexivity|].
    replace (Z.of_nat i + 1) with (Z.of_nat (S i)) by lia.
    apply IH. lia.
Qed.

Lemma find_texture_id_find (table : list TEXTURE_INFO) (tg : string) (fuel : nat) :
  forall i : nat,
    (i + fuel <= List.length table)%nat ->
    find_texture table tg (fun _ t => int_of_GLuint (ID t)) fuel (Z.of_nat i)
    = Some (match find (fun t => String.eqb (tag t) tg) (firstn fuel (skipn i table)) with
            | Some t => int_of_GLuint (ID t)
            | None => -1
            end).
Proof.
  induction fuel as [| fuel IH]; intros i Hlen; cbn [find_texture].
  - reflexivity.
  - rewrite Nat2Z.id.
    destruct (nth_error table i) as [t |] eqn:Hnth.
    2:{ apply nth_error_None in Hnth. lia. }
    rewrite (skipn_nth_error table i t Hnth). cbn [firstn find].
    destruct (String.eqb (tag t) tg); [reflexivity|].
    replace (Z.of_nat i + 1) with (Z.of_nat (S i)) by lia.
    apply IH. lia.
Qed.

Lemma FindTextureSlot_index (s : State) (tg : string) :
  table_ok s -> FindTextureSlot s tg = Some (index_of (loaded_tags s) tg 0).
Proof.
  intros Hok. unfold FindTextureSlot, loaded_tags, loaded_entries.
  apply (find_texture_slot_index _ tg _ 0%nat). apply table_ok_fuel, Hok.
Qed.

Lemma FindTextureID_find (s : State) (tg : string) :
  table_ok s ->
  FindTextureID s tg
  = Some (match find (fun t => String.eqb (tag t) tg) (loaded_entries s) with
          | Some t => int_of_GLuint (ID t)
          | None => -1
          end).
Proof.
  intros Hok. unfold FindTextureID, loaded_entries.
  apply (find_texture_id_find _ tg _ 0%nat). apply table_ok_fuel, Hok.
Qed.

(** The conversion to [int] keeps a name up to [INT_MAX] and turns a
    larger one negative. *)
Lemma int_of_GLuint_small (n : Z) :
  0 <= n <= 2147483647 -> int_of_GLuint n = n.
Proof.
  intros Hn. unfold int_of_GLuint. rewrite Z.mod_small; lia.
Qed.

Lemma int_of_GLuint_large (n : Z) :
  2147483647 < n < 4294967296 -> int_of_GLuint n = n - 4294967296.
Proof.
  intros Hn. unfold int_of_GLuint.
  replace (n + 2147483648) with (n - 2147483648 + 1 * 4294967296) by lia.
  rewrite Z.mod_add by lia. rewrite Z.mod_small; lia.
Qed.

(** The entry [find] returns sits at the index [index_of] returns. *)
Lemma find_at_index (entries : list TEXTURE_INFO) (tg : string) :
  forall index,
    match find (fun t => String.eqb (tag t) tg) entries with
    | Some t =>
        nth_error entries (Z.to_nat (index_of (map tag entries) tg index - index))
        = Some t
        /\ index <= index_of (map tag entries) tg index
    | None => index_of (map tag entries) tg index = -1
    end.
Proof.
  induction entries as [| t entries IH]; intros index; cbn [find map index_of].
  - reflexivity.
  - destruct (String.eqb (tag t) tg).
    + replace (index - index) with 0 by lia. split; [reflexivity | lia].
    + specialize (IH (index + 1)).
      destruct (find (fun t0 => String.eqb (tag t0) tg) entries) as [t' |].
      * destruct IH as (Hn & Hle). split; [| lia].
        replace (Z.to_nat (index_of (map tag entries) tg (index + 1) - index))
          with (S (Z.to_nat (index_of (map tag entries) tg (index + 1) - (index + 1))))
          by lia.
        exact Hn.
      * exact IH.
Qed.

Lemma registered_loaded_tags (s : State) (tg : string) :
  registered s tg <-> In tg (loaded_tags s).
Proof.
  unfold registered, loaded_tags, loaded_entries. split.
  - intros (i & t & Hi & Hn & Ht). apply in_map_iff. exists t. split; [exact Ht|].
    apply (nth_error_In _ i). rewrite nth_error_firstn.
    destruct (Nat.ltb_spec i (Z.to_nat (m_loadedTextures s))); [exact Hn | lia].
  - intros Hin. apply in_map_iff in Hin. destruct Hin as (t & Ht & Hin).
    apply In_nth_error in Hin. destruct Hin as (i & Hn).
    rewrite nth_error_firstn in Hn.
    destruct (Nat.ltb_spec i (Z.to_nat (m_loadedTextures s))); [| discriminate].
    exists i, t. repeat split; auto. lia.
Qed.

(** *** Registration *)

Lemma bind_None_r {A B} (m : M A) (k : A -> M B) (s s1 : State)
      (a : A) (e1 : list event) :
  m s = Some (a, s1, e1) -> k a s1 = None -> bind m k s = None.
Proof. intros H1 H2. unfold bind. rewrite H1, H2. reflexivity. Qed.

Lemma bind_None_l {A B} (m : M A) (k : A -> M B) (s : State) :
  m s = None -> bind m k s = None.
Proof. intros H. unfold bind. rewrite H. reflexivity. Qed.

Lemma decodes_true (stbi_load : string -> option (Z * Z * Z)) (filename : string) :
  decodes stbi_load filename = true <-> decodable stbi_load filename.
Proof.
  unfold decodes, decodable. split.
  - destruct (stbi_load filename) as [[[w h] c] |]; [| discriminate].
    intros H. exists w, h, c. split; [reflexivity|].
    apply orb_true_iff in H. destruct H as [H | H]; apply Z.eqb_eq in H; lia.
  - intros (w & h & c & -> & [-> | ->]); reflexivity.
Qed.

(** A successful [CreateGLTexture]: the state afterwards, entry by entry. *)
Lemma CreateGLTexture_registers (stbi_load : string -> option (Z * Z * Z))
      (filename tg : string) (s : State) :
  0 <= m_loadedTextures s ->
  m_loadedTextures s < Z.of_nat (List.length (m_textureIDs s)) ->
  decodes stbi_load filename = true ->
  exists s' evs,
    CreateGLTexture stbi_load filename tg s = Some (true, s', evs)
    /\ loaded_entries s' = (loaded_entries s ++ [mkTEXTURE_INFO tg (glNextName s)])%list
    /\ m_loadedTextures s' = m_loadedTextures s + 1
    /\ List.length (m_textureIDs s') = List.length (m_textureIDs s)
    /\ glNextName s' = glNextName s + 1
    /\ m_pShaderManager s' = m_pShaderManager s
    /\ m_objectMaterials s' = m_objectMaterials s
    /\ quiet evs.
Proof.
  intros H0 Hlt Hdec.
  destruct (store_Some (m_textureIDs s) (Z.to_nat (m_loadedTextures s))
                       (mkTEXTURE_INFO tg (glNextName s)) ltac:(lia))
    as (table & Hstore & Hlen).
  destruct (store_spec _ _ _ _ Hstore) as (_ & _ & _ & Hfirst).
  assert (Hreg : register_texture (glNextName s) tg (next_name s)
                 = Some (true,
                         mkState (m_pShaderManager s) table (m_loadedTextures s + 1)
                                 (m_objectMaterials s) (glNextName s + 1),
                         [glGenerateMipmap; stbi_image_free; glBindTexture 0])).
  { unfold register_texture.
    eapply (bind_Some _ _ _ _ _ tt true [_]); [apply emit_log|].
    eapply (bind_Some _ _ _ _ _ tt true [_]); [apply emit_log|].
    eapply (bind_Some _ _ _ _ _ tt true [_]); [apply emit_log|].
    rewrite bind_get. cbn [next_name m_textureIDs m_loadedTextures].
    rewrite Hstore. reflexivity. }
  unfold decodes in Hdec. unfold CreateGLTexture.
  destruct (stbi_load filename) as [[[width height] channels] |]; [| discriminate].
  assert (Hfacts :
            forall evs,
              quiet evs ->
              loaded_entries
                (mkState (m_pShaderManager s) table (m_loadedTextures s + 1)
                         (m_objectMaterials s) (glNextName s + 1))
              = (loaded_entries s ++ [mkTEXTURE_INFO tg (glNextName s)])%list
              /\ m_loadedTextures s + 1 = m_loadedTextures s + 1
              /\ List.length table = List.length (m_textureIDs s)
              /\ glNextName s + 1 = glNextName s + 1
              /\ m_pShaderManager s = m_pShaderManager s
              /\ m_objectMaterials s = m_objectMaterials s
              /\ quiet evs).
  { intros evs Hq. split; [| repeat split; try reflexivity; try exact Hlen; apply Hq].
    unfold loaded_entries. cbn [m_loadedTextures m_textureIDs].
    replace (Z.to_nat (m_loadedTextures s + 1))
      with (S (Z.to_nat (m_loadedTextures s))) by lia.
    exact Hfirst. }
  destruct (Z.eqb channels 3) eqn:E3; [| destruct (Z.eqb channels 4) eqn:E4];
    [ | | discriminate Hdec ].
  - eexists; eexists. split.
    { eapply bind_Some; [apply emit_log|].
      eapply bind_Some; [apply emit_log|].
      eapply bind_Some; [apply gen_texture_name_log|].
      do 6 (eapply bind_Some; [apply emit_log|]).
      exact Hreg. }
    cbn [m_pShaderManager m_objectMaterials m_textureIDs m_loadedTextures glNextName].
    apply Hfacts. repeat split.
  - eexists; eexists. split.
    { eapply bind_Some; [apply emit_log|].
      eapply bind_Some; [apply emit_log|].
      eapply bind_Some; [apply gen_texture_name_log|].
      do 6 (eapply bind_Some; [apply emit_log|]).
      exact Hreg. }
    cbn [m_pShaderManager m_objectMaterials m_textureIDs m_loadedTextures glNextName].
    apply Hfacts. repeat split.
Qed.

Lemma table_ok_after (s s' : State) :
  m_loadedTextures s < Z.of_nat (List.length (m_textureIDs s)) ->
  m_loadedTextures s' = m_loadedTextures s + 1 ->
  List.length (m_textureIDs s') = List.length (m_textureIDs s) ->
  table_ok s'.
Proof. unfold table_ok. lia. Qed.

Lemma find_app_last (entries : list TEXTURE_INFO) (e : TEXTURE_INFO) (tg : string) :
  find (fun t => String.eqb (tag t) tg) (entries ++ [e])
  = match find (fun t => String.eqb (tag t) tg) entries with
    | Some t => Some t
    | None => if String.eqb (tag e) tg then Some e else None
    end.
Proof.
  induction entries as [| t entries IH]; cbn [app find]; [reflexivity|].
  destruct (String.eqb (tag t) tg); [reflexivity | exact IH].
Qed.

Lemma find_none_not_in (entries : list TEXTURE_INFO) (tg : string) :
  ~ In tg (map tag entries) ->
  find (fun t => String.eqb (tag t) tg) entries = None.
Proof.
  induction entries as [| t entries IH]; cbn [map find]; [reflexivity|].
  intros Hno. destruct (String.eqb (tag t) tg) eqn:E.
  - apply String.eqb_eq in E. exfalso. apply Hno. left. exact E.
  - apply IH. intros H. apply Hno. right. exact H.
Qed.

Lemma find_some_in (entries : list TEXTURE_INFO) (tg : string) :
  In tg (map tag entries) ->
  exists t, find (fun t => String.eqb (tag t) tg) entries = Some t.
Proof.
  induction entries as [| t entries IH]; cbn [map find]; [intros []|].
  intros Hin. destruct (String.eqb (tag t) tg) eqn:E; [eexists; reflexivity|].
  apply String.eqb_neq in E. destruct Hin as [H | H]; [congruence | exact (IH H)].
Qed.

(** X12. Registration round trip.  On a table with a free slot, loading a
    file that decodes as RGB or RGBA under a tag that is not yet registered
    returns true and adds one entry: the tag then resolves to the slot
    that was the loaded count, and to the texture name OpenGL generated,
    converted to [int]: the name itself up to [INT_MAX], and the name less
    2^32, a negative number, for a larger one. *)
Theorem register_then_lookup (stbi_load : string -> option (Z * Z * Z))
        (filename tg : string) (s : State) :
  0 <= m_loadedTextures s ->
  m_loadedTextures s < Z.of_nat (List.length (m_textureIDs s)) ->
  decodable stbi_load filename ->
  ~ registered s tg ->
  exists s' evs,
    CreateGLTexture stbi_load filename tg s = Some (true, s', evs)
    /\ m_loadedTextures s' = m_loadedTextures s + 1
    /\ registered s' tg
    /\ FindTextureSlot s' tg = Some (m_loadedTextures s)
    /\ FindTextureID s' tg = Some (int_of_GLuint (glNextName s))
    /\ (0 <= glNextName s <= 2147483647 ->
        FindTextureID s' tg = Some (glNextName s))
    /\ (2147483647 < glNextName s < 4294967296 ->
        FindTextureID s' tg = Some (glNextName s - 4294967296)).
Proof.
  intros H0 Hlt Hdec Hno.
  destruct (CreateGLTexture_registers stbi_load filename tg s H0 Hlt
              (proj2 (decodes_true _ _) Hdec))
    as (s' & evs & Hrun & Hent & Hcount & Hlen & _).
  pose proof (table_ok_after s s' Hlt Hcount Hlen) as Hok'.
  rewrite registered_loaded_tags in Hno.
  assert (Hid : FindTextureID s' tg = Some (int_of_GLuint (glNextName s))).
  { rewrite (FindTextureID_find s' tg Hok'), Hent, find_app_last.
    rewrite (find_none_not_in _ tg Hno). cbn [tag ID]. rewrite String.eqb_refl.
    reflexivity. }
  exists s', evs. split; [exact Hrun|]. split; [exact Hcount|].
  split; [| split; [| split; [exact Hid | split]]].
  - rewrite registered_loaded_tags. unfold loaded_tags. rewrite Hent, map_app.
    apply in_or_app. right. left. reflexivity.
  - rewrite (FindTextureSlot_index s' tg Hok'). unfold loaded_tags.
    rewrite Hent, map_app, index_of_app.
    destruct (in_dec string_dec tg (map tag (loaded_entries s))) as [Hin |];
      [exfalso; exact (Hno Hin)|].
    cbn [map tag index_of]. rewrite String.eqb_refl. f_equal.
    rewrite length_map. unfold loaded_entries. rewrite length_firstn. lia.
  - intros Hn. rewrite Hid, (int_of_GLuint_small _ Hn). reflexivity.
  - intros Hn. rewrite Hid, (int_of_GLuint_large _ Hn). reflexivity.
Qed.

Lemma register_then_lookup_witness :
  exists s' evs,
    CreateGLTexture all_rgb "ceramicTexture.jpg" "mug"
                    (SceneManager.SceneManager true 3000000000)
    = Some (true, s', evs)
    /\ m_loadedTextures s'
       = m_loadedTextures (SceneManager.SceneManager true 3000000000) + 1
    /\ registered s' "mug"
    /\ FindTextureSlot s' "mug"
       = Some (m_loadedTextures (SceneManager.SceneManager true 3000000000))
    /\ FindTextureID s' "mug"
       = Some (int_of_GLuint (glNextName (SceneManager.SceneManager true 3000000000)))
    /\ (0 <= glNextName (SceneManager.SceneManager true 3000000000) <= 2147483647 ->
        FindTextureID s' "mug"
        = Some (glNextName (SceneManager.SceneManager true 3000000000)))
    /\ (2147483647 < glNextName (SceneManager.SceneManager true 3000000000)
                   < 4294967296 ->
        FindTextureID s' "mug"
        = Some (glNextName (SceneManager.SceneManager true 3000000000) - 4294967296)).
Proof.
  apply (register_then_lookup all_rgb "ceramicTexture.jpg" "mug"
           (SceneManager.SceneManager true 3000000000)).
  - simpl; lia.
  - simpl; lia.
  - exists 64, 64, 3. split; [reflexivity | left; reflexivity].
  - intros (i & t & Hi & _). simpl in Hi. lia.
Defined.

(** X13. The first registration of a tag wins.  A successful
    [CreateGLTexture], under any tag, leaves the slot and the texture name
    of every tag registered before as they were; registering a tag a second
    time adds an entry that no lookup ever returns. *)
Theorem earlier_registrations_win (stbi_load : string -> option (Z * Z * Z))
        (filename tg : string) (s : State) :
  0 <= m_loadedTextures s ->
  m_loadedTextures s < Z.of_nat (List.length (m_textureIDs s)) ->
  decodable stbi_load filename ->
  exists s' evs,
    CreateGLTexture stbi_load filename tg s = Some (true, s', evs)
    /\ m_loadedTextures s' = m_loadedTextures s + 1
    /\ forall t, registered s t ->
                 registered s' t
                 /\ FindTextureSlot s' t = FindTextureSlot s t
                 /\ FindTextureID s' t = FindTextureID s t.
Proof.
  intros H0 Hlt Hdec.
  destruct (CreateGLTexture_registers stbi_load filename tg s H0 Hlt
              (proj2 (decodes_true _ _) Hdec))
    as (s' & evs & Hrun & Hent & Hcount & Hlen & _).
  pose proof (table_ok_after s s' Hlt Hcount Hlen) as Hok'.
  assert (Hok : table_ok s) by (unfold table_ok; lia).
  exists s', evs. split; [exact Hrun|]. split; [exact Hcount|].
  intros t Hreg. rewrite registered_loaded_tags in Hreg.
  split; [| split].
  - rewrite registered_loaded_tags. unfold loaded_tags. rewrite Hent, map_app.
    apply in_or_app. left. exact Hreg.
  - rewrite (FindTextureSlot_index s' t Hok'), (FindTextureSlot_index s t Hok).
    unfold loaded_tags. rewrite Hent, map_app, index_of_app.
    destruct (in_dec string_dec t (map tag (loaded_entries s))) as [_ | Hno];
      [reflexivity | exfalso; exact (Hno Hreg)].
  - rewrite (FindTextureID_find s' t Hok'), (FindTextureID_find s t Hok).
    rewrite Hent, find_app_last.
    destruct (find_some_in _ t Hreg) as (e & ->). reflexivity.
Qed.

Lemma earlier_registrations_win_witness :
  exists s' evs,
    CreateGLTexture all_rgb "ceramicTexture.jpg" "mug"
                    (mkState true (repeat (mkTEXTURE_INFO "mug" 5) 16) 1 [] 9)
    = Some (true, s', evs)
    /\ m_loadedTextures s'
       = m_loadedTextures (mkState true (repeat (mkTEXTURE_INFO "mug" 5) 16) 1 [] 9) + 1
    /\ forall t,
        registered (mkState true (repeat (mkTEXTURE_INFO "mug" 5) 16) 1 [] 9) t ->
        registered s' t
        /\ FindTextureSlot s' t
           = FindTextureSlot (mkState true (repeat (mkTEXTURE_INFO "mug" 5) 16) 1 [] 9) t
        /\ FindTextureID s' t
           = FindTextureID (mkState true (repeat (mkTEXTURE_INFO "mug" 5) 16) 1 [] 9) t.
Proof.
  apply (earlier_registrations_win all_rgb "ceramicTexture.jpg" "mug"
           (mkState true (repeat (mkTEXTURE_INFO "mug" 5) 16) 1 [] 9)).
  - simpl; lia.
  - simpl; lia.
  - exists 64, 64, 3. split; [reflexivity | left; reflexivity].
Defined.

(** X14. The table has no overflow check: once the loaded count has
    reached the size of the table, loading one more file that decodes as
    RGB or RGBA stores past the end of the array -- undefined behaviour. *)
Theorem full_table_overflows (stbi_load : string -> option (Z * Z * Z))
        (filename tg : string) (s : State) :
  Z.of_nat (List.length (m_textureIDs s)) <= m_loadedTextures s ->
  decodable stbi_load filename ->
  CreateGLTexture stbi_load filename tg s = None.
Proof.
  intros Hfull (width & height & channels & Hload & Hch).
  assert (Hreg : register_texture (glNextName s) tg (next_name s) = None).
  { unfold register_texture.
    do 3 (eapply bind_None_r; [apply emit_log|]).
    rewrite bind_get. cbn [next_name m_textureIDs m_loadedTextures].
    rewrite store_None by lia. reflexivity. }
  unfold CreateGLTexture. rewrite Hload.
  eapply bind_None_r; [apply emit_log|].
  eapply bind_None_r; [apply emit_log|].
  eapply bind_None_r; [apply gen_texture_name_log|].
  do 5 (eapply bind_None_r; [apply emit_log|]).
  destruct Hch as [-> | ->]; cbn [Z.eqb Pos.eqb];
    (eapply bind_None_r; [apply emit_log | exact Hreg]).
Qed.

Lemma full_table_overflows_witness :
  CreateGLTexture all_rgb "x.jpg" "x"
                  (mkState true (repeat (mkTEXTURE_INFO "t" 5) 16) 16 [] 1) = None.
Proof.
  apply (full_table_overflows all_rgb "x.jpg" "x"
           (mkState true (repeat (mkTEXTURE_INFO "t" 5) 16) 16 [] 1)).
  - simpl; lia.
  - exists 64, 64, 3. split; [reflexivity | left; reflexivity].
Defined.

(** X15. A load that fails on the channel count leaves resources behind.
    When the file decodes with a channel count other than 3 or 4,
    [CreateGLTexture] has by then generated a texture name and bound it:
    it returns false with the name used up and the texture still bound (the
    success path would unbind it), uploads no pixel data, and never frees
    the decoded image. *)
Theorem unsupported_channels_leak (stbi_load : string -> option (Z * Z * Z))
        (filename tg : string) (s : State) (width height channels : Z) :
  stbi_load filename = Some (width, height, channels) ->
  channels <> 3 ->
  channels <> 4 ->
  exists evs,
    CreateGLTexture stbi_load filename tg s = Some (false, next_name s, evs)
    /\ In (glGenTextures (glNextName s)) evs
    /\ last evs (cout_not_implemented channels) = cout_not_implemented channels
    /\ flat_map (fun e => match e with glBindTexture n => [n] | _ => [] end) evs
       = [glNextName s]
    /\ ~ In stbi_image_free evs
    /\ (forall f w h f', ~ In (glTexImage2D f w h f') evs).
Proof.
  intros Hload H3 H4.
  unfold CreateGLTexture. rewrite Hload.
  apply Z.eqb_neq in H3. apply Z.eqb_neq in H4. rewrite H3, H4.
  eexists. split; [reflexivity|].
  cbn [app In last].
  split; [tauto|]. split; [reflexivity|]. split; [reflexivity|].
  split; [intros H; repeat (destruct H as [H | H]; [discriminate H|]); exact H|].
  intros f w h f' H.
  repeat (destruct H as [H | H]; [discriminate H|]). exact H.
Qed.

Lemma unsupported_channels_leak_witness :
  exists evs,
    CreateGLTexture (fun _ => Some (64, 64, 1)) "grey.png" "grey"
                    (SceneManager.SceneManager true 1)
    = Some (false, next_name (SceneManager.SceneManager true 1), evs)
    /\ In (glGenTextures (glNextName (SceneManager.SceneManager true 1))) evs
    /\ last evs (cout_not_implemented 1) = cout_not_implemented 1
    /\ flat_map (fun e => match e with glBindTexture n => [n] | _ => [] end) evs
       = [glNextName (SceneManager.SceneManager true 1)]
    /\ ~ In stbi_image_free evs
    /\ (forall f w h f', ~ In (glTexImage2D f w h f') evs).
Proof.
  apply (unsupported_channels_leak (fun _ => Some (64, 64, 1)) "grey.png" "grey"
           (SceneManager.SceneManager true 1) 64 64 1);
    [reflexivity | lia | lia].
Defined.

(** *** Binding and destroying *)

Lemma BindGLTextures_loop_bind_log (s : State) (fuel : nat) :
  forall i : nat,
    (i + fuel <= List.length (m_textureIDs s))%nat ->
    BindGLTextures_loop fuel (Z.of_nat i) s
    = Some (tt, s, bind_log (Z.of_nat i) (firstn fuel (skipn i (m_textureIDs s)))).
Proof.
  induction fuel as [| fuel IH]; intros i Hlen; cbn [BindGLTextures_loop].
  - reflexivity.
  - rewrite bind_get, Nat2Z.id.
    destruct (nth_error (m_textureIDs s) i) as [t |] eqn:Hnth.
    2:{ apply nth_error_None in Hnth. lia. }
    rewrite (skipn_nth_error _ i t Hnth). cbn [firstn bind_log].
    replace (Z.of_nat i + 1) with (Z.of_nat (S i)) by lia.
    eapply (bind_Some _ _ s s s tt tt [_]); [apply emit_log|].
    eapply (bind_Some _ _ s s s tt tt [_]); [apply emit_log|].
    apply IH. lia.
Qed.

Lemma bind_log_units (entries : list TEXTURE_INFO) :
  forall index,
    flat_map (fun e => match e with glActiveTexture u => [u] | _ => [] end)
             (bind_log index entries)
    = map (fun k => index + Z.of_nat k) (seq 0 (List.length entries))
    /\ flat_map (fun e => match e with glBindTexture n => [n] | _ => [] end)
                (bind_log index entries)
       = map ID entries
    /\ quiet (bind_log index entries).
Proof.
  induction entries as [| t entries IH]; intros index.
  - repeat split.
  - destruct (IH (index + 1)) as (Hu & Hn & (Hl & Hd & Hp)).
    cbn [bind_log flat_map app List.length seq map].
    split; [| split].
    + rewrite Hu. f_equal; [lia|]. rewrite <- seq_shift, map_map.
      apply map_ext. intros k. lia.
    + rewrite Hn. reflexivity.
    + unfold quiet, loads, draws, published in *.
      cbn [flat_map app uniform_name]. auto.
Qed.

(** X16. [BindGLTextures] leaves the scene manager as it was and binds, for
    each loaded entry in table order, texture unit i and then the entry's
    texture name -- unit i is the slot of entry i; entries past the loaded
    count are not touched.  Being without effect on the state, it can be
    repeated and sends the same calls again. *)
Theorem BindGLTextures_units (s : State) :
  table_ok s ->
  exists evs,
    BindGLTextures s = Some (tt, s, evs)
    /\ (BindGLTextures ;; BindGLTextures) s = Some (tt, s, (evs ++ evs)%list)
    /\ evs = bind_log 0 (loaded_entries s)
    /\ flat_map (fun e => match e with glActiveTexture u => [u] | _ => [] end) evs
       = map Z.of_nat (seq 0 (List.length (loaded_entries s)))
    /\ flat_map (fun e => match e with glBindTexture n => [n] | _ => [] end) evs
       = map ID (loaded_entries s).
Proof.
  intros Hok.
  assert (Hrun : BindGLTextures s = Some (tt, s, bind_log 0 (loaded_entries s))).
  { unfold BindGLTextures. rewrite bind_get.
    apply (BindGLTextures_loop_bind_log s _ 0%nat). apply table_ok_fuel, Hok. }
  exists (bind_log 0 (loaded_entries s)).
  split; [exact Hrun|]. split; [exact (bind_Some _ _ _ _ _ _ _ _ _ Hrun Hrun)|].
  split; [reflexivity|].
  destruct (bind_log_units (loaded_entries s) 0) as (Hu & Hn & _).
  split; [| exact Hn]. rewrite Hu. apply map_ext. intros k. lia.
Qed.

Lemma BindGLTextures_units_witness :
  exists evs,
    BindGLTextures (mkState true (repeat (mkTEXTURE_INFO "t" 5) 16) 2 [] 1)
    = Some (tt, mkState true (repeat (mkTEXTURE_INFO "t" 5) 16) 2 [] 1, evs)
    /\ (BindGLTextures ;; BindGLTextures)
         (mkState true (repeat (mkTEXTURE_INFO "t" 5) 16) 2 [] 1)
       = Some (tt, mkState true (repeat (mkTEXTURE_INFO "t" 5) 16) 2 [] 1,
               (evs ++ evs)%list)
    /\ evs = bind_log 0 (loaded_entries
                           (mkState true (repeat (mkTEXTURE_INFO "t" 5) 16) 2 [] 1))
    /\ flat_map (fun e => match e with glActiveTexture u => [u] | _ => [] end) evs
       = map Z.of_nat
           (seq 0 (List.length
                     (loaded_entries
                        (mkState true (repeat (mkTEXTURE_INFO "t" 5) 16) 2 [] 1))))
    /\ flat_map (fun e => match e with glBindTexture n => [n] | _ => [] end) evs
       = map ID (loaded_entries
                   (mkState true (repeat (mkTEXTURE_INFO "t" 5) 16) 2 [] 1)).
Proof.
  apply (BindGLTextures_units (mkState true (repeat (mkTEXTURE_INFO "t" 5) 16) 2 [] 1)).
  unfold table_ok; simpl; lia.
Defined.

Lemma FindTextureID_at_slot (s : State) (tg : string) :
  table_ok s ->
  exists slot,
    FindTextureSlot s tg = Some slot
    /\ (slot = -1 -> FindTextureID s tg = Some (-1))
    /\ (slot <> -1 ->
        exists t, nth_error (m_textureIDs s) (Z.to_nat slot) = Some t
                  /\ 0 <= slot < m_loadedTextures s
                  /\ tag t = tg
                  /\ FindTextureID s tg = Some (int_of_GLuint (ID t))).
Proof.
  intros Hok. exists (index_of (loaded_tags s) tg 0).
  split; [apply FindTextureSlot_index, Hok|].
  rewrite (FindTextureID_find s tg Hok).
  pose proof (find_at_index (loaded_entries s) tg 0) as Hat.
  fold (loaded_tags s) in Hat.
  destruct (find (fun t => String.eqb (tag t) tg) (loaded_entries s)) as [t |] eqn:Hfind.
  - destruct Hat as (Hn & Hle). split; [intros H; lia|].
    intros _. exists t. rewrite Z.sub_0_r in Hn.
    pose proof Hn as Hn'. unfold loaded_entries in Hn'.
    rewrite nth_error_firstn in Hn'.
    destruct (Nat.ltb_spec (Z.to_nat (index_of (loaded_tags s) tg 0))
                           (Z.to_nat (m_loadedTextures s))); [| discriminate].
    split; [exact Hn'|]. split; [lia|]. split; [| reflexivity].
    apply find_some in Hfind. destruct Hfind as (_ & E).
    apply String.eqb_eq in E. exact E.
  - split; [reflexivity|]. intros H. contradiction.
Qed.


(** X17. The two lookups agree: whenever [FindTextureSlot] answers a slot
    other than -1, [FindTextureID] answers the texture name stored in that
    slot converted to [int], which is the name itself up to [INT_MAX]; and
    when the slot is -1 so is the name.  (Not conversely: the name
    4294967295 in a slot reads as -1.) *)
Theorem lookups_agree (s : State) (tg : string) :
  table_ok s ->
  exists slot,
    FindTextureSlot s tg = Some slot
    /\ (slot = -1 -> FindTextureID s tg = Some (-1))
    /\ (slot <> -1 ->
        exists t, nth_error (m_textureIDs s) (Z.to_nat slot) = Some t
                  /\ 0 <= slot < m_loadedTextures s
                  /\ tag t = tg
                  /\ FindTextureID s tg = Some (int_of_GLuint (ID t))
                  /\ (0 <= ID t <= 2147483647 ->
                      FindTextureID s tg = Some (ID t))
                  /\ (ID t = 4294967295 -> FindTextureID s tg = Some (-1))).
Proof.
  intros Hok. destruct (FindTextureID_at_slot s tg Hok) as (slot & Hs & Hm & Hf).
  exists slot. split; [exact Hs|]. split; [exact Hm|].
  intros Hne. destruct (Hf Hne) as (t & Hn & Hr & Ht & Hid).
  exists t. split; [exact Hn|]. split; [exact Hr|]. split; [exact Ht|].
  split; [exact Hid|]. split.
  - intros Hsmall. rewrite Hid, (int_of_GLuint_small _ Hsmall). reflexivity.
  - intros Hmax. rewrite Hid, Hmax. reflexivity.
Qed.

Lemma lookups_agree_witness :
  exists slot,
    FindTextureSlot (mkState true (repeat (mkTEXTURE_INFO "t" 4294967295) 16) 2 [] 1) "t"
    = Some slot
    /\ (slot = -1 ->
        FindTextureID (mkState true (repeat (mkTEXTURE_INFO "t" 4294967295) 16) 2 [] 1) "t"
        = Some (-1))
    /\ (slot <> -1 ->
        exists t,
          nth_error (m_textureIDs (mkState true (repeat (mkTEXTURE_INFO "t" 4294967295) 16) 2 [] 1))
                    (Z.to_nat slot) = Some t
          /\ 0 <= slot
             < m_loadedTextures (mkState true (repeat (mkTEXTURE_INFO "t" 4294967295) 16) 2 [] 1)
          /\ tag t = "t"
          /\ FindTextureID (mkState true (repeat (mkTEXTURE_INFO "t" 4294967295) 16) 2 [] 1) "t"
             = Some (int_of_GLuint (ID t))
          /\ (0 <= ID t <= 2147483647 ->
              FindTextureID (mkState true (repeat (mkTEXTURE_INFO "t" 4294967295) 16) 2 [] 1) "t"
              = Some (ID t))
          /\ (ID t = 4294967295 ->
              FindTextureID (mkState true (repeat (mkTEXTURE_INFO "t" 4294967295) 16) 2 [] 1) "t"
              = Some (-1))).
Proof.
  apply (lookups_agree (mkState true (repeat (mkTEXTURE_INFO "t" 4294967295) 16) 2 [] 1) "t").
  unfold table_ok; simpl; lia.
Defined.

Lemma names_from_gen (name : Z) (n : nat) :
  names_from name (S n) = (glGenTextures name :: names_from (name + 1) n)%list.
Proof. reflexivity. Qed.

(** The loop of [DestroyGLTextures] from entry [i] on, entry by entry. *)
Lemma DestroyGLTextures_loop_spec (fuel : nat) :
  forall (i : nat) (s : State),
    (i + fuel <= List.length (m_textureIDs s))%nat ->
    exists table,
      DestroyGLTextures_loop fuel (Z.of_nat i) s
      = Some (tt,
              mkState (m_pShaderManager s) table (m_loadedTextures s)
                      (m_objectMaterials s) (glNextName s + Z.of_nat fuel),
              names_from (glNextName s) fuel)
      /\ List.length table = List.length (m_textureIDs s)
      /\ forall j,
          nth_error table j
          = if ((i <=? j) && (j <? i + fuel))%nat
            then option_map
                   (fun t => mkTEXTURE_INFO (tag t) (glNextName s + Z.of_nat (j - i)))
                   (nth_error (m_textureIDs s) j)
            else nth_error (m_textureIDs s) j.
Proof.
  induction fuel as [| fuel IH]; intros i s Hlen.
  - exists (m_textureIDs s). cbn [DestroyGLTextures_loop names_from].
    split; [rewrite Z.add_0_r; destruct s; reflexivity|]. split; [reflexivity|].
    intros j.
    destruct (Nat.leb_spec i j), (Nat.ltb_spec j (i + 0)); cbn [andb];
      try reflexivity; lia.
  - destruct (nth_error (m_textureIDs s) i) as [t |] eqn:Hnth.
    2:{ apply nth_error_None in Hnth. lia. }
    destruct (store_Some (m_textureIDs s) i (mkTEXTURE_INFO (tag t) (glNextName s))
                         ltac:(lia)) as (table1 & Hstore & Hlen1).
    destruct (store_spec _ _ _ _ Hstore) as (_ & Hat & Hother & _).
    set (s1 := mkState (m_pShaderManager s) table1 (m_loadedTextures s)
                       (m_objectMaterials s) (glNextName s + 1)).
    destruct (IH (S i) s1 ltac:(cbn [s1 m_textureIDs]; lia))
      as (table & Hrun & Hlen' & Hpoint).
    cbn [s1 m_pShaderManager m_textureIDs m_loadedTextures m_objectMaterials
         glNextName] in Hrun, Hlen', Hpoint.
    exists table. split; [| split; [congruence|]].
    + cbn [DestroyGLTextures_loop]. rewrite names_from_gen.
      eapply (bind_Some _ _ _ _ _ _ tt [_]); [apply gen_texture_name_log|].
      rewrite bind_get. cbn [next_name m_textureIDs]. rewrite Nat2Z.id, Hnth, Hstore.
      unfold bind at 1. cbn [put next_name m_pShaderManager m_loadedTextures
                                 m_objectMaterials glNextName].
      replace (Z.of_nat i + 1) with (Z.of_nat (S i)) by lia.
      fold s1. rewrite Hrun. cbn [app].
      replace (glNextName s + 1 + Z.of_nat fuel)
        with (glNextName s + Z.of_nat (S fuel)) by lia.
      reflexivity.
    + intros j. rewrite Hpoint.
      destruct (Nat.eq_dec j i) as [-> | Hne].
      * replace ((S i <=? i) && (i <? S i + fuel))%nat with false
          by (symmetry; apply andb_false_iff; left; apply Nat.leb_gt; lia).
        replace ((i <=? i) && (i <? i + S fuel))%nat with true
          by (symmetry; apply andb_true_iff; split;
              [apply Nat.leb_le | apply Nat.ltb_lt]; lia).
        rewrite Hat, Hnth. cbn [option_map]. do 2 f_equal. lia.
      * rewrite (Hother j Hne).
        destruct (Nat.leb_spec (S i) j), (Nat.ltb_spec j (S i + fuel)),
                 (Nat.leb_spec i j), (Nat.ltb_spec j (i + S fuel));
          cbn [andb]; try reflexivity; try lia.
        destruct (nth_error (m_textureIDs s) j) as [t' |]; [| reflexivity].
        cbn [option_map tag]. do 2 f_equal. lia.
Qed.

(** X18. [DestroyGLTextures] releases nothing: for each loaded entry it
    asks OpenGL for one more texture name and stores it over the entry's
    name.  The loaded count and the tags stay, so every tag keeps its
    slot, but the name a registered tag resolves to is afterwards the
    newly generated one, converted to [int] (the name itself while it is
    at most [INT_MAX]). *)
Theorem DestroyGLTextures_regenerates (s : State) :
  table_ok s ->
  exists s',
    DestroyGLTextures s
    = Some (tt, s', names_from (glNextName s) (Z.to_nat (m_loadedTextures s)))
    /\ m_loadedTextures s' = m_loadedTextures s
    /\ glNextName s' = glNextName s + Z.of_nat (Z.to_nat (m_loadedTextures s))
    /\ loaded_tags s' = loaded_tags s
    /\ (forall tg, FindTextureSlot s' tg = FindTextureSlot s tg)
    /\ (forall tg slot,
           FindTextureSlot s tg = Some slot -> slot <> -1 ->
           FindTextureID s' tg = Some (int_of_GLuint (glNextName s + slot))
           /\ (0 <= glNextName s -> glNextName s + slot <= 2147483647 ->
               FindTextureID s' tg = Some (glNextName s + slot))).
Proof.
  intros Hok.
  destruct (DestroyGLTextures_loop_spec (Z.to_nat (m_loadedTextures s)) 0%nat s
              (table_ok_fuel s Hok)) as (table & Hrun & Hlen & Hpoint).
  set (n := Z.to_nat (m_loadedTextures s)) in *.
  set (s' := mkState (m_pShaderManager s) table (m_loadedTextures s)
                     (m_objectMaterials s) (glNextName s + Z.of_nat n)) in *.
  assert (Hok' : table_ok s') by (unfold table_ok in *; cbn [s' m_loadedTextures m_textureIDs]; lia).
  assert (Htags : loaded_tags s' = loaded_tags s).
  { unfold loaded_tags, loaded_entries. cbn [s' m_loadedTextures m_textureIDs].
    fold n. apply nth_error_ext. intros j.
    rewrite !nth_error_map, !nth_error_firstn.
    destruct (Nat.ltb_spec j n); [| reflexivity].
    rewrite Hpoint. cbn [Nat.leb andb Nat.add].
    destruct (Nat.ltb_spec j n); [| lia].
    destruct (nth_error (m_textureIDs s) j); reflexivity. }
  assert (Hslot : forall tg, FindTextureSlot s' tg = FindTextureSlot s tg).
  { intros tg. rewrite (FindTextureSlot_index s' tg Hok'),
                       (FindTextureSlot_index s tg Hok), Htags. reflexivity. }
  exists s'. split.
  { unfold DestroyGLTextures. rewrite bind_get. exact Hrun. }
  split; [reflexivity|]. split; [reflexivity|]. split; [exact Htags|].
  split; [exact Hslot|].
  intros tg slot Hfound Hne.
  destruct (FindTextureID_at_slot s' tg Hok') as (slot' & Hs' & _ & Hsome).
  rewrite Hslot, Hfound in Hs'. injection Hs' as <-.
  destruct (Hsome Hne) as (t & Hn & Hrange & _ & Hid).
  assert (Hname : ID t = glNextName s + slot).
  { cbn [s' m_textureIDs m_loadedTextures] in Hn, Hrange.
    rewrite Hpoint in Hn. cbn [Nat.leb andb Nat.add] in Hn.
    destruct (Nat.ltb_spec (Z.to_nat slot) n); [| lia].
    destruct (nth_error (m_textureIDs s) (Z.to_nat slot)) as [t0 |]; [| discriminate].
    cbn [option_map] in Hn. injection Hn as <-. cbn [ID]. lia. }
  rewrite Hid, Hname. split; [reflexivity|].
  intros Hlo Hhi. rewrite int_of_GLuint_small; [reflexivity|].
  cbn [s' m_loadedTextures] in Hrange. lia.
Qed.

Lemma DestroyGLTextures_regenerates_witness :
  exists s',
    DestroyGLTextures (mkState true (repeat (mkTEXTURE_INFO "t" 5) 16) 2 [] 9)
    = Some (tt, s',
            names_from (glNextName (mkState true (repeat (mkTEXTURE_INFO "t" 5) 16) 2 [] 9))
                       (Z.to_nat (m_loadedTextures
                                    (mkState true (repeat (mkTEXTURE_INFO "t" 5) 16) 2 [] 9))))
    /\ m_loadedTextures s'
       = m_loadedTextures (mkState true (repeat (mkTEXTURE_INFO "t" 5) 16) 2 [] 9)
    /\ glNextName s'
       = glNextName (mkState true (repeat (mkTEXTURE_INFO "t" 5) 16) 2 [] 9)
         + Z.of_nat (Z.to_nat (m_loadedTextures
                                 (mkState true (repeat (mkTEXTURE_INFO "t" 5) 16) 2 [] 9)))
    /\ loaded_tags s'
       = loaded_tags (mkState true (repeat (mkTEXTURE_INFO "t" 5) 16) 2 [] 9)
    /\ (forall tg,
           FindTextureSlot s' tg
           = FindTextureSlot (mkState true (repeat (mkTEXTURE_INFO "t" 5) 16) 2 [] 9) tg)
    /\ (forall tg slot,
           FindTextureSlot (mkState true (repeat (mkTEXTURE_INFO "t" 5) 16) 2 [] 9) tg
           = Some slot ->
           slot <> -1 ->
           FindTextureID s' tg
           = Some (int_of_GLuint
                     (glNextName (mkState true (repeat (mkTEXTURE_INFO "t" 5) 16) 2 [] 9)
                      + slot))
           /\ (0 <= glNextName (mkState true (repeat (mkTEXTURE_INFO "t" 5) 16) 2 [] 9) ->
               glNextName (mkState true (repeat (mkTEXTURE_INFO "t" 5) 16) 2 [] 9) + slot
               <= 2147483647 ->
               FindTextureID s' tg
               = Some (glNextName (mkState true (repeat (mkTEXTURE_INFO "t" 5) 16) 2 [] 9)
                       + slot))).
Proof.
  apply (DestroyGLTextures_regenerates
           (mkState true (repeat (mkTEXTURE_INFO "t" 5) 16) 2 [] 9)).
  unfold table_ok; simpl; lia.
Defined.

End SceneManagerTextures.

(** ** Scene composer: materials, the shader manager and whole frames *)

Section SceneManagerRendering.

Import SceneManager.
Local Open Scope Z_scope.
Local Open Scope string_scope.

Lemma FindMaterial_loop_first (l : list OBJECT_MATERIAL) (tg : string)
      (material m : OBJECT_MATERIAL) :
  find (fun m => String.eqb (material_tag m) tg) l = Some m ->
  FindMaterial_loop l tg material
  = mkOBJECT_MATERIAL (ambientColor m) (ambientStrength m) (diffuseColor m)
                      (specularColor m) (shininess m) (material_tag material).
Proof.
  induction l as [| m' rest IH]; cbn [find FindMaterial_loop]; [discriminate|].
  destruct (String.eqb (material_tag m') tg).
  - intros H; injection H as ->. reflexivity.
  - exact IH.
Qed.

(** X19. Material lookup, found.  When some material carries the tag,
    [FindMaterial] returns true and copies the five shading fields of the
    first such material in list order into [material], whose own tag it
    leaves alone; [SetShaderMaterial] then publishes exactly those five
    fields and leaves the scene manager unchanged. *)
Theorem found_material_published (s : State) (tg : string)
        (indeterminate m : OBJECT_MATERIAL) :
  resolve_material s tg = Some m ->
  m_pShaderManager s = true ->
  FindMaterial s tg indeterminate
  = (true,
     mkOBJECT_MATERIAL (ambientColor m) (ambientStrength m) (diffuseColor m)
                       (specularColor m) (shininess m)
                       (material_tag indeterminate))
  /\ material_tag m = tg
  /\ SetShaderMaterial indeterminate tg s = Some (tt, s, material_uniforms m).
Proof.
  intros Hres Hsh. split; [| split].
  - unfold resolve_material in Hres. unfold FindMaterial.
    destruct (m_objectMaterials s) as [| m0 rest] eqn:E; [discriminate|].
    cbn [List.length Nat.eqb]. rewrite (FindMaterial_loop_first _ tg _ m Hres).
    reflexivity.
  - unfold resolve_material in Hres. apply find_some in Hres.
    destruct Hres as (_ & E). apply String.eqb_eq in E. exact E.
  - rewrite (SetShaderMaterial_log indeterminate tg s Hsh).
    rewrite (material_log_resolved s indeterminate m tg Hres). reflexivity.
Qed.

Lemma found_material_published_witness :
  FindMaterial (mkState true [] 0 [glassMaterial; paperMaterial; glassMaterial] 1)
               "paper" zero_material
  = (true,
     mkOBJECT_MATERIAL (ambientColor paperMaterial) (ambientStrength paperMaterial)
                       (diffuseColor paperMaterial) (specularColor paperMaterial)
                       (shininess paperMaterial) (material_tag zero_material))
  /\ material_tag paperMaterial = "paper"
  /\ SetShaderMaterial zero_material "paper"
                       (mkState true [] 0 [glassMaterial; paperMaterial; glassMaterial] 1)
     = Some (tt, mkState true [] 0 [glassMaterial; paperMaterial; glassMaterial] 1,
             material_uniforms paperMaterial).
Proof.
  apply (found_material_published
           (mkState true [] 0 [glassMaterial; paperMaterial; glassMaterial] 1)
           "paper" zero_material paperMaterial); reflexivity.
Defined.

(** *** Without a shader manager *)

Lemma SetTransformations_null (scaleXYZ : vec3) (rx ry rz : R) (positionXYZ : vec3)
      (s : State) :
  m_pShaderManager s = false ->
  SetTransformations scaleXYZ rx ry rz positionXYZ s = Some (tt, s, []).
Proof. intros H. unfold SetTransformations. rewrite bind_get, H. reflexivity. Qed.

Lemma SetShaderTexture_null (tg : string) (s : State) :
  m_pShaderManager s = false -> SetShaderTexture tg s = Some (tt, s, []).
Proof. intros H. unfold SetShaderTexture. rewrite bind_get, H. reflexivity. Qed.

Lemma SetShaderMaterial_empty (ind : OBJECT_MATERIAL) (tg : string) (s : State) :
  m_objectMaterials s = [] -> SetShaderMaterial ind tg s = Some (tt, s, []).
Proof. intros H. exact (proj2 (FindMaterial_empty s tg ind H)). Qed.

Lemma shader_null (e : event) (s : State) :
  m_pShaderManager s = false -> shader e s = None.
Proof. intros H. unfold shader. rewrite bind_get, H. reflexivity. Qed.

Lemma SetShaderMaterial_null (ind : OBJECT_MATERIAL) (tg : string) (s : State) :
  m_pShaderManager s = false ->
  m_objectMaterials s <> [] ->
  SetShaderMaterial ind tg s = None.
Proof.
  intros Hsh Hne. unfold SetShaderMaterial. rewrite bind_get. unfold FindMaterial.
  destruct (m_objectMaterials s) as [| m rest]; [congruence|].
  cbn [List.length Nat.ltb Nat.leb Nat.eqb].
  apply bind_None_l. apply shader_null, Hsh.
Qed.

(** X20. The shader manager pointer is checked in some places only.
    Without a shader manager, [SetTransformations], [SetShaderColor],
    [SetShaderTexture] and [SetTextureUVScale] publish nothing and return;
    [SetupSceneLights] is undefined behaviour, and so is
    [SetShaderMaterial] as soon as a material is defined.  A frame
    therefore draws its 15 meshes and publishes nothing while the material
    list is empty, and is undefined behaviour otherwise. *)
Theorem shader_manager_guards (ind : OBJECT_MATERIAL) (s : State) :
  m_pShaderManager s = false ->
  (forall sc rx ry rz pos, SetTransformations sc rx ry rz pos s = Some (tt, s, []))
  /\ (forall r g b a, SetShaderColor r g b a s = Some (tt, s, []))
  /\ (forall tg, SetShaderTexture tg s = Some (tt, s, []))
  /\ (forall u v, SetTextureUVScale u v s = Some (tt, s, []))
  /\ SetupSceneLights s = None
  /\ (forall tg,
         SetShaderMaterial ind tg s
         = match m_objectMaterials s with
           | [] => Some (tt, s, [])
           | _ :: _ => None
           end)
  /\ RenderScene ind s
     = match m_objectMaterials s with
       | [] => Some (tt, s, map DrawMesh (map p_mesh scene_placements))
       | _ :: _ => None
       end.
Proof.
  intros Hsh.
  split; [intros; apply SetTransformations_null, Hsh|].
  split; [intros; unfold SetShaderColor; rewrite bind_get, Hsh; reflexivity|].
  split; [intros; apply SetShaderTexture_null, Hsh|].
  split; [intros; unfold SetTextureUVScale; rewrite bind_get, Hsh; reflexivity|].
  split; [unfold SetupSceneLights; apply bind_None_l, shader_null, Hsh|].
  split.
  - intros tg. destruct (m_objectMaterials s) as [| m rest] eqn:E.
    + apply SetShaderMaterial_empty, E.
    + apply SetShaderMaterial_null; [exact Hsh | congruence].
  - destruct (m_objectMaterials s) as [| m rest] eqn:E.
    + assert (exists evs,
                 RenderScene ind s = Some (tt, s, evs)
                 /\ evs = map DrawMesh (map p_mesh scene_placements))
        as (evs & Hrun & ->); [| exact Hrun].
      eexists. split.
      * unfold RenderScene.
        repeat (eapply bind_Some;
                [ first [ apply SetTransformations_null; exact Hsh
                        | apply SetShaderTexture_null; exact Hsh
                        | apply SetShaderMaterial_empty; exact E
                        | apply draw_log ] |]).
        apply draw_log.
      * reflexivity.
    + unfold RenderScene.
      eapply bind_None_r; [apply SetTransformations_null, Hsh|].
      eapply bind_None_r; [apply SetShaderTexture_null, Hsh|].
      apply bind_None_l. apply SetShaderMaterial_null; [exact Hsh | congruence].
Qed.

Lemma shader_manager_guards_witness :
  (forall sc rx ry rz pos,
      SetTransformations sc rx ry rz pos (SceneManager.SceneManager false 1)
      = Some (tt, SceneManager.SceneManager false 1, []))
  /\ (forall r g b a,
         SetShaderColor r g b a (SceneManager.SceneManager false 1)
         = Some (tt, SceneManager.SceneManager false 1, []))
  /\ (forall tg,
         SetShaderTexture tg (SceneManager.SceneManager false 1)
         = Some (tt, SceneManager.SceneManager false 1, []))
  /\ (forall u v,
         SetTextureUVScale u v (SceneManager.SceneManager false 1)
         = Some (tt, SceneManager.SceneManager false 1, []))
  /\ SetupSceneLights (SceneManager.SceneManager false 1) = None
  /\ (forall tg,
         SetShaderMaterial zero_material tg (SceneManager.SceneManager false 1)
         = match m_objectMaterials (SceneManager.SceneManager false 1) with
           | [] => Some (tt, SceneManager.SceneManager false 1, [])
           | _ :: _ => None
           end)
  /\ RenderScene zero_material (SceneManager.SceneManager false 1)
     = match m_objectMaterials (SceneManager.SceneManager false 1) with
       | [] => Some (tt, SceneManager.SceneManager false 1,
                     map DrawMesh (map p_mesh scene_placements))
       | _ :: _ => None
       end.
Proof.
  apply (shader_manager_guards zero_material (SceneManager.SceneManager false 1)).
  reflexivity.
Defined.

(** X21. The setup cannot run without a shader manager: whatever the
    decoder answers, [PrepareScene] on a scene manager constructed with a
    null shader manager is undefined behaviour (it gets as far as the first
    light uniform). *)
Theorem PrepareScene_needs_shader_manager
        (stbi_load : string -> option (Z * Z * Z)) (glNext : Z) :
  PrepareScene stbi_load (SceneManager.SceneManager false glNext) = None.
Proof.
  destruct (LoadSceneTextures_log stbi_load (SceneManager.SceneManager false glNext)
              eq_refl eq_refl)
    as (s1 & evs1 & Hrun1 & Hsh1 & Hmat1 & _).
  cbn [m_pShaderManager m_objectMaterials SceneManager.SceneManager] in Hsh1, Hmat1.
  unfold PrepareScene.
  eapply bind_None_r; [exact Hrun1|].
  eapply bind_None_r; [apply DefineObjectMaterials_log, Hmat1|].
  apply bind_None_l. unfold SetupSceneLights.
  apply bind_None_l, shader_null. exact Hsh1.
Qed.

(** X22. A frame changes nothing in the scene manager.  With a shader
    manager and a loaded count that fits the table, [RenderScene] returns
    the state it was given, so two frames in a row send the same log
    twice. *)
Theorem frames_repeat (ind : OBJECT_MATERIAL) (s : State) :
  m_pShaderManager s = true ->
  table_ok s ->
  exists frame,
    RenderScene ind s = Some (tt, s, frame)
    /\ (RenderScene ind ;; RenderScene ind) s = Some (tt, s, (frame ++ frame)%list)
    /\ draws frame = map p_mesh scene_placements.
Proof.
  intros Hsh Hok.
  pose proof (RenderScene_log ind s Hsh Hok) as Hrun.
  eexists. split; [exact Hrun|].
  split; [exact (bind_Some _ _ _ _ _ _ _ _ _ Hrun Hrun) | apply draws_frame].
Qed.

Lemma frames_repeat_witness :
  exists frame,
    RenderScene zero_material (SceneManager.SceneManager true 1)
    = Some (tt, SceneManager.SceneManager true 1, frame)
    /\ (RenderScene zero_material ;; RenderScene zero_material)
         (SceneManager.SceneManager true 1)
       = Some (tt, SceneManager.SceneManager true 1, (frame ++ frame)%list)
    /\ draws frame = map p_mesh scene_placements.
Proof.
  apply (frames_repeat zero_material (SceneManager.SceneManager true 1));
    [reflexivity | unfold table_ok; simpl; lia].
Defined.

(** *** The texture slots of the scene, for any decoder *)

Lemma CreateGLTexture_rejects (stbi_load : string -> option (Z * Z * Z))
      (filename tg : string) (s : State) :
  decodes stbi_load filename = false ->
  exists s' evs,
    CreateGLTexture stbi_load filename tg s = Some (false, s', evs)
    /\ m_textureIDs s' = m_textureIDs s
    /\ m_loadedTextures s' = m_loadedTextures s.
Proof.
  unfold decodes, CreateGLTexture. intros Hdec.
  destruct (stbi_load filename) as [[[width height] channels] |].
  - apply orb_false_iff in Hdec. destruct Hdec as (E3 & E4). rewrite E3, E4.
    eexists; eexists. split; [reflexivity|]. split; reflexivity.
  - eexists; eexists. split; [reflexivity|]. split; reflexivity.
Qed.

(** A run of loads followed by [BindGLTextures]: the loaded tags grow by
    the tags of the files that decode, in order. *)
Lemma load_chain_tags (stbi_load : string -> option (Z * Z * Z))
      (files : list (string * string)) :
  forall s,
    0 <= m_loadedTextures s ->
    m_loadedTextures s + Z.of_nat (List.length files)
    <= Z.of_nat (List.length (m_textureIDs s)) ->
    exists s' evs,
      fold_right (fun ft rest => CreateGLTexture stbi_load (fst ft) (snd ft) ;; rest)
                 BindGLTextures files s = Some (tt, s', evs)
      /\ loaded_tags s'
         = (loaded_tags s
            ++ map snd (filter (fun ft => decodes stbi_load (fst ft)) files))%list
      /\ 0 <= m_loadedTextures s'
      /\ table_ok s'.
Proof.
  induction files as [| [filename tg] rest IH]; intros s H0 Hroom.
  - cbn [fold_right List.length filter map] in *.
    assert (Hok : table_ok s) by (unfold table_ok; lia).
    destruct (BindGLTextures_log s Hok) as (evs & Hrun & _).
    exists s, evs. rewrite app_nil_r. auto.
  - cbn [fold_right List.length fst snd filter] in *.
    destruct (decodes stbi_load filename) eqn:Hdec.
    + destruct (CreateGLTexture_registers stbi_load filename tg s H0 ltac:(lia) Hdec)
        as (s1 & evs1 & Hrun1 & Hent & Hcount & Hlen & _).
      destruct (IH s1 ltac:(lia) ltac:(rewrite Hlen; lia))
        as (s' & evs & Hrun & Htags & H0' & Hok').
      exists s', (evs1 ++ evs)%list.
      split; [exact (bind_Some _ _ _ _ _ _ _ _ _ Hrun1 Hrun)|].
      split; [| auto].
      rewrite Htags. unfold loaded_tags at 1. rewrite Hent, map_app.
      cbn [map tag]. rewrite <- app_assoc. reflexivity.
    + destruct (CreateGLTexture_rejects stbi_load filename tg s Hdec)
        as (s1 & evs1 & Hrun1 & Htable & Hcount).
      destruct (IH s1 ltac:(lia) ltac:(rewrite Htable, Hcount; lia))
        as (s' & evs & Hrun & Htags & H0' & Hok').
      exists s', (evs1 ++ evs)%list.
      split; [exact (bind_Some _ _ _ _ _ _ _ _ _ Hrun1 Hrun)|].
      split; [| auto].
      rewrite Htags. unfold loaded_tags, loaded_entries.
      rewrite Htable, Hcount. reflexivity.
Qed.

Lemma PrepareScene_tags (stbi_load : string -> option (Z * Z * Z)) (glNext : Z) :
  exists s evs,
    PrepareScene stbi_load (SceneManager.SceneManager true glNext) = Some (tt, s, evs)
    /\ m_pShaderManager s = true
    /\ table_ok s
    /\ loaded_tags s
       = map snd (filter (fun ft => decodes stbi_load (fst ft)) scene_textures).
Proof.
  destruct (PrepareScene_log stbi_load glNext)
    as (s & evs & Hrun & Hsh & _ & Hok & _).
  exists s, evs. split; [exact Hrun|]. split; [exact Hsh|]. split; [exact Hok|].
  destruct (load_chain_tags stbi_load scene_textures
              (SceneManager.SceneManager true glNext)
              ltac:(cbn; lia) ltac:(cbn; lia))
    as (s1 & evs1 & Hrun1 & Htags & _ & _).
  change (fold_right _ BindGLTextures scene_textures)
    with (LoadSceneTextures stbi_load) in Hrun1.
  cbn [app] in Htags. change (loaded_tags (SceneManager.SceneManager true glNext))
    with (@nil string) in Htags. cbn [app] in Htags.
  rewrite <- Htags. clear Htags.
  unfold PrepareScene in Hrun. unfold bind at 1 in Hrun. rewrite Hrun1 in Hrun.
  unfold bind at 1 in Hrun.
  destruct (LoadSceneTextures_log stbi_load (SceneManager.SceneManager true glNext)
              eq_refl eq_refl) as (s1' & evs1' & Hrun1' & _ & Hmat1 & _).
  rewrite Hrun1 in Hrun1'. injection Hrun1' as <- <-.
  cbn [m_objectMaterials SceneManager.SceneManager] in Hmat1.
  rewrite (DefineObjectMaterials_log s1 Hmat1) in Hrun.
  set (s2 := mkState (m_pShaderManager s1) (m_textureIDs s1) (m_loadedTextures s1)
                     defined_materials (glNextName s1)) in *.
  assert (Hsh2 : m_pShaderManager s2 = true).
  { destruct (m_pShaderManager s2) eqn:E; [reflexivity|].
    exfalso. unfold bind at 1 in Hrun. unfold SetupSceneLights in Hrun.
    rewrite (bind_None_l _ _ s2 (shader_null _ s2 E)) in Hrun. discriminate Hrun. }
  destruct (SetupSceneLights_log s2 Hsh2) as (evs3 & Hrun3 & _).
  unfold bind at 1 in Hrun. rewrite Hrun3 in Hrun.
  cbv [bind LoadPlaneMesh LoadTaperedCylinderMesh LoadTorusMesh LoadCylinderMesh
       LoadConeMesh LoadBoxMesh emit] in Hrun.
  injection Hrun as <- _. reflexivity.
Qed.

Lemma samplers_app (a b : list event) :
  samplers (a ++ b) = (samplers a ++ samplers b)%list.
Proof. apply flat_map_app. Qed.

Lemma samplers_placement_log (s : State) (ind : OBJECT_MATERIAL) (p : Placement) :
  samplers (placement_log s ind p)
  = match p_texture p with
    | Some tg => [slot_of s tg]
    | None => []
    end.
Proof.
  unfold placement_log.
  change (samplers (?e :: ?l)) with (samplers ([e] ++ l)).
  rewrite !samplers_app.
  assert (Hm : samplers (material_log s ind (p_material p)) = []).
  { destruct (p_material p) as [tg |]; [| reflexivity]. unfold material_log.
    destruct (Nat.ltb 0 (List.length (m_objectMaterials s))); reflexivity. }
  rewrite Hm. destruct (p_texture p); reflexivity.
Qed.

Lemma samplers_frame (s : State) (ind : OBJECT_MATERIAL) (ps : list Placement) :
  samplers (flat_map (placement_log s ind) ps)
  = flat_map (fun p => match p_texture p with
                       | Some tg => [slot_of s tg]
                       | None => []
                       end) ps.
Proof.
  induction ps as [| p rest IH]; [reflexivity|].
  cbn [flat_map]. rewrite samplers_app, samplers_placement_log, IH. reflexivity.
Qed.

Lemma scene_tags_distinct (f f' tg : string) :
  In (f, tg) scene_textures -> In (f', tg) scene_textures -> f = f'.
Proof.
  unfold scene_textures. cbn [In]. intros H H'.
  repeat match goal with
         | H : _ \/ _ |- _ => destruct H as [H | H]
         end; congruence || contradiction.
Qed.

(** X23. The texture slots after the setup, for any decoder.  The loaded
    tags are the tags of the files that decoded as RGB or RGBA, in the
    order of [LoadSceneTextures]; a tag resolves to its position in that
    list, so a texture whose file failed to decode resolves to -1 and the
    textures after it move one slot down. *)
Theorem setup_texture_slots (stbi_load : string -> option (Z * Z * Z)) (glNext : Z) :
  exists s evs,
    PrepareScene stbi_load (SceneManager.SceneManager true glNext) = Some (tt, s, evs)
    /\ loaded_tags s
       = map snd (filter (fun ft => decodes stbi_load (fst ft)) scene_textures)
    /\ m_loadedTextures s = Z.of_nat (List.length (loaded_tags s))
    /\ (forall tg, FindTextureSlot s tg = Some (index_of (loaded_tags s) tg 0))
    /\ (forall f tg,
           In (f, tg) scene_textures ->
           decodes stbi_load f = false ->
           FindTextureSlot s tg = Some (-1))
    /\ (forall f tg,
           In (f, tg) scene_textures ->
           decodes stbi_load f = true ->
           exists slot, FindTextureSlot s tg = Some slot
                        /\ 0 <= slot < m_loadedTextures s).
Proof.
  destruct (PrepareScene_tags stbi_load glNext)
    as (s & evs & Hrun & Hsh & Hok & Htags).
  destruct (PrepareScene_log stbi_load glNext)
    as (s0 & evs0 & Hrun0 & _ & _ & _ & Hcount & _).
  rewrite Hrun in Hrun0. injection Hrun0 as <- <-.
  assert (Hlen : m_loadedTextures s = Z.of_nat (List.length (loaded_tags s))).
  { unfold loaded_tags, loaded_entries. rewrite length_map, length_firstn.
    unfold table_ok in Hok. lia. }
  exists s, evs. split; [exact Hrun|]. split; [exact Htags|]. split; [exact Hlen|].
  split; [intros tg; apply FindTextureSlot_index, Hok|].
  split.
  - intros f tg Hin Hdec. rewrite (FindTextureSlot_index s tg Hok).
    destruct (index_of_bounds (loaded_tags s) tg 0) as [(Hm & _) | (_ & Hn)];
      [rewrite Hm; reflexivity|].
    exfalso. apply nth_error_In in Hn. rewrite Htags in Hn.
    apply in_map_iff in Hn. destruct Hn as ([f' tg'] & Hsnd & Hf).
    cbn [snd] in Hsnd. subst tg'. apply filter_In in Hf.
    destruct Hf as (Hin' & Hdec'). cbn [fst] in Hdec'.
    rewrite (scene_tags_distinct f f' tg Hin Hin') in Hdec. congruence.
  - intros f tg Hin Hdec. rewrite (FindTextureSlot_index s tg Hok).
    eexists. split; [reflexivity|].
    destruct (index_of_bounds (loaded_tags s) tg 0) as [(_ & Hno) | (Hr & _)];
      [| lia].
    exfalso. apply Hno. rewrite Htags. apply in_map_iff.
    exists (f, tg). split; [reflexivity|]. apply filter_In. auto.
Qed.

(** X24. The texture slots a frame publishes.  After the setup, for any
    decoder, the texture uniforms of a [RenderScene] pass are, in order,
    the positions of the placements' texture tags among the tags that
    loaded.  When all eight files decode these are 1, 0, 0, 0, 4, 7, 6, 6,
    5, 2, 2, 2, 2 and 3: no placement is drawn with the sentinel -1. *)
Theorem frame_texture_slots (stbi_load : string -> option (Z * Z * Z)) (glNext : Z)
        (indeterminate : OBJECT_MATERIAL) :
  exists s evs frame,
    PrepareScene stbi_load (SceneManager.SceneManager true glNext) = Some (tt, s, evs)
    /\ RenderScene indeterminate s = Some (tt, s, frame)
    /\ samplers frame
       = map (fun tg => index_of
                          (map snd (filter (fun ft => decodes stbi_load (fst ft))
                                           scene_textures)) tg 0)
             (flat_map (fun p => match p_texture p with
                                 | Some tg => [tg]
                                 | None => []
                                 end) scene_placements)
    /\ ((forall f, In f texture_files -> decodable stbi_load f) ->
        samplers frame = [1; 0; 0; 0; 4; 7; 6; 6; 5; 2; 2; 2; 2; 3]).
Proof.
  destruct (PrepareScene_tags stbi_load glNext)
    as (s & evs & Hrun & Hsh & Hok & Htags).
  exists s, evs, (flat_map (placement_log s indeterminate) scene_placements).
  split; [exact Hrun|]. split; [apply RenderScene_log; assumption|].
  assert (Hslot : forall tg, slot_of s tg = index_of (loaded_tags s) tg 0).
  { intros tg. unfold slot_of. rewrite (FindTextureSlot_index s tg Hok). reflexivity. }
  assert (Hsam : samplers (flat_map (placement_log s indeterminate) scene_placements)
                 = map (fun tg => index_of (loaded_tags s) tg 0)
                       (flat_map (fun p => match p_texture p with
                                           | Some tg => [tg]
                                           | None => []
                                           end) scene_placements)).
  { rewrite samplers_frame. unfold scene_placements.
    cbn [flat_map p_texture app map]. rewrite !Hslot. reflexivity. }
  rewrite Hsam, Htags. split; [reflexivity|].
  intros Hall.
  assert (Hd : forall f, In f texture_files -> decodes stbi_load f = true)
    by (intros f Hf; apply decodes_true, Hall, Hf).
  unfold scene_textures, scene_placements.
  cbn [filter fst].
  rewrite !Hd by (unfold texture_files; cbn [In]; tauto).
  reflexivity.
Qed.

Lemma find_material_app (l l' : list OBJECT_MATERIAL) (tg : string) :
  find (fun m => String.eqb (material_tag m) tg) (l ++ l')
  = match find (fun m => String.eqb (material_tag m) tg) l with
    | Some m => Some m
    | None => find (fun m => String.eqb (material_tag m) tg) l'
    end.
Proof.
  induction l as [| m l IH]; cbn [app find]; [reflexivity|].
  destruct (String.eqb (material_tag m) tg); [reflexivity | exact IH].
Qed.

(** X25. [DefineObjectMaterials] appends its six materials to whatever
    the list holds and touches nothing else.  Each of the six tags resolves
    afterwards, and a tag that resolved before resolves to the same
    material as before: running the definition a second time adds six
    duplicates that no lookup returns. *)
Theorem DefineObjectMaterials_appends (s : State) :
  exists s',
    DefineObjectMaterials s = Some (tt, s', [])
    /\ m_objectMaterials s' = (m_objectMaterials s ++ defined_materials)%list
    /\ m_textureIDs s' = m_textureIDs s
    /\ m_loadedTextures s' = m_loadedTextures s
    /\ m_pShaderManager s' = m_pShaderManager s
    /\ (forall tg m, resolve_material s tg = Some m -> resolve_material s' tg = Some m)
    /\ (forall tg,
           In tg ["ceramic"; "marble"; "paper"; "plastic"; "dullPlastic"; "glass"] ->
           exists m, resolve_material s' tg = Some m /\ material_tag m = tg).
Proof.
  eexists. split; [reflexivity|].
  cbn [m_objectMaterials m_textureIDs m_loadedTextures m_pShaderManager].
  assert (Hmat : (((((((m_objectMaterials s ++ [ceramicMaterial]) ++ [marbleMaterial])
                      ++ [paperMaterial]) ++ [plasticMaterial])
                    ++ [dullPlasticMaterial]) ++ [glassMaterial])
                  = m_objectMaterials s ++ defined_materials)%list)
    by (rewrite <- !app_assoc; reflexivity).
  split; [exact Hmat|]. repeat (split; [reflexivity|]).
  unfold resolve_material. cbn [m_objectMaterials]. rewrite Hmat.
  split.
  - intros tg m Hres. rewrite find_material_app, Hres. reflexivity.
  - intros tg Hin. rewrite find_material_app.
    destruct (find (fun m => String.eqb (material_tag m) tg) (m_objectMaterials s))
      as [m |] eqn:Hfind.
    + exists m. split; [reflexivity|]. apply find_some in Hfind.
      destruct Hfind as (_ & E). apply String.eqb_eq in E. exact E.
    + cbn [In] in Hin.
      repeat (destruct Hin as [<- | Hin]; [eexists; split; reflexivity|]).
      contradiction.
Qed.

End SceneManagerRendering.
